(** * Bitalino manager: a shallow embedding of [Bitalinomanager.py] and
    [liveplot.py], and the properties of the acquisition session.

    The Python code is a class whose attributes are a process-wide state
    (the device record, a failure counter, the collected sessions) and whose
    methods call a vendor SDK, the clock, a child process and the file
    system.  Methods are embedded as functions in a state-and-exception
    monad; the outside world is an interface ([Env]) every call goes
    through; what the program sends out (lines to the plot process, the
    CSV file) is appended to a trace.

    Numbers are those of the code: the vendor's sample matrix holds NumPy
    int64 values (here [Z]), the converted signals are binary64 floats
    (here Rocq's primitive [float]). *)

From Stdlib Require Import ZArith List String Ascii Bool Lia.
From Stdlib Require Import Floats DecimalString DecimalPos DecimalZ.
Import ListNotations.

#[local] Set Warnings "-inexact-float,-notation-for-abbreviation".
#[local] Open Scope string_scope.
#[local] Open Scope list_scope.
#[local] Open Scope Z_scope.

(** ** Python values used by the manager *)

(** A one-dimensional NumPy array: int64 (what [read] returns) or float64
    (what the transfer functions return). *)
Inductive ndarray : Type :=
| IntArr (xs : list Z)
| FloatArr (xs : list float).

(** A two-dimensional NumPy array, by rows. *)
Inductive ndarray2 : Type :=
| Int2 (rows : list (list Z))
| Float2 (rows : list (list float)).

(** What [np.array(list_of_arrays)] can return here: the one-dimensional
    empty array (from the empty list) or a matrix. *)
Inductive nparray : Type :=
| Arr1 (a : ndarray)
| Arr2 (m : ndarray2).

(** A Python number, as [tolist()] and [json] see it. *)
Inductive pynum : Type :=
| PyInt (z : Z)
| PyFloat (f : float).

(** The matrix returned by the vendor's [read(nSamples)]: shape
    [(n_rows, n_cols)], dtype int. *)
Record IntMatrix : Type := mkIntMatrix {
  n_cols : nat;
  m_rows : list (list Z)
}.

(** int64 to float64, as NumPy converts an int array in a float operation. *)
Definition float_of_Z (z : Z) : float :=
  if z =? - 2 ^ 63 then PrimFloat.opp 0x1p+63%float
  else if z <? 0 then PrimFloat.opp (PrimFloat.of_uint63 (Uint63.of_Z (- z)))
  else PrimFloat.of_uint63 (Uint63.of_Z z).

Definition astype_float (a : ndarray) : list float :=
  match a with
  | IntArr xs => map float_of_Z xs
  | FloatArr xs => xs
  end.

Definition np_len (a : ndarray) : nat :=
  match a with
  | IntArr xs => List.length xs
  | FloatArr xs => List.length xs
  end.

(** [np.append(a, b, axis=0)] on one-dimensional arrays: concatenation, the
    dtype stays int only when both are int. *)
Definition np_append (a b : ndarray) : ndarray :=
  match a, b with
  | IntArr xs, IntArr ys => IntArr (xs ++ ys)
  | _, _ => FloatArr (astype_float a ++ astype_float b)
  end.

(** [str(i)] for a Python int. *)
Definition str_of_Z (z : Z) : string := NilZero.string_of_int (Z.to_int z).

(** ** Dictionaries (insertion ordered, as Python's) *)

Definition dict (V : Type) : Type := list (string * V).

Fixpoint dict_get {V} (k : string) (d : dict V) : option V :=
  match d with
  | [] => None
  | (k', v) :: d' => if String.eqb k k' then Some v else dict_get k d'
  end.

(** [d[k] = v]: an existing key keeps its place, a new one goes last. *)
Fixpoint dict_set {V} (k : string) (v : V) (d : dict V) : dict V :=
  match d with
  | [] => [(k, v)]
  | (k', v') :: d' =>
      if String.eqb k k' then (k', v) :: d' else (k', v') :: dict_set k v d'
  end.

Definition dict_keys {V} (d : dict V) : list string := map fst d.
Definition dict_values {V} (d : dict V) : list V := map snd d.

(** ** Module constants *)

Definition _ACQ_CHANNELS : dict Z :=
  [("A1", 0); ("A2", 1); ("A3", 2); ("A4", 3); ("A5", 4); ("A6", 5)].

Definition _SENSOR_TYPES : list string := ["EDA"; "ECG"; "RAW"].

Definition get_key (dictionary : dict Z) (value : Z) : option string :=
  match filter (fun kv => snd kv =? value) dictionary with
  | [] => None
  | (key, _) :: _ => Some key
  end.

(** ** Transfer functions *)

(** [_raw_to_eda_uS]: raw samples to EDA in microsiemens. *)
Definition _raw_to_eda_uS (raw_data : ndarray) : ndarray :=
  let VCC := 3.3%float in
  let eda_uS := map (fun x => PrimFloat.mul x VCC) (astype_float raw_data) in
  let n := 10 in
  FloatArr (map (fun x => PrimFloat.div x
                            (PrimFloat.mul 0.132%float (float_of_Z (2 ^ n))))
                eda_uS).

(** [_raw_to_ecg_mv]: raw samples to ECG in millivolts. *)
Definition _raw_to_ecg_mv (raw_data : ndarray) : ndarray :=
  let VCC := 3.3%float in
  let G := 1100 in
  let n := 10 in
  let ecg := map (fun x => PrimFloat.div x (float_of_Z (2 ^ n)))
                 (astype_float raw_data) in
  let ecg := map (fun x => PrimFloat.sub x 0.5%float) ecg in
  let ecg := map (fun x => PrimFloat.mul x (PrimFloat.div VCC (float_of_Z G)))
                 ecg in
  let ecg_mv := map (fun x => PrimFloat.mul x (float_of_Z 1000)) ecg in
  FloatArr ecg_mv.

(** ** Exceptions and outcomes *)

Inductive ExcClass : Type :=
| Exception
| AttributeError
| IndexError
| ValueError
| UnboundLocalError
| OSError
| KeyboardInterrupt.

(** An exception object: its class and [str(e)]. *)
Record PyExc : Type := mkExc {
  exc_class : ExcClass;
  exc_str : string
}.

(** What [except Exception] catches: everything but [KeyboardInterrupt]. *)
Definition is_Exception (e : PyExc) : bool :=
  match exc_class e with
  | KeyboardInterrupt => false
  | _ => true
  end.

(** The result of running a piece of code: a value, a raised exception, or
    no result within the allotted number of steps. *)
Inductive Outcome (A : Type) : Type :=
| Ret (a : A)
| Raise (e : PyExc)
| Diverge.
Arguments Ret {A} a.
Arguments Raise {A} e.
Arguments Diverge {A}.

(** State and exceptions. *)
Definition M (S A : Type) : Type := S -> Outcome A * S.

Definition ret {S A} (a : A) : M S A := fun s => (Ret a, s).
Definition raise {S A} (e : PyExc) : M S A := fun s => (Raise e, s).
Definition bind {S A B} (m : M S A) (k : A -> M S B) : M S B :=
  fun s =>
    match m s with
    | (Ret a, s') => k a s'
    | (Raise e, s') => (Raise e, s')
    | (Diverge, s') => (Diverge, s')
    end.
Definition get {S} : M S S := fun s => (Ret s, s).
Definition modify {S} (f : S -> S) : M S unit := fun s => (Ret tt, f s).
Definition lift_outcome {S A} (o : Outcome A) : M S A := fun s => (o, s).

Notation "x <- c1 ;; c2" := (bind c1 (fun x => c2))
  (at level 61, c1 at next level, right associativity).
Notation "c1 ;; c2" := (bind c1 (fun _ => c2))
  (at level 61, right associativity).

(** [try: body except Exception as e: handler e]. *)
Definition try_except {S A} (body : M S A) (handler : PyExc -> M S A) : M S A :=
  fun s =>
    match body s with
    | (Raise e, s') => if is_Exception e then handler e s' else (Raise e, s')
    | r => r
    end.

(** [for x in l: body x]. *)
Fixpoint for_each {S A} (l : list A) (body : A -> M S unit) : M S unit :=
  match l with
  | [] => ret tt
  | x :: l' => body x ;; for_each l' body
  end.

Definition enumerate {A} (l : list A) : list (nat * A) :=
  combine (seq 0 (List.length l)) l.

(** ** The manager's state *)

(** The items of the device-state dictionary. *)
Record DeviceState : Type := mkDeviceState {
  MAC : string;
  selected_channels : list Z;
  sampling_rate : Z;
  connected : bool
}.

(** The two dictionary classes of the code: a plain [dict] has no attribute
    access to its items, [DictWithAttributes] reads and writes an existing
    key as an attribute. *)
Inductive DictClass : Type :=
| PlainDict
| DictWithAttributes.

(** [obj.key] where [obj] is of class [cls] and holds [v] under [key]. *)
Definition getattr {A} (cls : DictClass) (key : string) (v : A) : Outcome A :=
  match cls with
  | DictWithAttributes => Ret v
  | PlainDict =>
      Raise (mkExc AttributeError
               ("'dict' object has no attribute '" ++ key ++ "'"))
  end.

(** [DEFAULT_DEVICE_STATE = { ... }]: a dict literal. *)
Definition DEFAULT_DEVICE_STATE : DeviceState :=
  {| MAC := ""; selected_channels := [0]; sampling_rate := 100;
     connected := false |}.
Definition DEFAULT_DEVICE_STATE_class : DictClass := PlainDict.

(** [device_state = DictWithAttributes(DEFAULT_DEVICE_STATE)]. *)
Definition device_state_class : DictClass := DictWithAttributes.

(** One session: sensor label to samples. *)
Definition Session : Type := dict ndarray.

(** The class attributes of [Bitalino_Manager]; [device] is only annotated
    in the class body, so it is unbound until [connect] assigns it. *)
Record Manager : Type := mkManager {
  device : bool;
  device_state : DeviceState;
  connection_failed_counter : Z;
  collected_data : dict Session
}.

Definition initial_manager : Manager :=
  {| device := false; device_state := DEFAULT_DEVICE_STATE;
     connection_failed_counter := 0; collected_data := [] |}.

(** The parameters of [start_aquisition]. *)
Record Params : Type := mkParams {
  runtime : Z;
  channels : dict string;
  samplingRate : Z;
  nSamples : Z;
  show_live_plot : bool;
  macAddress : option string;
  save_to_file : bool;
  file_name_prefix : string;
  print_sample_log : bool
}.

(** The defaults of the signature of [start_aquisition]. *)
Definition default_params : Params :=
  {| runtime := 0; channels := [("A1", "EDA")]; samplingRate := 100;
     nSamples := 100; show_live_plot := false; macAddress := None;
     save_to_file := false; file_name_prefix := "BITALINO";
     print_sample_log := false |}.

(** The local variables of one activation of [start_aquisition]; [None] is
    a name not bound yet. *)
Record Frame : Type := mkFrame {
  l_channels : dict string;
  l_start : option float;
  sesssion_time_stamp : option string;
  collected_data_in_this_session : option Session;
  l_p : bool
}.

(** The pandas objects of the save step. *)
Record DataFrame : Type := mkDataFrame {
  df_columns : list string;
  df_data : list ndarray
}.

Record CsvFile : Type := mkCsvFile {
  csv_header : list string;
  csv_records : list (list pynum)
}.

(** What the program sends out. *)
Inductive Event : Type :=
| Popen (args : list string)
| StdinWrite (data : string)
| SendSignal
| ToCsv (path : string) (file : CsvFile).

(** ** The outside world

    The vendor SDK ([BITalino(...)], [version], [state], [start], [read],
    [stop], [close]), the clock, the child process and the file system.
    Each call may return, raise or block; [time_strftime] formats the
    session stamp and [float_repr] is Python's [float.__repr__], which
    [json.dumps] uses. *)
Class Env (W : Type) : Type := {
  BITalino : string -> Z -> W -> Outcome unit * W;
  device_version : W -> Outcome string * W;
  device_state_call : W -> Outcome (list (string * string)) * W;
  device_start : Z -> list Z -> W -> Outcome unit * W;
  device_read : Z -> W -> Outcome IntMatrix * W;
  device_stop : W -> Outcome unit * W;
  device_close : W -> Outcome unit * W;
  time_time : W -> Outcome float * W;
  time_sleep : Z -> W -> Outcome unit * W;
  time_strftime : float -> string;
  subprocess_Popen : list string -> W -> Outcome unit * W;
  stdin_write : string -> W -> Outcome unit * W;
  p_poll_is_None : W -> Outcome bool * W;
  p_send_signal : W -> Outcome unit * W;
  file_write : string -> CsvFile -> W -> Outcome unit * W;
  float_repr : float -> string;
  (** [str(ExceptionCode.CONTACTING_DEVICE)], [str(ExceptionCode.DEVICE_NOT_IDLE)] *)
  CONTACTING_DEVICE : string;
  DEVICE_NOT_IDLE : string
}.

(** ** NumPy, pandas and slicing helpers *)

Definition is_IntArr (a : ndarray) : bool :=
  match a with
  | IntArr _ => true
  | FloatArr _ => false
  end.

Definition int_items (a : ndarray) : list Z :=
  match a with
  | IntArr xs => xs
  | FloatArr _ => []
  end.

(** [_read_data[:, j].flatten()]. *)
Definition column (m : IntMatrix) (j : nat) : Outcome ndarray :=
  if (j <? n_cols m)%nat
  then Ret (IntArr (map (fun r => nth j r 0) (m_rows m)))
  else Raise (mkExc IndexError "index is out of bounds for axis 1").

(** [np.array(vals)] for a list of one-dimensional arrays: a matrix when
    they have one length (int only when all are int), an error when the
    lengths differ, the empty one-dimensional array for the empty list. *)
Definition np_array (vals : list ndarray) : Outcome nparray :=
  match vals with
  | [] => Ret (Arr1 (FloatArr []))
  | v :: vs =>
      if forallb (fun a => (np_len a =? np_len v)%nat) vs
      then if forallb is_IntArr vals
           then Ret (Arr2 (Int2 (map int_items vals)))
           else Ret (Arr2 (Float2 (map astype_float vals)))
      else Raise (mkExc ValueError
                    "setting an array element with a sequence. The requested array has an inhomogeneous shape")
  end.

(** [l[start:]] with Python's reading of a negative start. *)
Definition slice_from {A} (start : Z) (l : list A) : list A :=
  let n := Z.of_nat (List.length l) in
  let s := if start <? 0 then Z.max (n + start) 0 else Z.min start n in
  skipn (Z.to_nat s) l.

(** [a[:, start:]]. *)
Definition columns_from (a : nparray) (start : Z) : Outcome ndarray2 :=
  match a with
  | Arr1 _ =>
      Raise (mkExc IndexError
               "too many indices for array: array is 1-dimensional, but 2 were indexed")
  | Arr2 (Int2 rows) => Ret (Int2 (map (slice_from start) rows))
  | Arr2 (Float2 rows) => Ret (Float2 (map (slice_from start) rows))
  end.

Definition tolist (m : ndarray2) : list (list pynum) :=
  match m with
  | Int2 rows => map (map PyInt) rows
  | Float2 rows => map (map PyFloat) rows
  end.

Definition tolist1 (a : ndarray) : list pynum :=
  match a with
  | IntArr xs => map PyInt xs
  | FloatArr xs => map PyFloat xs
  end.

(** [pd.DataFrame(d)] for a dict of arrays: one column per key, in the
    dict's order; arrays of different lengths are refused. *)
Definition pd_DataFrame (d : Session) : Outcome DataFrame :=
  match dict_values d with
  | [] => Ret (mkDataFrame [] [])
  | v :: vs =>
      if forallb (fun a => (np_len a =? np_len v)%nat) vs
      then Ret (mkDataFrame (dict_keys d) (dict_values d))
      else Raise (mkExc ValueError "All arrays must be of the same length")
  end.

Definition df_height (df : DataFrame) : nat :=
  match df_data df with
  | [] => O
  | v :: _ => np_len v
  end.

(** [df.to_csv(path, index=index)]: the header line and the records; with
    [index=True] an unnamed first column holds the row numbers. *)
Definition to_csv (df : DataFrame) (index : bool) : CsvFile :=
  {| csv_header := (if index then [""] else []) ++ df_columns df;
     csv_records :=
       map (fun i =>
              (if index then [PyInt (Z.of_nat i)] else []) ++
              map (fun col => nth i (tolist1 col) (PyInt 0)) (df_data df))
           (seq 0 (df_height df)) |}.

(** ** The JSON line protocol of the live plot *)

Definition newline : string := String (ascii_of_nat 10) EmptyString.

Fixpoint join (sep : string) (l : list string) : string :=
  match l with
  | [] => ""
  | [x] => x
  | x :: l' => x ++ sep ++ join sep l'
  end.

(** [json.dumps] on a list of lists of numbers, [repr] printing a number:
    items are separated by a comma and a space. *)
Definition json_dumps_row {A} (repr : A -> string) (row : list A) : string :=
  "[" ++ join ", " (map repr row) ++ "]".

Definition json_dumps {A} (repr : A -> string) (m : list (list A)) : string :=
  "[" ++ join ", " (map (json_dumps_row repr) m) ++ "]".

(** The line written for one frame: [arr_json + '\n']. *)
Definition frame_line {A} (repr : A -> string) (m : list (list A)) : string :=
  json_dumps repr m ++ newline.

(** ** The methods of [Bitalino_Manager] *)

Section Methods.
Context {W : Type} {E : Env W}.

(** The whole state a method runs in: the class attributes, the current
    activation of [start_aquisition], what was sent out, the world. *)
Record State : Type := mkState {
  mgr : Manager;
  frame : Frame;
  trace : list Event;
  world : W
}.

Definition set_mgr (f : Manager -> Manager) (s : State) : State :=
  mkState (f (mgr s)) (frame s) (trace s) (world s).
Definition set_frame (f : Frame -> Frame) (s : State) : State :=
  mkState (mgr s) (f (frame s)) (trace s) (world s).

Definition set_device_state (f : DeviceState -> DeviceState) (m : Manager)
  : Manager :=
  mkManager (device m) (f (device_state m)) (connection_failed_counter m)
    (collected_data m).

(** A call into the outside world. *)
Definition call {A} (op : W -> Outcome A * W) : M State A :=
  fun s =>
    let (r, w) := op (world s) in
    (r, mkState (mgr s) (frame s) (trace s) w).

Definition emit (ev : Event) : M State unit :=
  modify (fun s => mkState (mgr s) (frame s) (trace s ++ [ev]) (world s)).

(** [Bitalino_Manager.device_state.<key>]. *)
Definition get_device_state {A} (key : string) (proj : DeviceState -> A)
  : M State A :=
  s <- get ;;
  lift_outcome (getattr device_state_class key (proj (device_state (mgr s)))).

(** [Bitalino_Manager.device_state.<key> = v]: the key exists. *)
Definition put_device_state (f : DeviceState -> DeviceState) : M State unit :=
  modify (set_mgr (set_device_state f)).

(** [Bitalino_Manager.device]. *)
Definition get_device : M State unit :=
  s <- get ;;
  if device (mgr s) then ret tt
  else raise (mkExc AttributeError
                "type object 'Bitalino_Manager' has no attribute 'device'").

Definition _select_channels (chs : list string) : M State unit :=
  put_device_state
    (fun d => mkDeviceState (MAC d) [] (sampling_rate d) (connected d)) ;;
  for_each chs (fun c =>
    match dict_get c _ACQ_CHANNELS with
    | Some idx =>
        put_device_state
          (fun d => mkDeviceState (MAC d) (selected_channels d ++ [idx])
                      (sampling_rate d) (connected d))
    | None =>
        raise (mkExc Exception
                 ("[Invalid channel] : " ++ c ++
                  ". Select from accepted channel values : A1, A2, A3, A4, A5, A6"))
    end).

Definition _SAMPLING_RATES : list Z := [1; 10; 100; 1000].

Definition _select_sampling_rate (rate : Z) : M State unit :=
  if existsb (Z.eqb rate) _SAMPLING_RATES
  then put_device_state
         (fun d => mkDeviceState (MAC d) (selected_channels d) rate
                     (connected d))
  else
    (* print(f"Invalid sampling rate : {rate}") *)
    (* print(f"... {Bitalino_Manager.DEFAULT_DEVICE_STATE.sampling_rate}") *)
    _ <- lift_outcome (getattr DEFAULT_DEVICE_STATE_class "sampling_rate"
                         (sampling_rate DEFAULT_DEVICE_STATE)) ;;
    r <- lift_outcome (getattr DEFAULT_DEVICE_STATE_class "sampling_rate"
                         (sampling_rate DEFAULT_DEVICE_STATE)) ;;
    put_device_state
      (fun d => mkDeviceState (MAC d) (selected_channels d) r (connected d)).

Definition connect (macAddress : option string) (timeout : Z)
  (print_state : bool) : M State bool :=
  try_except
    (macAddress <- match macAddress with
                   | None =>
                       lift_outcome (getattr DEFAULT_DEVICE_STATE_class "MAC"
                                       (MAC DEFAULT_DEVICE_STATE))
                   | Some a => ret a
                   end ;;
     call (BITalino macAddress timeout) ;;
     modify (set_mgr (fun m => mkManager true (device_state m)
                                 (connection_failed_counter m)
                                 (collected_data m))) ;;
     get_device ;;
     _ <- call device_version ;;
     (if print_state
      then get_device ;; _ <- call device_state_call ;; ret tt
      else ret tt) ;;
     modify (set_mgr (fun m => mkManager (device m) (device_state m) 0
                                 (collected_data m))) ;;
     put_device_state
       (fun d => mkDeviceState macAddress (selected_channels d)
                   (sampling_rate d) (connected d)) ;;
     put_device_state
       (fun d => mkDeviceState (MAC d) (selected_channels d)
                   (sampling_rate d) true))
    (fun e =>
       let _msg := ("[Connection Error] : " ++ exc_str e)%string in
       modify (set_mgr (fun m => mkManager (device m) (device_state m)
                                   (connection_failed_counter m + 1)
                                   (collected_data m))) ;;
       put_device_state
         (fun d => mkDeviceState (MAC d) (selected_channels d)
                     (sampling_rate d) false) ;;
       raise (mkExc Exception _msg)) ;;
  get_device_state "connected" connected.

Definition disconnect : M State unit :=
  get_device ;;
  call device_close ;;
  put_device_state
    (fun d => mkDeviceState (MAC d) (selected_channels d) (sampling_rate d)
                false).

Definition force_stop_aquisition : M State unit :=
  get_device ;;
  call device_stop.

(** *** The polling loop *)

Definition COLUMN_OFFSET : nat := 5.

(** Lines 229-235: the value of [_sensor_data] for one channel.  The first
    [if] is a statement of its own; the [if]/[else] after it assigns
    [_sensor_data] in both branches. *)
Definition convert (sensor : string) (_read_data : IntMatrix) (i : nat)
  : M Session ndarray :=
  _ <- (if String.eqb sensor "EDA"
        then raw <- lift_outcome (column _read_data (COLUMN_OFFSET + i)) ;;
             ret (Some (_raw_to_eda_uS raw))
        else ret None) ;;
  if String.eqb sensor "ECG"
  then raw <- lift_outcome (column _read_data (COLUMN_OFFSET + i)) ;;
       ret (_raw_to_ecg_mv raw)
  else lift_outcome (column _read_data (COLUMN_OFFSET + i)).

(** Lines 238-240: append to the sensor's array, or start it. *)
Definition store (sensor : string) (_sensor_data : ndarray) : M Session unit :=
  d <- get ;;
  match dict_get sensor d with
  | Some old =>
      if (0 <? np_len old)%nat
      then modify (dict_set sensor (np_append old _sensor_data))
      else modify (dict_set sensor _sensor_data)
  | None => modify (dict_set sensor _sensor_data)
  end.

(** Lines 228-240: the [for] loop over the channels for one batch. *)
Definition convert_and_store (chs : dict string) (_read_data : IntMatrix)
  : M Session unit :=
  for_each (enumerate chs) (fun '(i, (ch, sensor)) =>
    _sensor_data <- convert sensor _read_data i ;;
    store sensor _sensor_data).

(** Reading a local variable of the current activation. *)
Definition get_local {A} (name : string) (proj : Frame -> option A)
  : M State A :=
  s <- get ;;
  match proj (frame s) with
  | Some v => ret v
  | None =>
      raise (mkExc UnboundLocalError
               ("cannot access local variable '" ++ name ++
                "' where it is not associated with a value"))
  end.

Definition get_channels : M State (dict string) :=
  s <- get ;; ret (l_channels (frame s)).

Definition get_session : M State Session :=
  get_local "collected_data_in_this_session" collected_data_in_this_session.

Definition get_p : M State unit :=
  get_local "p" (fun f => if l_p f then Some tt else None).

Definition set_session (d : Session) (f : Frame) : Frame :=
  mkFrame (l_channels f) (l_start f) (sesssion_time_stamp f) (Some d) (l_p f).

(** Running code that updates the session dictionary in place. *)
Definition on_session {A} (m : M Session A) : M State A :=
  d <- get_session ;;
  fun s => let (r, d') := m d in (r, set_frame (set_session d') s).

(** A number as [json.dumps] prints it. *)
Definition num_repr (x : pynum) : string :=
  match x with
  | PyInt z => str_of_Z z
  | PyFloat f => float_repr f
  end.

(** Lines 248-249: what goes into one frame. *)
Definition plot_frame (rate : Z) (d : Session) : Outcome (list (list pynum)) :=
  let _max_one_min_values := 60 * rate in
  match np_array (dict_values d) with
  | Ret a =>
      match columns_from a (- _max_one_min_values) with
      | Ret m => Ret (tolist m)
      | Raise e => Raise e
      | Diverge => Diverge
      end
  | Raise e => Raise e
  | Diverge => Diverge
  end.

(** Lines 245-252: one update of the live plot. *)
Definition send_plot_update : M State unit :=
  rate <- get_device_state "sampling_rate" sampling_rate ;;
  d <- get_session ;;
  _tmp <- lift_outcome (plot_frame rate d) ;;
  let arr_json := json_dumps num_repr _tmp in
  get_p ;;
  call (stdin_write (arr_json ++ newline)%string) ;;
  emit (StdinWrite (arr_json ++ newline)%string).

(** Lines 256-260: whether the session has run for [runtime] seconds. *)
Definition timed_out (p : Params) : M State bool :=
  if 0 <? runtime p
  then _end <- call time_time ;;
       start <- get_local "start" l_start ;;
       ret (PrimFloat.leb (float_of_Z (runtime p)) (PrimFloat.sub _end start))
  else ret false.

(** Lines 217-260: one iteration of the [while True] loop; the result
    tells whether the loop is left ([break]). *)
Definition poll_once (p : Params) : M State bool :=
  get_device ;;
  _read_data <- call (device_read (nSamples p)) ;;
  chs <- get_channels ;;
  on_session (convert_and_store chs _read_data) ;;
  (if print_sample_log p
   then d <- get_session ;;
        _ <- lift_outcome (np_array (dict_values d)) ;;
        ret tt
   else ret tt) ;;
  (if show_live_plot p then send_plot_update else ret tt) ;;
  timed_out p.

(** Lines 216-260: the [while True] loop, for at most [fuel] iterations. *)
Fixpoint polling_loop (fuel : nat) (p : Params) : M State unit :=
  match fuel with
  | O => fun s => (Diverge, s)
  | S fuel' =>
      stop <- poll_once p ;;
      if (stop : bool) then ret tt else polling_loop fuel' p
  end.

(** Lines 190-193: an unknown sensor type becomes ['RAW'] in [channels]. *)
Definition check_sensor_types : M State unit :=
  chs <- get_channels ;;
  for_each chs (fun '(ch, sensor) =>
    if existsb (String.eqb sensor) _SENSOR_TYPES
    then ret tt
    else modify (set_frame (fun f =>
           mkFrame (dict_set ch "RAW" (l_channels f)) (l_start f)
             (sesssion_time_stamp f) (collected_data_in_this_session f)
             (l_p f)))).

(** Lines 205-211: the plot process and its command line. *)
Definition launch_plot : M State unit :=
  chs <- get_channels ;;
  rate <- get_device_state "sampling_rate" sampling_rate ;;
  let args := ["python3"; "liveplot.py"; str_of_Z rate] ++ dict_values chs in
  call (subprocess_Popen args) ;;
  emit (Popen args) ;;
  modify (set_frame (fun f =>
    mkFrame (l_channels f) (l_start f) (sesssion_time_stamp f)
      (collected_data_in_this_session f) true)).

(** Lines 186-260: the body of the [try]. *)
Definition try_body (fuel : nat) (p : Params) : M State unit :=
  _select_sampling_rate (samplingRate p) ;;
  chs <- get_channels ;;
  _select_channels (dict_keys chs) ;;
  check_sensor_types ;;
  get_device ;;
  rate <- get_device_state "sampling_rate" sampling_rate ;;
  sel <- get_device_state "selected_channels" selected_channels ;;
  call (device_start rate sel) ;;
  start <- call time_time ;;
  modify (set_frame (fun f =>
    mkFrame (l_channels f) (Some start) (Some (time_strftime start))
      (Some []) (l_p f))) ;;
  (if show_live_plot p then launch_plot else ret tt) ;;
  polling_loop fuel p.

(** Lines 287-299: the plot process is interrupted, the acquisition
    stopped, the device disconnected. *)
Definition teardown (p : Params) : M State unit :=
  (if show_live_plot p
   then get_p ;;
        running <- call p_poll_is_None ;;
        if (running : bool)
        then call p_send_signal ;; emit SendSignal
        else ret tt
   else ret tt) ;;
  call (time_sleep 1) ;;
  force_stop_aquisition ;;
  disconnect.

(** Lines 302-314: the session is recorded, written to a CSV file when
    asked, and returned. *)
Definition save_session (p : Params) : M State (string * Session) :=
  sess <- get_session ;;
  stamp <- get_local "sesssion_time_stamp" sesssion_time_stamp ;;
  modify (set_mgr (fun m =>
    mkManager (device m) (device_state m) (connection_failed_counter m)
      (dict_set stamp sess (collected_data m)))) ;;
  (if save_to_file p
   then df <- lift_outcome (pd_DataFrame sess) ;;
        rate <- get_device_state "sampling_rate" sampling_rate ;;
        let path := ("data/bitalino/" ++ file_name_prefix p ++ "_AQ_FS_" ++
                     str_of_Z rate ++ "_TS_" ++ stamp ++ ".csv")%string in
        call (file_write path (to_csv df false)) ;;
        emit (ToCsv path (to_csv df false))
   else ret tt) ;;
  ret (stamp, sess).

(** Lines 287-314: what follows the [try] statement. *)
Definition finish (p : Params) : M State (string * Session) :=
  teardown p ;;
  save_session p.

(** Line 283: the arguments of the restart; the parameters that are not
    passed take the defaults of the signature. *)
Definition retry_params (p : Params) : Params :=
  {| runtime := runtime p;
     channels := channels default_params;
     samplingRate := samplingRate p;
     nSamples := nSamples p;
     show_live_plot := show_live_plot p;
     macAddress := macAddress default_params;
     save_to_file := save_to_file p;
     file_name_prefix := file_name_prefix default_params;
     print_sample_log := print_sample_log default_params |}.

Definition fresh_frame (p : Params) : Frame :=
  mkFrame (channels p) None None None false.

(** [start_aquisition], with [fuel] bounding the restarts and the
    iterations of each polling loop. *)
Fixpoint start_aquisition (fuel : nat) (p : Params)
  : M State (string * Session) :=
  match fuel with
  | O => fun s => (Diverge, s)
  | S fuel' =>
      modify (set_frame (fun _ => fresh_frame p)) ;;
      c <- get_device_state "connected" connected ;;
      (if negb c then _ <- connect (macAddress p) 5 false ;; ret tt
       else ret tt) ;;
      fun s =>
        match try_body fuel' p s with
        | (Ret _, s') => finish p s'
        | (Diverge, s') => (Diverge, s')
        | (Raise e, s') =>
            if is_Exception e
            then if String.eqb (exc_str e) CONTACTING_DEVICE
                 then finish p s'
                 else if String.eqb (exc_str e) DEVICE_NOT_IDLE
                      then (force_stop_aquisition ;;
                            start_aquisition fuel' (retry_params p)) s'
                      else finish p s'
            else (* except KeyboardInterrupt *) finish p s'
        end
  end.

End Methods.

(** ** The receiver: the main loop of [liveplot.py] *)

(** [sys.stdin.readline()]: the text up to and including the first newline,
    and what stays in the stream. *)
Fixpoint readline (stdin : string) : string * string :=
  match stdin with
  | EmptyString => (EmptyString, EmptyString)
  | String c rest =>
      if Ascii.eqb c (ascii_of_nat 10) then (String c EmptyString, rest)
      else let (line, rest') := readline rest in (String c line, rest')
  end.

(** The ASCII characters [str.strip()] removes. *)
Definition is_space (c : ascii) : bool :=
  let n := nat_of_ascii c in
  ((9 <=? n) && (n <=? 13) || (28 <=? n) && (n <=? 32))%nat.

Fixpoint lstrip (s : string) : string :=
  match s with
  | EmptyString => EmptyString
  | String c s' => if is_space c then lstrip s' else s
  end.

Fixpoint rstrip (s : string) : string :=
  match s with
  | EmptyString => EmptyString
  | String c s' =>
      match rstrip s' with
      | EmptyString => if is_space c then EmptyString else String c EmptyString
      | r => String c r
      end
  end.

Definition strip (s : string) : string := rstrip (lstrip s).

(** [json.loads] on the texts the protocol carries: an array of arrays of
    numbers, with optional JSON white space between the tokens.  A number
    is a run of characters free of brackets, commas and white space, read
    by [parse].  Any other text gives [None] (for the receiver: no
    frame). *)
Inductive token : Type :=
| TLB
| TRB
| TComma
| TWs
| TNum (text : string).

Definition is_json_ws (c : ascii) : bool :=
  let n := nat_of_ascii c in
  ((n =? 32) || (n =? 9) || (n =? 10) || (n =? 13))%nat.

Definition is_delimiter (c : ascii) : bool :=
  is_space c || Ascii.eqb c "[" || Ascii.eqb c "]" || Ascii.eqb c ",".

Fixpoint lex (s : string) : list token :=
  match s with
  | EmptyString => []
  | String c s' =>
      let rest := lex s' in
      if Ascii.eqb c "[" then TLB :: rest
      else if Ascii.eqb c "]" then TRB :: rest
      else if Ascii.eqb c "," then TComma :: rest
      else if is_json_ws c then TWs :: rest
      else match rest with
           | TNum n :: rest' => TNum (String c n) :: rest'
           | _ => TNum (String c EmptyString) :: rest
           end
  end.

Definition is_TWs (t : token) : bool :=
  match t with
  | TWs => true
  | _ => false
  end.

Section Json.
Context {A : Type} (parse : string -> option A).

(** After a number of a row: [, number]* and the closing bracket. *)
Fixpoint parse_row_tail (ts : list token) : option (list A * list token) :=
  match ts with
  | TRB :: r => Some ([], r)
  | TComma :: TNum n :: r =>
      match parse n, parse_row_tail r with
      | Some x, Some (xs, r') => Some (x :: xs, r')
      | _, _ => None
      end
  | _ => None
  end.

Definition parse_row (ts : list token) : option (list A * list token) :=
  match ts with
  | TLB :: TRB :: r => Some ([], r)
  | TLB :: TNum n :: r =>
      match parse n, parse_row_tail r with
      | Some x, Some (xs, r') => Some (x :: xs, r')
      | _, _ => None
      end
  | _ => None
  end.

(** After a row of the matrix: [, row]* and the closing bracket. *)
Fixpoint parse_rows_tail (fuel : nat) (ts : list token)
  : option (list (list A) * list token) :=
  match fuel with
  | O => None
  | S fuel' =>
      match ts with
      | TRB :: r => Some ([], r)
      | TComma :: r =>
          match parse_row r with
          | Some (row, r') =>
              match parse_rows_tail fuel' r' with
              | Some (rows, r'') => Some (row :: rows, r'')
              | None => None
              end
          | None => None
          end
      | _ => None
      end
  end.

Definition parse_matrix (ts : list token) : option (list (list A)) :=
  match ts with
  | TLB :: TRB :: [] => Some []
  | TLB :: r =>
      match parse_row r with
      | Some (row, r') =>
          match parse_rows_tail (List.length r') r' with
          | Some (rows, []) => Some (row :: rows)
          | _ => None
          end
      | None => None
      end
  | _ => None
  end.

Definition json_loads (s : string) : option (list (list A)) :=
  parse_matrix (filter (fun t => negb (is_TWs t)) (lex s)).

(** One turn of the loop of [liveplot.py] up to the call of [update_plot]:
    the array handed to it, and the rest of the stream. *)
Definition receive (stdin : string) : option (list (list A)) * string :=
  let (line, rest) := readline stdin in
  let arr_json := strip line in
  (json_loads arr_json, rest).

(** The loop: the arrays handed to [update_plot], one per line, until a
    line does not decode ([json.loads] raises and the process ends) or
    [update_plot] raises ([redraws] is false). *)
Fixpoint liveplot_main (redraws : list (list A) -> bool) (fuel : nat)
  (stdin : string) : list (list (list A)) :=
  match fuel with
  | O => []
  | S fuel' =>
      match receive stdin with
      | (Some arr, rest) =>
          if redraws arr then arr :: liveplot_main redraws fuel' rest
          else [arr]
      | (None, _) => []
      end
  end.

End Json.

(** Reading an integer literal, as [json.loads] does. *)
Definition parse_int (s : string) : option Z :=
  match NilZero.int_of_string s with
  | Some d => Some (Z.of_int d)
  | None => None
  end.

(** ** A scripted world, to run the model

    The device answers the successive [read] calls from a script and raises
    [KeyboardInterrupt] when the script is over (the user ends the
    session); [BITalino(...)] fails when [opens] says so; the clock
    advances by one second per reading of it; every other call returns. *)
Record Script : Type := mkScript {
  opens : option string;
  reads : list (Outcome IntMatrix);
  now : Z
}.

Definition script_read (w : Script) : Outcome IntMatrix * Script :=
  match reads w with
  | [] => (Raise (mkExc KeyboardInterrupt ""), w)
  | r :: rs => (r, mkScript (opens w) rs (now w))
  end.

(** A stand-in for [float.__repr__]: sign, mantissa and binary exponent. *)
Definition script_float_repr (f : float) : string :=
  match Prim2SF f with
  | S754_zero s => if s then "-0.0" else "0.0"
  | S754_infinity s => if s then "-Infinity" else "Infinity"
  | S754_nan => "NaN"
  | S754_finite s m e =>
      (if s then "-" else "") ++ str_of_Z (Zpos m) ++ "p" ++ str_of_Z e
  end.

#[export] Instance script_env : Env Script := {
  BITalino := fun _ _ w =>
    match opens w with
    | Some msg => (Raise (mkExc Exception msg), w)
    | None => (Ret tt, w)
    end;
  device_version := fun w => (Ret "BITalino_v5.2", w);
  device_state_call := fun w => (Ret [], w);
  device_start := fun _ _ w => (Ret tt, w);
  device_read := fun _ w => script_read w;
  device_stop := fun w => (Ret tt, w);
  device_close := fun w => (Ret tt, w);
  time_time := fun w =>
    (Ret (float_of_Z (now w)), mkScript (opens w) (reads w) (now w + 1));
  time_sleep := fun _ w => (Ret tt, w);
  time_strftime := fun _ => "01-01-2024-000000";
  subprocess_Popen := fun _ w => (Ret tt, w);
  stdin_write := fun _ w => (Ret tt, w);
  p_poll_is_None := fun w => (Ret true, w);
  p_send_signal := fun w => (Ret tt, w);
  file_write := fun _ _ w => (Ret tt, w);
  float_repr := script_float_repr;
  CONTACTING_DEVICE := "The computer lost communication with the device.";
  DEVICE_NOT_IDLE := "The device is not idle."
}.

Definition initial_state (w : Script) : State :=
  mkState initial_manager (mkFrame [] None None None false) [] w.

(** A batch of [read]: the sequence number, four digital columns, then one
    column per selected channel. *)
Definition batch (rows : list (list Z)) : IntMatrix :=
  mkIntMatrix (match rows with [] => 0%nat | r :: _ => List.length r end) rows.

(** ** Notions used in the statements *)

(** All arrays of a session have one length. *)
Definition aligned (d : Session) : Prop :=
  forall a b, In a (dict_values d) -> In b (dict_values d) ->
              np_len a = np_len b.

(** The number of samples stored under a label (none when it is absent). *)
Definition len_of (d : Session) (k : string) : nat :=
  match dict_get k d with
  | Some a => np_len a
  | None => O
  end.

(** What holds of the session dictionary between two iterations, [chs]
    being the channels of the call: its keys are sensor labels of [chs],
    and every label of [chs] has the same number of samples so far. *)
Definition session_inv (chs : dict string) (d : Session) : Prop :=
  NoDup (dict_keys d) /\
  incl (dict_keys d) (dict_values chs) /\
  exists L, forall k, In k (dict_values chs) -> len_of d k = L.

(** The indices [_ACQ_CHANNELS] gives to a list of channel names. *)
Definition channel_indices (chs : list string) : list Z :=
  flat_map (fun c => match dict_get c _ACQ_CHANNELS with
                     | Some idx => [idx]
                     | None => []
                     end) chs.

(** The lines written to the plot process, in a trace. *)
Definition stdin_writes (tr : list Event) : list string :=
  flat_map (fun ev => match ev with
                      | StdinWrite line => [line]
                      | _ => []
                      end) tr.

(** The CSV files written, in a trace. *)
Definition csv_files (tr : list Event) : list CsvFile :=
  flat_map (fun ev => match ev with
                      | ToCsv _ file => [file]
                      | _ => []
                      end) tr.

(** A state with another list of selected channels. *)
Definition with_selected_channels {W} (l : list Z) (s : @State W) : State :=
  set_mgr (set_device_state
             (fun d => mkDeviceState (MAC d) l (sampling_rate d) (connected d)))
          s.

(** A state with another sampling rate. *)
Definition with_sampling_rate {W} (r : Z) (s : @State W) : State :=
  set_mgr (set_device_state
             (fun d => mkDeviceState (MAC d) (selected_channels d) r
                         (connected d)))
          s.

(** The state [connect] leaves when it fails: one more failure counted,
    not connected. *)
Definition connection_failed {W} (s : @State W) : State :=
  set_mgr (fun m =>
             mkManager (device m)
               (mkDeviceState (MAC (device_state m))
                  (selected_channels (device_state m))
                  (sampling_rate (device_state m)) false)
               (connection_failed_counter m + 1) (collected_data m))
          s.

(** The state after a successful [connect] to [a]. *)
Definition connected_to {W} (a : string) (s : @State W) (w : W) : @State W :=
  mkState
    (mkManager true
       (mkDeviceState a (selected_channels (device_state (mgr s)))
          (sampling_rate (device_state (mgr s))) true)
       0 (collected_data (mgr s)))
    (frame s) (trace s) w.

(** The value [convert] gives to [_sensor_data]: the ECG transfer function
    of the column when the sensor is ['ECG'], the raw column otherwise,
    ['EDA'] included. *)
Definition converted (sensor : string) (raw : ndarray) : ndarray :=
  if String.eqb sensor "ECG" then _raw_to_ecg_mv raw else raw.

(** A computation relates every state it starts in (under [P]) to the
    state it ends in, however it ends. *)
Definition stable {W A} (P : @State W -> Prop)
  (R : @State W -> @State W -> Prop) (m : M (@State W) A) : Prop :=
  forall s r s', P s -> m s = (r, s') -> R s s'.

(** The locals of the activation are the same. *)
Definition same_frame {W} (s s' : @State W) : Prop := frame s' = frame s.



(** [s'] has the trace of [s] and more, every event in between satisfying
    [ok]. *)
Definition trace_ext {W} (ok : Event -> Prop) (s s' : @State W) : Prop :=
  exists evs, trace s' = trace s ++ evs /\ Forall ok evs.

(** The same, the stored sampling rate being unchanged. *)
Definition rate_kept {W} (ok : Event -> Prop) (s s' : @State W) : Prop :=
  sampling_rate (device_state (mgr s')) = sampling_rate (device_state (mgr s))
  /\ trace_ext ok s s'.

(** The stored sampling rate is [rate], one of the four. *)
Definition rate_is {W} (rate : Z) (s : @State W) : Prop :=
  sampling_rate (device_state (mgr s)) = rate /\ In rate [1; 10; 100; 1000].

(** A line of the protocol: the JSON text of a matrix with at most
    [60 * rate] values per row, and a newline. *)
Definition frame_ok {W} {E : Env W} (rate : Z) (ev : Event) : Prop :=
  match ev with
  | StdinWrite line =>
      exists tmp : list (list pynum),
        line = frame_line num_repr tmp /\
        Forall (fun row => Z.of_nat (List.length row) <= 60 * rate) tmp
  | _ => True
  end.

(** All characters of a string satisfy [f]. *)
Fixpoint all_chars (f : ascii -> bool) (s : string) : bool :=
  match s with
  | EmptyString => true
  | String c s' => f c && all_chars f s'
  end.

(** The text of a number: not empty, and free of brackets, commas and
    white space. *)
Definition clean (s : string) : Prop :=
  s <> EmptyString /\ all_chars (fun c => negb (is_delimiter c)) s = true.

(** [join ", "] after the first item. *)
Fixpoint prefixed (l : list string) : string :=
  match l with
  | [] => EmptyString
  | x :: l' => ", " ++ x ++ prefixed l'
  end.

(** The tokens of a row after its first number, and of a row. *)
Fixpoint row_tail_tokens (l : list string) (rest : list token) : list token :=
  match l with
  | [] => TRB :: rest
  | x :: l' => TComma :: TNum x :: row_tail_tokens l' rest
  end.

Definition row_tokens (l : list string) (rest : list token) : list token :=
  match l with
  | [] => TLB :: TRB :: rest
  | x :: l' => TLB :: TNum x :: row_tail_tokens l' rest
  end.

Fixpoint rows_tail_tokens (m : list (list string)) (rest : list token)
  : list token :=
  match m with
  | [] => TRB :: rest
  | row :: m' => TComma :: row_tokens row (rows_tail_tokens m' rest)
  end.

Definition tokens_of (s : string) : list token :=
  filter (fun t => negb (is_TWs t)) (lex s).

Definition starts_number (s : string) : bool :=
  match lex s with
  | TNum _ :: _ => true
  | _ => false
  end.

(** What the round trip asks of the text of a number: [parse] reads it
    back, and it is a clean token. *)
Definition reads_back {A} (repr : A -> string) (parse : string -> option A)
  (x : A) : Prop :=
  parse (repr x) = Some x /\ clean (repr x).

(** Any character but the newline. *)
Definition not_newline (c : ascii) : bool :=
  negb (Ascii.eqb c (ascii_of_nat 10)).

(** A number as [json.loads] reads it: an integer literal gives an int,
    any other token is read as a float by [parse_float]. *)
Definition parse_pynum (parse_float : string -> option float) (s : string)
  : option pynum :=
  match parse_int s with
  | Some z => Some (PyInt z)
  | None => option_map PyFloat (parse_float s)
  end.

(** The labels of a list, each once, in the order of first appearance:
    the order in which a dict gets its keys. *)
Fixpoint distinct_from (seen l : list string) : list string :=
  match l with
  | [] => []
  | x :: l' =>
      if existsb (String.eqb x) seen then distinct_from seen l'
      else x :: distinct_from (seen ++ [x]) l'
  end.

Definition distinct (l : list string) : list string := distinct_from [] l.

(** No CSV file is among the events. *)
Definition no_csv (ev : Event) : Prop :=
  match ev with
  | ToCsv _ _ => False
  | _ => True
  end.

(** The locals are kept and no CSV file is written. *)
Definition locals_kept {W} (s s' : @State W) : Prop :=
  frame s' = frame s /\ trace_ext no_csv s s'.

(** A connected manager at the start of the polling loop. *)
Definition at_loop_start (chs : dict string) (w : Script) : @State Script :=
  mkState
    (mkManager true (mkDeviceState "00:21:08:35:14:75" [0; 1; 2] 100 true) 0 [])
    (mkFrame chs (Some 0%float) (Some "01-01-2024-000000") (Some []) false)
    [] w.

(** The channels with every unrecognised sensor type replaced by
    ['RAW']. *)
Definition normalised (chs : dict string) : dict string :=
  map (fun '(ch, sensor) =>
         (ch, if existsb (String.eqb sensor) _SENSOR_TYPES
              then sensor else "RAW")) chs.

(** A state with another value of the local [channels]. *)
Definition with_channels {W} (chs : dict string) (s : @State W) : State :=
  set_frame (fun f =>
    mkFrame chs (l_start f) (sesssion_time_stamp f)
      (collected_data_in_this_session f) (l_p f)) s.

(** No condition on the state. *)
Definition any_state {W} (s : @State W) : Prop := True.

(** ** More of the code: the start of [liveplot.py] and [update_plot] *)

(** Lines 12-26 of [liveplot.py]: the arguments of the script, [argv] being
    [sys.argv].  The sampling frequency is read by [int], here on a decimal
    literal as [str] writes one; the labels follow, one subplot each. *)
Definition liveplot_init (argv : list string) : Outcome (Z * list string) :=
  if (2 <? List.length argv)%nat
  then match tl argv with
       | a0 :: labels =>
           match parse_int a0 with
           | Some fs => Ret (fs, labels)
           | None =>
               Raise (mkExc ValueError
                        ("invalid literal for int() with base 10: '" ++ a0 ++
                         "'"))
           end
       | [] => Raise (mkExc IndexError "list index out of range")
       end
  else Raise (mkExc Exception
                "Missing arguments : sampling frequency, label1, label2, ...").

(** [sys.argv] of the child started with the arguments [args] of
    [Popen]: the interpreter's name is not part of it. *)
Definition child_argv (args : list string) : list string := tl args.

(** [np.arange(a, b)] on ints. *)
Definition arange (a b : Z) : list Z :=
  map (fun k => a + Z.of_nat k) (seq 0 (Z.to_nat (b - a))).

(** Lines 38-44 of [update_plot]: the window drawn, from the nested list
    [data] that [json.loads] gave.  [np.array] refuses rows of different
    lengths; of the empty list it makes the one-dimensional empty array,
    which cannot be indexed by column. *)
Definition plot_window {A} (fs : Z) (data : list (list A))
  : Outcome (list Z * list (list A)) :=
  let nb_datapoints := 10 * fs in
  match data with
  | [] =>
      Raise (mkExc IndexError
               "too many indices for array: array is 1-dimensional, but 2 were indexed")
  | row :: rest =>
      if forallb (fun r => (List.length r =? List.length row)%nat) rest
      then
        let ys := map (slice_from (- nb_datapoints)) data in
        let shape1 := Z.of_nat (List.length row) in
        let xs := arange (Z.max 0 (shape1 - nb_datapoints)) shape1 in
        Ret (xs, ys)
      else Raise (mkExc ValueError
                    "setting an array element with a sequence. The requested array has an inhomogeneous shape")
  end.

(** ** More notions used in the statements *)

(** What [store] leaves under a label: the batch appended to the samples
    already there, or the batch alone. *)
Definition stored (old : option ndarray) (data : ndarray) : ndarray :=
  match old with
  | Some a => if (0 <? np_len a)%nat then np_append a data else data
  | None => data
  end.

(** One sample through the transfer functions. *)
Definition eda_of (z : Z) : float :=
  PrimFloat.div (PrimFloat.mul (float_of_Z z) 3.3%float)
    (PrimFloat.mul 0.132%float (float_of_Z (2 ^ 10))).

Definition ecg_of (z : Z) : float :=
  PrimFloat.mul
    (PrimFloat.mul (PrimFloat.sub (PrimFloat.div (float_of_Z z)
                                     (float_of_Z (2 ^ 10)))
                      0.5%float)
       (PrimFloat.div 3.3%float (float_of_Z 1100)))
    (float_of_Z 1000).

(** The values of a 10-bit converter. *)
Definition adc_values : list Z := map Z.of_nat (seq 0 1024).

(** The events the flags of a call allow: a CSV file with [save], anything
    about the plot process with [plot]. *)
Definition allowed (plot save : bool) (ev : Event) : Prop :=
  match ev with
  | ToCsv _ _ => save = true
  | _ => plot = true
  end.

(** The sensor type is one of [_SENSOR_TYPES]. *)
Definition valid_sensor (sensor : string) : bool :=
  existsb (String.eqb sensor) _SENSOR_TYPES.

(** The SDK calls of [connect], in order, fail at one of them with [e];
    [opened] tells whether the constructor had returned. *)
Definition sdk_fails {W} {E : Env W} (a : string) (timeout : Z)
  (print_state : bool) (w0 : W) (e : PyExc) (w : W) (opened : bool) : Prop :=
  (BITalino a timeout w0 = (Raise e, w) /\ opened = false) \/
  (exists w1, BITalino a timeout w0 = (Ret tt, w1) /\
              device_version w1 = (Raise e, w) /\ opened = true) \/
  (exists w1 v w2, BITalino a timeout w0 = (Ret tt, w1) /\
                   device_version w1 = (Ret v, w2) /\
                   print_state = true /\
                   device_state_call w2 = (Raise e, w) /\ opened = true).

(** A world in which the user interrupts the program while the SDK opens
    the device; every other call returns. *)
Definition interrupted_env : Env unit := {|
  BITalino := fun _ _ w => (Raise (mkExc KeyboardInterrupt ""), w);
  device_version := fun w => (Ret "BITalino_v5.2", w);
  device_state_call := fun w => (Ret [], w);
  device_start := fun _ _ w => (Ret tt, w);
  device_read := fun _ w => (Raise (mkExc KeyboardInterrupt ""), w);
  device_stop := fun w => (Ret tt, w);
  device_close := fun w => (Ret tt, w);
  time_time := fun w => (Ret 0%float, w);
  time_sleep := fun _ w => (Ret tt, w);
  time_strftime := fun _ => "01-01-2024-000000";
  subprocess_Popen := fun _ w => (Ret tt, w);
  stdin_write := fun _ w => (Ret tt, w);
  p_poll_is_None := fun w => (Ret true, w);
  p_send_signal := fun w => (Ret tt, w);
  file_write := fun _ _ w => (Ret tt, w);
  float_repr := script_float_repr;
  CONTACTING_DEVICE := "The computer lost communication with the device.";
  DEVICE_NOT_IDLE := "The device is not idle."
|}.

(** The message of the exception [_select_channels] raises for [c]. *)
Definition invalid_channel_msg (c : string) : string :=
  "[Invalid channel] : " ++ c ++
  ". Select from accepted channel values : A1, A2, A3, A4, A5, A6".

(** The parameters ask for a sampling rate outside {1, 10, 100, 1000} or,
    the rate being one of them, for a channel outside A1..A6; [msg] is the
    text of the exception the selection then raises. *)
Definition bad_request (p : Params) (msg : string) : Prop :=
  (~ In (samplingRate p) [1; 10; 100; 1000] /\
   msg = "'dict' object has no attribute 'sampling_rate'") \/
  (In (samplingRate p) [1; 10; 100; 1000] /\
   exists pre c post,
     dict_keys (channels p) = pre ++ c :: post /\
     Forall (fun k => In k ["A1"; "A2"; "A3"; "A4"; "A5"; "A6"]) pre /\
     ~ In c ["A1"; "A2"; "A3"; "A4"; "A5"; "A6"] /\
     msg = invalid_channel_msg c).

(** The exception of a read of a local variable that is not bound. *)
Definition unbound_local (name : string) : PyExc :=
  mkExc UnboundLocalError
    ("cannot access local variable '" ++ name ++
     "' where it is not associated with a value").

(** From the world [w], the calls of the end of [start_aquisition] without
    a plot ([time.sleep], [device.stop], [device.close]) return. *)
Definition teardown_returns {W} {E : Env W} (w : W) : Prop :=
  exists w1 w2 w3,
    time_sleep 1 w = (Ret tt, w1) /\
    device_stop w1 = (Ret tt, w2) /\
    device_close w2 = (Ret tt, w3).

(** A frame of integer samples, as [tolist] gives it for channels that are
    stored raw. *)
Definition raw_frame (m : list (list Z)) : list (list pynum) :=
  map (map PyInt) m.

(** What the plot process finds on its standard input after the frames
    [fs] were written, one line each. *)
Definition stream {A} (repr : A -> string) (fs : list (list (list A)))
  : string :=
  fold_right (fun f acc => frame_line repr f ++ acc)%string "" fs.

(** [R] holds between every element of a list and every later one. *)
Fixpoint pairwise {A} (R : A -> A -> bool) (l : list A) : bool :=
  match l with
  | [] => true
  | x :: l' => forallb (R x) l' && pairwise R l'
  end.

(** Over the values of the 10-bit converter, in order, the results of [g]
    are at least [lo], below [hi], and strictly increasing. *)
Definition increasing_on_adc (g : Z -> float) (lo hi : float) : bool :=
  let ys := map g adc_values in
  forallb (fun y => PrimFloat.leb lo y && PrimFloat.ltb y hi) ys &&
  pairwise PrimFloat.ltb ys.

(** A line written to the plot process is a frame of at most [n] rows. *)
Definition rows_at_most {W} {E : Env W} (n : nat) (ev : Event) : Prop :=
  match ev with
  | StdinWrite line =>
      exists tmp : list (list pynum),
        line = frame_line num_repr tmp /\ (List.length tmp <= n)%nat
  | _ => True
  end.

(** The local [channels] is [chs], and the keys of the session, once it is
    bound, are distinct and are sensor labels of [chs]. *)
Definition session_within {W} (chs : dict string) (s : @State W) : Prop :=
  l_channels (frame s) = chs /\
  forall d, collected_data_in_this_session (frame s) = Some d ->
            NoDup (dict_keys d) /\ incl (dict_keys d) (dict_values chs).

(** This is kept, and the lines written in between are frames with at most
    one row per channel. *)
Definition within_kept {W} {E : Env W} (chs : dict string)
  (s s' : @State W) : Prop :=
  (session_within chs s -> session_within chs s') /\
  trace_ext (rows_at_most (List.length (dict_values chs))) s s'.

(** * Properties *)

(** ** Dictionaries *)

Lemma dict_get_In {V} (k : string) (d : dict V) :
  In k (dict_keys d) <-> exists v, dict_get k d = Some v.
Proof.
  induction d as [|[k' v'] d IH]; simpl.
  - split; [tauto | intros [v H]; discriminate].
  - destruct (String.eqb_spec k k') as [->|Hne].
    + split; [eauto | auto].
    + rewrite <- IH. split; [intros [H|H]; [congruence|auto] | auto].
Qed.

Lemma dict_get_None {V} (k : string) (d : dict V) :
  ~ In k (dict_keys d) <-> dict_get k d = None.
Proof.
  rewrite dict_get_In. destruct (dict_get k d) as [v|].
  - split; [intros H; exfalso; eauto | discriminate].
  - split; [auto | intros _ [v H]; discriminate].
Qed.

(** ** The transfer functions (C7) *)



(** Both work sample by sample: the output has one value per input value. *)
Lemma transfer_functions_length (raw : ndarray) :
  np_len (_raw_to_eda_uS raw) = np_len raw /\
  np_len (_raw_to_ecg_mv raw) = np_len raw.
Proof.
  unfold _raw_to_eda_uS, _raw_to_ecg_mv; simpl.
  destruct raw; simpl; repeat rewrite length_map; auto.
Qed.

Section MethodProperties.
Context {W : Type} {E : Env W}.

(** ** Sampling rate (C9) *)

(** The two cases of [_select_sampling_rate]. *)
Lemma select_sampling_rate_cases (rate : Z) (s : @State W) :
  (In rate [1; 10; 100; 1000] ->
   _select_sampling_rate rate s = (Ret tt, with_sampling_rate rate s)) /\
  (~ In rate [1; 10; 100; 1000] ->
   _select_sampling_rate rate s =
   (Raise (mkExc AttributeError
             "'dict' object has no attribute 'sampling_rate'"), s)).
Proof.
  unfold _select_sampling_rate.
  destruct (existsb (Z.eqb rate) _SAMPLING_RATES) eqn:Hex.
  - split; [reflexivity|].
    intros Hn. exfalso. apply Hn.
    apply existsb_exists in Hex as [x [Hin Hx]].
    apply Z.eqb_eq in Hx. subst x. exact Hin.
  - split; [|reflexivity].
    intros Hin. exfalso.
    assert (existsb (Z.eqb rate) _SAMPLING_RATES = true) as Ht.
    { apply existsb_exists. exists rate. split; [exact Hin | apply Z.eqb_refl]. }
    congruence.
Qed.

(** C9: with a rate in {1, 10, 100, 1000}, [_select_sampling_rate] stores
    that rate; with any other rate it raises [AttributeError] (the fallback
    reads an attribute of the plain dict [DEFAULT_DEVICE_STATE]) and the
    stored rate is left as it was: the default is never selected. *)
Theorem select_sampling_rate_spec (rate : Z) (s : @State W) :
  (In rate [1; 10; 100; 1000] ->
   _select_sampling_rate rate s = (Ret tt, with_sampling_rate rate s)) /\
  (~ In rate [1; 10; 100; 1000] ->
   _select_sampling_rate rate s =
   (Raise (mkExc AttributeError
             "'dict' object has no attribute 'sampling_rate'"), s)).
Proof.
  unfold _select_sampling_rate.
  destruct (existsb (Z.eqb rate) _SAMPLING_RATES) eqn:Hex; split;
    try reflexivity.
  - intros Hn. exfalso. apply Hn.
    apply existsb_exists in Hex as [x [Hin Hx]].
    apply Z.eqb_eq in Hx. now subst x.
  - intros Hin. exfalso.
    apply Bool.not_true_iff_false in Hex. apply Hex.
    apply existsb_exists. exists rate. split; [exact Hin | apply Z.eqb_refl].
Qed.

(** When [_select_sampling_rate] returns, the stored rate is the requested
    one and is one of the four. *)
Lemma select_sampling_rate_returns (rate : Z) (s s' : @State W) :
  _select_sampling_rate rate s = (Ret tt, s') ->
  In rate _SAMPLING_RATES /\ s' = with_sampling_rate rate s.
Proof.
  destruct (in_dec Z.eq_dec rate [1; 10; 100; 1000]) as [Hin|Hn].
  - rewrite (proj1 (select_sampling_rate_cases rate s) Hin).
    intros H; inversion H; auto.
  - rewrite (proj2 (select_sampling_rate_cases rate s) Hn). discriminate.
Qed.

(** ** Channel selection (C8) *)

Lemma select_channels_loop (pre post : list string) (c : string)
  (acc : list Z) (s : @State W) :
  Forall (fun k => In k (dict_keys _ACQ_CHANNELS)) pre ->
  ~ In c (dict_keys _ACQ_CHANNELS) ->
  for_each (pre ++ c :: post) (fun c =>
    match dict_get c _ACQ_CHANNELS with
    | Some idx =>
        put_device_state
          (fun d => mkDeviceState (MAC d) (selected_channels d ++ [idx])
                      (sampling_rate d) (connected d))
    | None =>
        raise (mkExc Exception
                 ("[Invalid channel] : " ++ c ++
                  ". Select from accepted channel values : A1, A2, A3, A4, A5, A6"))
    end) (with_selected_channels acc s) =
  (Raise (mkExc Exception
            ("[Invalid channel] : " ++ c ++
             ". Select from accepted channel values : A1, A2, A3, A4, A5, A6")),
   with_selected_channels (acc ++ channel_indices pre) s).
Proof.
  intros Hpre Hc. revert acc.
  induction Hpre as [|k pre Hk Hpre IH]; intros acc.
  - cbn [app for_each]. apply dict_get_None in Hc.
    unfold bind. rewrite Hc. cbn. rewrite app_nil_r. reflexivity.
  - cbn [app for_each]. apply dict_get_In in Hk as [idx Hidx].
    unfold bind at 1. rewrite Hidx.
    change (put_device_state _ (with_selected_channels acc s))
      with (Ret tt, with_selected_channels (acc ++ [idx]) s).
    cbv beta iota. rewrite IH. unfold channel_indices. cbn [flat_map].
    rewrite Hidx. rewrite <- app_assoc. reflexivity.
Qed.

(** C8: when the list holds a name outside A1..A6, [_select_channels]
    raises, and the stored selection is not the one before the call: it
    holds the indices of the valid names that come before the first
    invalid one. *)
Theorem select_channels_invalid (pre post : list string) (c : string)
  (s : @State W) :
  Forall (fun k => In k ["A1"; "A2"; "A3"; "A4"; "A5"; "A6"]) pre ->
  ~ In c ["A1"; "A2"; "A3"; "A4"; "A5"; "A6"] ->
  _select_channels (pre ++ c :: post) s =
  (Raise (mkExc Exception
            ("[Invalid channel] : " ++ c ++
             ". Select from accepted channel values : A1, A2, A3, A4, A5, A6")),
   with_selected_channels (channel_indices pre) s).
Proof.
  intros Hpre Hc. unfold _select_channels.
  unfold bind at 1.
  change (put_device_state _ s) with (Ret tt, with_selected_channels [] s).
  cbv beta iota.
  exact (select_channels_loop pre post c [] s Hpre Hc).
Qed.

(** ** Connection (C5) *)

(** C5, at the default address: [connect(macAddress=None)] reads
    [DEFAULT_DEVICE_STATE.MAC], an attribute of a plain dict; no SDK call is
    made, none raises, and yet [connect] raises [[Connection Error]],
    counts a failure and leaves [connected] false. *)
Theorem connect_default_address_fails (timeout : Z) (print_state : bool)
  (s : @State W) :
  connect None timeout print_state s =
  (Raise (mkExc Exception
            "[Connection Error] : 'dict' object has no attribute 'MAC'"),
   connection_failed s).
Proof. reflexivity. Qed.

(** When the SDK's constructor raises, [connect] raises the same message
    behind the tag, counts a failure and leaves [connected] false. *)
Lemma connect_open_raises (a : string) (timeout : Z) (print_state : bool)
  (s : @State W) (e : PyExc) (w : W) :
  BITalino a timeout (world s) = (Raise e, w) ->
  is_Exception e = true ->
  connect (Some a) timeout print_state s =
  (Raise (mkExc Exception ("[Connection Error] : " ++ exc_str e)),
   connection_failed (mkState (mgr s) (frame s) (trace s) w)).
Proof.
  intros Hopen Hexc. unfold connect, try_except, bind at 1.
  unfold bind at 1. unfold bind at 1. unfold ret at 1. unfold bind at 1.
  unfold call at 1. rewrite Hopen. rewrite Hexc. reflexivity.
Qed.

(** When [version] raises after the constructor returned, the same holds
    (the device handle stays assigned). *)
Lemma connect_version_raises (a : string) (timeout : Z) (s : @State W)
  (e : PyExc) (w w' : W) :
  BITalino a timeout (world s) = (Ret tt, w) ->
  device_version w = (Raise e, w') ->
  is_Exception e = true ->
  connect (Some a) timeout false s =
  (Raise (mkExc Exception ("[Connection Error] : " ++ exc_str e)),
   connection_failed
     (mkState (mkManager true (device_state (mgr s))
                 (connection_failed_counter (mgr s)) (collected_data (mgr s)))
        (frame s) (trace s) w')).
Proof.
  intros Hopen Hver Hexc. unfold connect, try_except, bind, call, ret,
    modify, get_device, get, raise; simpl.
  rewrite Hopen; simpl. rewrite Hver; simpl. rewrite Hexc. reflexivity.
Qed.

(** With an address, and an SDK whose calls return, [connect] returns
    [True], the counter is zero and [connected] is true. *)
Lemma connect_returns (a : string) (timeout : Z) (s : @State W)
  (v : string) (w w' : W) :
  BITalino a timeout (world s) = (Ret tt, w) ->
  device_version w = (Ret v, w') ->
  connect (Some a) timeout false s = (Ret true, connected_to a s w').
Proof.
  intros Hopen Hver. unfold connect, try_except, bind, call, ret,
    modify, get_device, get, raise; simpl.
  rewrite Hopen; simpl. rewrite Hver; simpl. reflexivity.
Qed.

End MethodProperties.

(** ** Conversion and storage of one batch (C1, C3) *)

Lemma dict_get_set_same {V} (k : string) (v : V) (d : dict V) :
  dict_get k (dict_set k v d) = Some v.
Proof.
  induction d as [|[k' v'] d IH]; simpl.
  - now rewrite String.eqb_refl.
  - destruct (String.eqb_spec k k') as [->|Hne]; simpl.
    + now rewrite String.eqb_refl.
    + destruct (String.eqb_spec k k'); [contradiction | exact IH].
Qed.

Lemma dict_get_set_other {V} (k k' : string) (v : V) (d : dict V) :
  k' <> k -> dict_get k' (dict_set k v d) = dict_get k' d.
Proof.
  intros Hne. induction d as [|[k0 v0] d IH]; simpl.
  - destruct (String.eqb_spec k' k); [contradiction | reflexivity].
  - destruct (String.eqb_spec k k0) as [->|Hk]; simpl.
    + destruct (String.eqb_spec k' k0); [contradiction | reflexivity].
    + destruct (String.eqb_spec k' k0); [reflexivity | exact IH].
Qed.

Lemma dict_keys_set {V} (k : string) (v : V) (d : dict V) :
  dict_keys (dict_set k v d) =
  match dict_get k d with
  | Some _ => dict_keys d
  | None => dict_keys d ++ [k]
  end.
Proof.
  induction d as [|[k' v'] d IH]; simpl; [reflexivity|].
  destruct (String.eqb_spec k k') as [->|Hne]; simpl; [reflexivity|].
  rewrite IH. destruct (dict_get k d); reflexivity.
Qed.

Lemma dict_get_of_In {V} (k : string) (v : V) (d : dict V) :
  NoDup (dict_keys d) -> In (k, v) d -> dict_get k d = Some v.
Proof.
  induction d as [|[k' v'] d IH]; simpl; [tauto|].
  intros Hnd [Heq|Hin].
  - inversion Heq; subst. now rewrite String.eqb_refl.
  - inversion Hnd as [|? ? Hnotin Hnd']; subst.
    destruct (String.eqb_spec k k') as [->|Hne].
    + exfalso. apply Hnotin. apply (in_map fst) in Hin. exact Hin.
    + auto.
Qed.

Lemma np_len_append (a b : ndarray) :
  np_len (np_append a b) = (np_len a + np_len b)%nat.
Proof.
  destruct a, b; simpl; rewrite ?length_app, ?length_map; reflexivity.
Qed.

Lemma convert_spec (sensor : string) (rd : IntMatrix) (i : nat) (d : Session) :
  convert sensor rd i d =
  (match column rd (COLUMN_OFFSET + i) with
   | Ret raw => Ret (converted sensor raw)
   | Raise e => Raise e
   | Diverge => Diverge
   end, d).
Proof.
  unfold convert, converted, bind, ret, lift_outcome.
  destruct (String.eqb sensor "EDA"), (String.eqb sensor "ECG");
    destruct (column rd (COLUMN_OFFSET + i)); reflexivity.
Qed.

Lemma column_len (rd : IntMatrix) (j : nat) (a : ndarray) :
  column rd j = Ret a -> np_len a = List.length (m_rows rd).
Proof.
  unfold column. destruct (j <? n_cols rd)%nat; [|discriminate].
  intros H; inversion H; subst; simpl. apply length_map.
Qed.

Lemma converted_len (sensor : string) (raw : ndarray) :
  np_len (converted sensor raw) = np_len raw.
Proof.
  unfold converted. destruct (String.eqb sensor "ECG"); [|reflexivity].
  apply transfer_functions_length.
Qed.

(** What [store] does to the dictionary. *)
Lemma store_spec (sensor : string) (data : ndarray) (d : Session) :
  exists v,
    store sensor data d = (Ret tt, dict_set sensor v d) /\
    np_len v = (len_of d sensor + np_len data)%nat /\
    (dict_get sensor d = None -> v = data).
Proof.
  unfold store, bind, get, modify, len_of.
  destruct (dict_get sensor d) as [old|] eqn:Hget.
  - destruct (0 <? np_len old)%nat eqn:Hpos.
    + exists (np_append old data). split; [reflexivity|].
      split; [apply np_len_append | discriminate].
    + exists data. split; [reflexivity|].
      apply Nat.ltb_ge in Hpos. split; [lia | discriminate].
  - exists data. split; [reflexivity|]. split; [reflexivity | auto].
Qed.

(** The ECG half of C1: a channel configured as ['ECG'] gets the ECG
    transfer function of its raw column. *)
Lemma ecg_channel_converted (ch : string) (rd : IntMatrix) (raw : ndarray) :
  column rd COLUMN_OFFSET = Ret raw ->
  convert_and_store [(ch, "ECG")] rd [] =
  (Ret tt, [("ECG", _raw_to_ecg_mv raw)]).
Proof.
  intros Hcol. unfold convert_and_store, enumerate. cbn [List.length seq combine for_each].
  unfold bind at 1. unfold bind at 1. rewrite convert_spec.
  rewrite Nat.add_0_r, Hcol. reflexivity.
Qed.

(** What an ['EDA'] channel gets: the raw column, whatever the batch. *)
Lemma eda_channel_raw (ch : string) (rd : IntMatrix) (raw : ndarray) :
  column rd COLUMN_OFFSET = Ret raw ->
  convert_and_store [(ch, "EDA")] rd [] = (Ret tt, [("EDA", raw)]).
Proof.
  intros Hcol. unfold convert_and_store, enumerate. cbn [List.length seq combine for_each].
  unfold bind at 1. unfold bind at 1. rewrite convert_spec.
  rewrite Nat.add_0_r, Hcol. reflexivity.
Qed.

(** C1, at a batch holding the raw value 512 on channel A1 configured as
    ['EDA']: the session stores the raw 512, where the EDA transfer
    function gives 12.499999999999998 microsiemens; the whole call returns
    that session. *)
Theorem eda_channel_stores_raw_samples :
  let rd := batch [[0; 0; 0; 0; 0; 512]] in
  let p := mkParams 0 [("A1", "EDA")] 100 1 false (Some "00:21:08:35:14:75")
             false "BITALINO" false in
  convert_and_store [("A1", "EDA")] rd [] =
    (Ret tt, [("EDA", IntArr [512])]) /\
  _raw_to_eda_uS (IntArr [512]) = FloatArr [12.499999999999998%float] /\
  fst (start_aquisition 3 p (initial_state (mkScript None [Ret rd] 0))) =
    Ret ("01-01-2024-000000", [("EDA", IntArr [512])]).
Proof. vm_compute. repeat split. Qed.

Lemma len_of_set_same (k : string) (v : ndarray) (d : Session) :
  len_of (dict_set k v d) k = np_len v.
Proof. unfold len_of. now rewrite dict_get_set_same. Qed.

Lemma len_of_set_other (k k' : string) (v : ndarray) (d : Session) :
  k' <> k -> len_of (dict_set k v d) k' = len_of d k'.
Proof. intros H. unfold len_of. now rewrite dict_get_set_other. Qed.

Lemma dict_keys_set_incl {V} (k : string) (v : V) (d : dict V) :
  incl (dict_keys (dict_set k v d)) (dict_keys d ++ [k]).
Proof.
  rewrite dict_keys_set. destruct (dict_get k d).
  - apply incl_appl, incl_refl.
  - apply incl_refl.
Qed.

Lemma dict_keys_set_NoDup {V} (k : string) (v : V) (d : dict V) :
  NoDup (dict_keys d) -> NoDup (dict_keys (dict_set k v d)).
Proof.
  intros Hnd. rewrite dict_keys_set.
  destruct (dict_get k d) eqn:Hget; [exact Hnd|].
  apply dict_get_None in Hget.
  apply NoDup_app; [exact Hnd | repeat constructor; simpl; tauto |].
  intros x Hx [<-|[]]. contradiction.
Qed.

(** One step of the [for] loop of [convert_and_store], when it completes. *)
Lemma convert_store_step (i : nat) (sensor : string) (rd : IntMatrix)
  (d d1 : Session) :
  (_sensor_data <- convert sensor rd i ;; store sensor _sensor_data) d =
  (Ret tt, d1) ->
  exists v, d1 = dict_set sensor v d /\
            np_len v = (len_of d sensor + List.length (m_rows rd))%nat.
Proof.
  unfold bind at 1. rewrite convert_spec.
  destruct (column rd (COLUMN_OFFSET + i)) as [raw| |] eqn:Hcol;
    try discriminate.
  destruct (store_spec sensor (converted sensor raw) d) as [v [Hst [Hlen _]]].
  rewrite Hst. intros H; inversion H; subst.
  exists v. split; [reflexivity|].
  rewrite Hlen, converted_len. f_equal. eapply column_len; eauto.
Qed.

(** The [for] loop over channels with pairwise distinct sensor labels: each
    label of the loop gains one batch, everything else keeps its length. *)
Lemma convert_store_loop (rd : IntMatrix)
  (items : list (nat * (string * string))) :
  NoDup (map (fun x => snd (snd x)) items) ->
  forall d d',
  for_each items (fun '(i, (ch, sensor)) =>
    _sensor_data <- convert sensor rd i ;; store sensor _sensor_data) d =
  (Ret tt, d') ->
  (forall k, In k (map (fun x => snd (snd x)) items) ->
             len_of d' k = (len_of d k + List.length (m_rows rd))%nat) /\
  (forall k, ~ In k (map (fun x => snd (snd x)) items) ->
             len_of d' k = len_of d k) /\
  (NoDup (dict_keys d) -> NoDup (dict_keys d')) /\
  incl (dict_keys d') (dict_keys d ++ map (fun x => snd (snd x)) items).
Proof.
  induction items as [|[i [ch sensor]] items IH]; intros Hnd d d' Hrun.
  - cbn in Hrun. inversion Hrun; subst. simpl.
    repeat split; auto; try tauto. rewrite app_nil_r. apply incl_refl.
  - cbn [for_each] in Hrun. unfold bind at 1 in Hrun.
    destruct ((_sensor_data <- convert sensor rd i ;;
               store sensor _sensor_data) d) as [[[]| |] d1] eqn:Hstep;
      try discriminate.
    apply convert_store_step in Hstep as [v [-> Hv]].
    cbn [map snd] in Hnd |- *. inversion Hnd as [|? ? Hnotin Hnd']; subst.
    destruct (IH Hnd' _ _ Hrun) as [Hin [Hout [Hk Hincl]]].
    split; [|split; [|split]].
    + intros k [<-|Hk'].
      * rewrite (Hout _ Hnotin), len_of_set_same. exact Hv.
      * rewrite (Hin _ Hk'), len_of_set_other; [reflexivity|].
        intros ->. contradiction.
    + intros k Hk'. simpl in Hk'.
      rewrite Hout by tauto. apply len_of_set_other.
      intros ->. tauto.
    + intros Hd. apply Hk. now apply dict_keys_set_NoDup.
    + intros x Hx. apply Hincl in Hx. apply in_app_or in Hx as [Hx|Hx].
      * apply dict_keys_set_incl in Hx. apply in_app_or in Hx as [Hx|[<-|[]]].
        -- apply in_or_app; auto.
        -- apply in_or_app; right; left; reflexivity.
      * apply in_or_app; right; right; exact Hx.
Qed.

Lemma enumerate_labels_from {A} (l : list (string * A)) (k : nat) :
  map (fun x : nat * (string * A) => snd (snd x))
      (combine (seq k (List.length l)) l) = dict_values l.
Proof.
  revert k. induction l as [|x l IH]; intros k; simpl; [reflexivity|].
  now rewrite IH.
Qed.

(** The invariant gives equal lengths. *)
Lemma session_inv_aligned (chs : dict string) (d : Session) :
  session_inv chs d -> aligned d.
Proof.
  intros [Hnd [Hincl [L HL]]].
  assert (forall a, In a (dict_values d) -> np_len a = L) as Hall.
  { intros a Ha. unfold dict_values in Ha. apply in_map_iff in Ha.
    destruct Ha as [[k a'] [Heq Hin]]. simpl in Heq; subst a'.
    pose proof (dict_get_of_In k a d Hnd Hin) as Hget.
    assert (In k (dict_values chs)) as Hk.
    { apply Hincl. apply (in_map fst) in Hin. exact Hin. }
    specialize (HL k Hk). unfold len_of in HL. now rewrite Hget in HL. }
  intros a b Ha Hb. now rewrite (Hall a Ha), (Hall b Hb).
Qed.

(** The empty dictionary of the session start satisfies the invariant. *)
Lemma session_inv_empty (chs : dict string) : session_inv chs [].
Proof.
  split; [constructor|]. split; [intros x []|].
  exists O. reflexivity.
Qed.

(** One batch keeps the invariant, when the sensor labels of the channels
    are pairwise distinct. *)
Lemma convert_and_store_inv (chs : dict string) (rd : IntMatrix)
  (d d' : Session) :
  NoDup (dict_values chs) ->
  session_inv chs d ->
  convert_and_store chs rd d = (Ret tt, d') ->
  session_inv chs d'.
Proof.
  intros Hlab [Hnd [Hincl [L HL]]] Hrun.
  unfold convert_and_store, enumerate in Hrun.
  apply convert_store_loop in Hrun;
    rewrite enumerate_labels_from in *; [|exact Hlab].
  destruct Hrun as [Hin [_ [Hk Hinc]]].
  split; [auto|]. split.
  - intros x Hx. apply Hinc in Hx. apply in_app_or in Hx as [Hx|Hx]; auto.
  - exists (L + List.length (m_rows rd))%nat. intros k Hk'.
    rewrite (Hin k Hk'), (HL k Hk'). reflexivity.
Qed.

(** ** Reasoning about runs *)

Lemma bind_ret_inv {S A B} (m : M S A) (k : A -> M S B) (s s' : S) (b : B) :
  bind m k s = (Ret b, s') ->
  exists a s1, m s = (Ret a, s1) /\ k a s1 = (Ret b, s').
Proof.
  unfold bind. destruct (m s) as [[a| |] s1]; try discriminate.
  intros H. exists a, s1. auto.
Qed.

Section Stable.
Context {W : Type} {E : Env W}.
Variable P : @State W -> Prop.
Variable R : @State W -> @State W -> Prop.
Hypothesis R_refl : forall s, R s s.
Hypothesis R_trans : forall a b c, R a b -> R b c -> R a c.
Hypothesis R_keeps : forall s s', P s -> R s s' -> P s'.

Lemma stable_ret {A} (a : A) : stable P R (ret a).
Proof. intros s r s' _ H; inversion H; subst; apply R_refl. Qed.

Lemma stable_raise {A} (e : PyExc) : stable P R (@raise _ A e).
Proof. intros s r s' _ H; inversion H; subst; apply R_refl. Qed.

Lemma stable_lift {A} (o : Outcome A) : stable P R (lift_outcome o).
Proof. intros s r s' _ H; inversion H; subst; apply R_refl. Qed.

Lemma stable_get : stable P R get.
Proof. intros s r s' _ H; inversion H; subst; apply R_refl. Qed.

Lemma stable_bind {A B} (m : M State A) (k : A -> M State B) :
  stable P R m -> (forall a, stable P R (k a)) -> stable P R (bind m k).
Proof.
  intros Hm Hk s r s' HP Hrun. unfold bind in Hrun.
  destruct (m s) as [[a| |] s1] eqn:Hms.
  - eapply R_trans; [eapply Hm; eauto|].
    eapply Hk; [|exact Hrun]. eapply R_keeps; [exact HP|]. eapply Hm; eauto.
  - inversion Hrun; subst. eapply Hm; eauto.
  - inversion Hrun; subst. eapply Hm; eauto.
Qed.

Lemma stable_if {A} (b : bool) (m1 m2 : M State A) :
  stable P R m1 -> stable P R m2 -> stable P R (if b then m1 else m2).
Proof. destruct b; auto. Qed.

Lemma stable_for_each {A} (l : list A) (body : A -> M State unit) :
  (forall x, stable P R (body x)) -> stable P R (for_each l body).
Proof.
  intros Hb. induction l as [|x l IH]; simpl.
  - apply stable_ret.
  - apply stable_bind; auto.
Qed.

Lemma stable_try_except {A} (body : M State A) (handler : PyExc -> M State A) :
  stable P R body -> (forall e, stable P R (handler e)) ->
  stable P R (try_except body handler).
Proof.
  intros Hb Hh s r s' HP Hrun. unfold try_except in Hrun.
  destruct (body s) as [[a| |] s1] eqn:Hbs.
  - inversion Hrun; subst. eapply Hb; eauto.
  - destruct (is_Exception e).
    + eapply R_trans; [eapply Hb; eauto|].
      eapply Hh; [|exact Hrun]. eapply R_keeps; [exact HP|]. eapply Hb; eauto.
    + inversion Hrun; subst. eapply Hb; eauto.
  - inversion Hrun; subst. eapply Hb; eauto.
Qed.

Lemma stable_modify (f : State -> State) :
  (forall s, P s -> R s (f s)) -> stable P R (modify f).
Proof. intros Hf s r s' HP H; inversion H; subst; auto. Qed.

(** Calls into the world, when [R] does not look at the world. *)
Hypothesis R_world :
  forall s w, R s (mkState (mgr s) (frame s) (trace s) w).

Lemma stable_call {A} (op : W -> Outcome A * W) : stable P R (call op).
Proof.
  intros s r s' _ H. unfold call in H.
  destruct (op (world s)) as [r' w]. inversion H; subst. apply R_world.
Qed.

Lemma stable_get_device_state {A} (key : string) (proj : DeviceState -> A) :
  stable P R (get_device_state key proj).
Proof.
  unfold get_device_state. apply stable_bind; [apply stable_get|].
  intros s. apply stable_lift.
Qed.

Lemma stable_get_device : stable P R get_device.
Proof.
  unfold get_device. apply stable_bind; [apply stable_get|].
  intros s. destruct (device (mgr s)); [apply stable_ret | apply stable_raise].
Qed.

Lemma stable_get_local {A} (name : string) (proj : Frame -> option A) :
  stable P R (get_local name proj).
Proof.
  unfold get_local. apply stable_bind; [apply stable_get|].
  intros s. destruct (proj (frame s)); [apply stable_ret | apply stable_raise].
Qed.

Lemma stable_get_channels : stable P R get_channels.
Proof.
  unfold get_channels. apply stable_bind; [apply stable_get|].
  intros s. apply stable_ret.
Qed.

Lemma stable_timed_out (p : Params) : stable P R (timed_out p).
Proof.
  unfold timed_out. apply stable_if; [|apply stable_ret].
  apply stable_bind; [apply stable_call|]. intros t.
  apply stable_bind; [apply stable_get_local|]. intros t0. apply stable_ret.
Qed.

Lemma stable_force_stop : stable P R force_stop_aquisition.
Proof.
  unfold force_stop_aquisition.
  apply stable_bind; [apply stable_get_device|]. intros _. apply stable_call.
Qed.

End Stable.

(** ** The polling iteration (C3) *)

Section Polling.
Context {W : Type} {E : Env W}.

Lemma same_frame_refl (s : @State W) : same_frame s s.
Proof. reflexivity. Qed.

Lemma same_frame_trans (a b c : @State W) :
  same_frame a b -> same_frame b c -> same_frame a c.
Proof. unfold same_frame; congruence. Qed.

Lemma same_frame_keeps (s s' : @State W) :
  any_state s -> same_frame s s' -> any_state s'.
Proof. exact (fun _ _ => I). Qed.

Lemma same_frame_world (s : @State W) (w : W) :
  same_frame s (mkState (mgr s) (frame s) (trace s) w).
Proof. reflexivity. Qed.

Ltac frames :=
  first [ exact same_frame_refl | exact same_frame_trans
        | exact same_frame_keeps | exact same_frame_world ].

Ltac frames_bind :=
  apply (stable_bind (@any_state W) same_frame same_frame_trans same_frame_keeps).

Lemma emit_same_frame (ev : Event) : stable (@any_state W) same_frame (emit ev).
Proof. apply stable_modify. reflexivity. Qed.

Lemma send_plot_update_same_frame :
  stable (@any_state W) same_frame send_plot_update.
Proof.
  unfold send_plot_update.
  frames_bind; [apply stable_get_device_state; frames|]. intros rate.
  frames_bind; [apply stable_get_local; frames|]. intros d.
  frames_bind; [apply stable_lift; frames|]. intros tmp.
  frames_bind; [apply stable_get_local; frames|]. intros _.
  frames_bind; [apply stable_call; frames|]. intros _.
  apply emit_same_frame.
Qed.

(** What follows the storage in an iteration does not touch the locals. *)
Lemma after_store_same_frame (p : Params) :
  stable (@any_state W) same_frame
    ((if print_sample_log p
      then d <- get_session ;;
           _ <- lift_outcome (np_array (dict_values d)) ;;
           ret tt
      else ret tt) ;;
     (if show_live_plot p then send_plot_update else ret tt) ;;
     timed_out p).
Proof.
  frames_bind.
  - apply stable_if; [|apply stable_ret; frames].
    frames_bind; [apply stable_get_local; frames|]. intros d.
    frames_bind; [apply stable_lift; frames|]. intros _.
    apply stable_ret; frames.
  - intros _. frames_bind.
    + apply stable_if; [apply send_plot_update_same_frame|].
      apply stable_ret; frames.
    + intros _. apply stable_timed_out; frames.
Qed.

Lemma on_session_ret {A} (m : M Session A) (s s' : @State W) (a : A) :
  on_session m s = (Ret a, s') ->
  exists d d', collected_data_in_this_session (frame s) = Some d /\
               m d = (Ret a, d') /\
               s' = set_frame (set_session d') s.
Proof.
  unfold on_session, get_session, get_local, bind, get, ret, raise.
  destruct (collected_data_in_this_session (frame s)) as [d|]; [|discriminate].
  destruct (m d) as [r d'] eqn:Hm. intros H; inversion H; subst.
  exists d, d'. auto.
Qed.

(** An iteration that completes runs [convert_and_store] on the session
    dictionary, with the channels of the call, and changes no other
    local. *)
Lemma poll_once_ret (p : Params) (s s' : @State W) (stop : bool) :
  poll_once p s = (Ret stop, s') ->
  exists rd d d',
    collected_data_in_this_session (frame s) = Some d /\
    convert_and_store (l_channels (frame s)) rd d = (Ret tt, d') /\
    frame s' = set_session d' (frame s).
Proof.
  unfold poll_once. intros H.
  apply bind_ret_inv in H as [[] [s1 [H1 H]]].
  apply bind_ret_inv in H as [rd [s2 [H2 H]]].
  apply bind_ret_inv in H as [chs [s3 [H3 H]]].
  apply bind_ret_inv in H as [[] [s4 [H4 H]]].
  assert (same_frame s s1) as F1.
  { eapply (stable_get_device (@any_state W) same_frame); try frames;
      [exact I | exact H1]. }
  assert (same_frame s1 s2) as F2.
  { eapply (stable_call (@any_state W) same_frame); try frames;
      [exact I | exact H2]. }
  unfold get_channels, bind, get, ret in H3. inversion H3; subst chs s3.
  apply on_session_ret in H4 as [d [d' [Hd [Hrun ->]]]].
  assert (same_frame (set_frame (set_session d') s2) s') as F5.
  { eapply (after_store_same_frame p); [exact I | exact H]. }
  unfold same_frame in *. exists rd, d, d'.
  rewrite F2, F1 in Hd, Hrun. repeat split; auto.
  rewrite F5. simpl. now rewrite F2, F1.
Qed.

Lemma poll_once_inv (p : Params)
  (s s' : @State W) (stop : bool) (d : Session) :
  NoDup (dict_values (l_channels (frame s))) ->
  collected_data_in_this_session (frame s) = Some d ->
  session_inv (l_channels (frame s)) d ->
  poll_once p s = (Ret stop, s') ->
  exists d',
    collected_data_in_this_session (frame s') = Some d' /\
    l_channels (frame s') = l_channels (frame s) /\
    session_inv (l_channels (frame s)) d' /\
    aligned d'.
Proof.
  intros Hlab Hd Hinv Hrun.
  apply poll_once_ret in Hrun as [rd [d0 [d' [Hd0 [Hcs Hf]]]]].
  rewrite Hd in Hd0. inversion Hd0; subst d0.
  exists d'. rewrite Hf. simpl.
  assert (session_inv (l_channels (frame s)) d') as Hinv'.
  { eapply convert_and_store_inv; eauto. }
  repeat split; auto; try apply Hinv'.
  eapply session_inv_aligned; eauto.
Qed.


(** The same over a whole loop that is left by the time-out. *)
Lemma polling_loop_keeps_lengths_aligned (p : Params) (fuel : nat) :
  forall (s s' : @State W) (d : Session),
  NoDup (dict_values (l_channels (frame s))) ->
  collected_data_in_this_session (frame s) = Some d ->
  session_inv (l_channels (frame s)) d ->
  polling_loop fuel p s = (Ret tt, s') ->
  exists d',
    collected_data_in_this_session (frame s') = Some d' /\
    l_channels (frame s') = l_channels (frame s) /\
    session_inv (l_channels (frame s)) d' /\
    aligned d'.
Proof.
  induction fuel as [|fuel IH]; intros s s' d Hlab Hd Hinv Hrun.
  - discriminate.
  - cbn [polling_loop] in Hrun.
    apply bind_ret_inv in Hrun as [stop [s1 [H1 Hrun]]].
    destruct (poll_once_inv p s s1 stop d
                Hlab Hd Hinv H1) as [d1 [Hd1 [Hch [Hinv1 Hal]]]].
    destruct stop.
    + inversion Hrun; subst. exists d1. auto.
    + rewrite <- Hch in Hlab, Hinv1.
      destruct (IH s1 s' d1 Hlab Hd1 Hinv1 Hrun) as [d' [Hd' [Hch' [Hi' Ha']]]].
      exists d'. rewrite Hch in Hch', Hi'. auto.
Qed.

End Polling.

(** ** The frames sent to the live plot (C6, C10) *)

Lemma slice_from_negative_length {A} (m : Z) (l : list A) :
  0 < m -> Z.of_nat (List.length (slice_from (- m) l)) <= m.
Proof.
  intros Hm. unfold slice_from.
  destruct (Z.ltb_spec (- m) 0) as [_|Hge]; [|lia].
  rewrite length_skipn. lia.
Qed.

Lemma tolist_rows (m : ndarray2) (row : list pynum) :
  In row (tolist m) ->
  match m with
  | Int2 rows => exists r, In r rows /\ List.length row = List.length r
  | Float2 rows => exists r, In r rows /\ List.length row = List.length r
  end.
Proof.
  destruct m as [rows|rows]; simpl; intros Hin;
    apply in_map_iff in Hin as [r [<- Hr]]; exists r;
    (split; [exact Hr | apply length_map]).
Qed.

(** The bound of C10 on what goes into a frame. *)
Lemma plot_frame_bound (rate : Z) (d : Session) (tmp : list (list pynum)) :
  0 < rate ->
  plot_frame rate d = Ret tmp ->
  Forall (fun row => Z.of_nat (List.length row) <= 60 * rate) tmp.
Proof.
  intros Hrate. unfold plot_frame. cbv zeta.
  destruct (np_array (dict_values d)) as [a| |]; try discriminate.
  destruct a as [a|[rows|rows]]; cbn [columns_from tolist];
    try discriminate;
    intros H; inversion H; subst; apply Forall_forall; intros row Hin;
    apply in_map_iff in Hin as [r [<- Hr]];
    apply in_map_iff in Hr as [r0 [<- Hr0]];
    rewrite length_map; apply slice_from_negative_length; lia.
Qed.

Section Frames.
Context {W : Type} {E : Env W}.

Variable ok : Event -> Prop.

Lemma trace_ext_refl (s : @State W) : trace_ext ok s s.
Proof. exists []. split; [now rewrite app_nil_r | constructor]. Qed.

Lemma trace_ext_trans (a b c : @State W) :
  trace_ext ok a b -> trace_ext ok b c -> trace_ext ok a c.
Proof.
  intros [e1 [H1 F1]] [e2 [H2 F2]]. exists (e1 ++ e2). split.
  - rewrite H2, H1. now rewrite app_assoc.
  - apply Forall_app; auto.
Qed.

Lemma trace_ext_keeps (s s' : @State W) :
  any_state s -> trace_ext ok s s' -> any_state s'.
Proof. exact (fun _ _ => I). Qed.

Lemma trace_ext_world (s : @State W) (w : W) :
  trace_ext ok s (mkState (mgr s) (frame s) (trace s) w).
Proof. exists []. split; [simpl; now rewrite app_nil_r | constructor]. Qed.

Lemma trace_ext_same (s s' : @State W) :
  trace s' = trace s -> trace_ext ok s s'.
Proof. intros H. exists []. split; [now rewrite app_nil_r | constructor]. Qed.

Lemma rate_kept_refl (s : @State W) : rate_kept ok s s.
Proof. split; [reflexivity | apply trace_ext_refl]. Qed.

Lemma rate_kept_trans (a b c : @State W) :
  rate_kept ok a b -> rate_kept ok b c -> rate_kept ok a c.
Proof.
  intros [H1 T1] [H2 T2]. split; [congruence|].
  eapply trace_ext_trans; eauto.
Qed.

Lemma rate_kept_keeps (rate : Z) (s s' : @State W) :
  rate_is rate s -> rate_kept ok s s' -> rate_is rate s'.
Proof. intros [H1 H2] [H3 _]. split; [congruence | exact H2]. Qed.

Lemma rate_kept_world (s : @State W) (w : W) :
  rate_kept ok s (mkState (mgr s) (frame s) (trace s) w).
Proof. split; [reflexivity | apply trace_ext_world]. Qed.

End Frames.

Ltac traces :=
  first [ exact (trace_ext_refl _) | exact (trace_ext_trans _)
        | exact (trace_ext_keeps _) | exact (trace_ext_world _) ].

Ltac rates :=
  first [ exact (rate_kept_refl _) | exact (rate_kept_trans _)
        | exact (rate_kept_keeps _ _) | exact (rate_kept_world _) ].

Section Runs.
Context {W : Type} {E : Env W}.
Variable rate : Z.

Notation ok := (frame_ok rate).
Notation P0 := (@any_state W).
Notation R0 := (@trace_ext W ok).
Notation P1 := (@rate_is W rate).
Notation R1 := (@rate_kept W ok).

Ltac bind0 := apply (stable_bind P0 R0 (trace_ext_trans ok) (trace_ext_keeps ok)).
Ltac bind1 :=
  apply (stable_bind P1 R1 (rate_kept_trans ok) (rate_kept_keeps ok rate)).

Lemma modify_trace_ext (f : @State W -> @State W) :
  (forall s, trace (f s) = trace s) -> stable P0 R0 (modify f).
Proof. intros H. apply stable_modify. intros s _. now apply trace_ext_same. Qed.

Lemma modify_rate_kept (f : @State W -> @State W) :
  (forall s, trace (f s) = trace s) ->
  (forall s, sampling_rate (device_state (mgr (f s))) =
             sampling_rate (device_state (mgr s))) ->
  stable P1 R1 (modify f).
Proof.
  intros Ht Hr. apply stable_modify. intros s _. split; [apply Hr|].
  now apply trace_ext_same.
Qed.

Lemma emit_trace_ext (ev : Event) : ok ev -> stable P0 R0 (emit ev).
Proof.
  intros Hok. apply stable_modify. intros s _. exists [ev]. auto.
Qed.

Lemma emit_rate_kept (ev : Event) : ok ev -> stable P1 R1 (emit ev).
Proof.
  intros Hok. apply stable_modify. intros s _. split; [reflexivity|].
  exists [ev]. auto.
Qed.

(** A plot update writes at most one line, a frame within the bound. *)
Lemma send_plot_update_frames : stable P1 R1 send_plot_update.
Proof.
  intros s r s' [Hrate Hin] Hrun.
  assert (0 < rate) as Hpos.
  { simpl in Hin. lia. }
  unfold send_plot_update, get_device_state, get_session, get_p, get_local,
    bind, get, ret, raise, lift_outcome, getattr, device_state_class, call,
    emit, modify in Hrun.
  rewrite Hrate in Hrun.
  destruct (collected_data_in_this_session (frame s)) as [d|];
    [|inversion Hrun; subst; apply rate_kept_refl].
  destruct (plot_frame rate d) as [tmp| |] eqn:Hpf;
    try (inversion Hrun; subst; apply rate_kept_refl).
  destruct (l_p (frame s));
    [|inversion Hrun; subst; apply rate_kept_refl].
  destruct (stdin_write _ (world s)) as [[[]| |] w];
    try (inversion Hrun; subst; apply rate_kept_world).
  inversion Hrun; subst. split; [reflexivity|].
  eexists [_]. split; [reflexivity|]. constructor; [|constructor].
  exists tmp. split; [reflexivity|].
  eapply plot_frame_bound; eauto.
Qed.

Lemma on_session_rate_kept {A} (m : M Session A) : stable P1 R1 (on_session m).
Proof.
  unfold on_session. bind1.
  - apply stable_get_local; rates.
  - intros d s r s' _ H. destruct (m d) as [r' d']. inversion H; subst.
    split; [reflexivity|]. now apply trace_ext_same.
Qed.

Lemma poll_once_frames (p : Params) : stable P1 R1 (poll_once p).
Proof.
  unfold poll_once.
  bind1; [apply stable_get_device; rates|]. intros _.
  bind1; [apply stable_call; rates|]. intros rd.
  bind1; [apply stable_get_channels; rates|]. intros chs.
  bind1; [apply on_session_rate_kept|]. intros _.
  bind1.
  { apply stable_if; [|apply stable_ret; rates].
    bind1; [apply stable_get_local; rates|]. intros d.
    bind1; [apply stable_lift; rates|]. intros _. apply stable_ret; rates. }
  intros _. bind1.
  { apply stable_if; [apply send_plot_update_frames | apply stable_ret; rates]. }
  intros _. apply stable_timed_out; rates.
Qed.

Lemma polling_loop_frames (p : Params) (fuel : nat) :
  stable P1 R1 (polling_loop fuel p).
Proof.
  induction fuel as [|fuel IH]; cbn [polling_loop].
  - intros s r s' _ H. inversion H; subst. apply rate_kept_refl.
  - bind1; [apply poll_once_frames|]. intros stop.
    destruct stop; [apply stable_ret; rates | exact IH].
Qed.

Lemma select_channels_rate_kept (chs : list string) :
  stable P1 R1 (_select_channels chs).
Proof.
  unfold _select_channels, put_device_state. bind1.
  - apply modify_rate_kept; reflexivity.
  - intros _. apply stable_for_each; try rates. intros c.
    destruct (dict_get c _ACQ_CHANNELS).
    + apply modify_rate_kept; reflexivity.
    + apply stable_raise; rates.
Qed.

Lemma check_sensor_types_rate_kept : stable P1 R1 check_sensor_types.
Proof.
  unfold check_sensor_types.
  bind1; [apply stable_get_channels; rates|]. intros chs.
  apply stable_for_each; try rates. intros [ch sensor].
  apply stable_if; [apply stable_ret; rates|].
  apply modify_rate_kept; reflexivity.
Qed.

Lemma launch_plot_rate_kept : stable P1 R1 launch_plot.
Proof.
  unfold launch_plot.
  bind1; [apply stable_get_channels; rates|]. intros chs.
  bind1; [apply stable_get_device_state; rates|]. intros r.
  bind1; [apply stable_call; rates|]. intros _.
  bind1; [apply emit_rate_kept; exact I|]. intros _.
  apply modify_rate_kept; reflexivity.
Qed.

(** The body of the [try], once the sampling rate is selected. *)
Lemma try_body_rest_frames (fuel : nat) (p : Params) :
  stable P1 R1
    (chs <- get_channels ;;
     _select_channels (dict_keys chs) ;;
     check_sensor_types ;;
     get_device ;;
     rate <- get_device_state "sampling_rate" sampling_rate ;;
     sel <- get_device_state "selected_channels" selected_channels ;;
     call (device_start rate sel) ;;
     start <- call time_time ;;
     modify (set_frame (fun f =>
       mkFrame (l_channels f) (Some start) (Some (time_strftime start))
         (Some []) (l_p f))) ;;
     (if show_live_plot p then launch_plot else ret tt) ;;
     polling_loop fuel p).
Proof.
  bind1; [apply stable_get_channels; rates|]. intros chs.
  bind1; [apply select_channels_rate_kept|]. intros _.
  bind1; [apply check_sensor_types_rate_kept|]. intros _.
  bind1; [apply stable_get_device; rates|]. intros _.
  bind1; [apply stable_get_device_state; rates|]. intros r.
  bind1; [apply stable_get_device_state; rates|]. intros sel.
  bind1; [apply stable_call; rates|]. intros _.
  bind1; [apply stable_call; rates|]. intros start.
  bind1; [apply modify_rate_kept; reflexivity|]. intros _.
  bind1; [apply stable_if; [apply launch_plot_rate_kept | apply stable_ret; rates]|].
  intros _. apply polling_loop_frames.
Qed.

Lemma try_body_frames (fuel : nat) (p : Params) :
  samplingRate p = rate -> stable P0 R0 (try_body fuel p).
Proof.
  intros Hp s r s' _ Hrun. unfold try_body in Hrun. rewrite Hp in Hrun.
  unfold bind at 1 in Hrun.
  destruct (in_dec Z.eq_dec rate [1; 10; 100; 1000]) as [Hin|Hn].
  - rewrite (proj1 (select_sampling_rate_cases rate s) Hin) in Hrun.
    assert (rate_is rate (with_sampling_rate rate s)) as HP.
    { split; [reflexivity | exact Hin]. }
    destruct (try_body_rest_frames fuel p _ _ _ HP Hrun) as [_ [evs [Ht Hok]]].
    exists evs. auto.
  - rewrite (proj2 (select_sampling_rate_cases rate s) Hn) in Hrun.
    inversion Hrun; subst. apply trace_ext_refl.
Qed.

Lemma put_device_state_trace (f : DeviceState -> DeviceState) :
  stable P0 R0 (put_device_state f).
Proof. apply modify_trace_ext. reflexivity. Qed.

Lemma connect_frames (a : option string) (timeout : Z) (print_state : bool) :
  stable P0 R0 (connect a timeout print_state).
Proof.
  unfold connect. bind0.
  - apply stable_try_except; try traces.
    + bind0. { destruct a; [apply stable_ret | apply stable_lift]; traces. }
      intros mac.
      bind0; [apply stable_call; traces|]. intros _.
      bind0; [apply modify_trace_ext; reflexivity|]. intros _.
      bind0; [apply stable_get_device; traces|]. intros _.
      bind0; [apply stable_call; traces|]. intros _.
      bind0.
      { apply stable_if; [|apply stable_ret; traces].
        bind0; [apply stable_get_device; traces|]. intros _.
        bind0; [apply stable_call; traces|]. intros _.
        apply stable_ret; traces. }
      intros _.
      bind0; [apply modify_trace_ext; reflexivity|]. intros _.
      bind0; apply put_device_state_trace || (intros _; apply put_device_state_trace).
    + intros e.
      bind0; [apply modify_trace_ext; reflexivity|]. intros _.
      bind0; [apply put_device_state_trace|]. intros _.
      apply stable_raise; traces.
  - intros _. apply stable_get_device_state; traces.
Qed.

Lemma finish_frames (p : Params) : stable P0 R0 (finish p).
Proof.
  unfold finish, teardown, save_session, disconnect. bind0.
  { bind0.
    { apply stable_if; [|apply stable_ret; traces].
    bind0; [apply stable_get_local; traces|]. intros _.
    bind0; [apply stable_call; traces|]. intros running.
    destruct running; [|apply stable_ret; traces].
    bind0; [apply stable_call; traces|]. intros _.
    apply emit_trace_ext. exact I. }
    intros _.
    bind0; [apply stable_call; traces|]. intros _.
    bind0; [apply stable_force_stop; traces|]. intros _.
    bind0; [apply stable_get_device; traces|]. intros _.
    bind0; [apply stable_call; traces|]. intros _.
    apply put_device_state_trace. }
  intros _.
  bind0; [apply stable_get_local; traces|]. intros sess.
  bind0; [apply stable_get_local; traces|]. intros stamp.
  bind0; [apply modify_trace_ext; reflexivity|]. intros _.
  bind0; [|intros _; apply stable_ret; traces].
  apply stable_if; [|apply stable_ret; traces].
  bind0; [apply stable_lift; traces|]. intros df.
  bind0; [apply stable_get_device_state; traces|]. intros r.
  bind0; [apply stable_call; traces|]. intros _.
  apply emit_trace_ext. exact I.
Qed.

(** Every line a call of [start_aquisition] writes to the plot process,
    restarts included, is a frame within the bound of its sampling rate. *)
Lemma start_aquisition_frames (fuel : nat) :
  forall p, samplingRate p = rate -> stable P0 R0 (start_aquisition fuel p).
Proof.
  induction fuel as [|fuel IH]; intros p Hp; cbn [start_aquisition].
  - intros s r s' _ H. inversion H; subst. apply trace_ext_refl.
  - bind0; [apply modify_trace_ext; reflexivity|]. intros _.
    bind0; [apply stable_get_device_state; traces|]. intros c.
    bind0.
    { apply stable_if; [|apply stable_ret; traces].
      bind0; [apply connect_frames|]. intros _. apply stable_ret; traces. }
    intros _ s r s' _ Hrun.
    destruct (try_body fuel p s) as [[[]|e|] s1] eqn:Htry;
      pose proof (try_body_frames fuel p Hp _ _ _ I Htry) as H1.
    + eapply trace_ext_trans; [exact H1|].
      eapply finish_frames; [exact I | exact Hrun].
    + eapply trace_ext_trans; [exact H1|].
      destruct (is_Exception e);
        [|eapply finish_frames; [exact I | exact Hrun]].
      destruct (String.eqb (exc_str e) CONTACTING_DEVICE);
        [eapply finish_frames; [exact I | exact Hrun]|].
      destruct (String.eqb (exc_str e) DEVICE_NOT_IDLE);
        [|eapply finish_frames; [exact I | exact Hrun]].
      revert Hrun.
      apply (stable_bind P0 R0 (trace_ext_trans ok) (trace_ext_keeps ok));
        [apply stable_force_stop; traces | | exact I].
      intros _. apply IH. exact Hp.
    + inversion Hrun; subst. exact H1.
Qed.

End Runs.

(** ** The line protocol: encoding, then the receiver's decoding (C6) *)

Lemma append_assoc (a b c : string) : ((a ++ b) ++ c = a ++ b ++ c)%string.
Proof. induction a as [|x a IH]; simpl; [reflexivity | now rewrite IH]. Qed.

Lemma append_nil_r (a : string) : (a ++ "" = a)%string.
Proof. induction a as [|x a IH]; simpl; [reflexivity | now rewrite IH]. Qed.

Lemma all_chars_app (f : ascii -> bool) (a b : string) :
  all_chars f (a ++ b) = all_chars f a && all_chars f b.
Proof.
  induction a as [|x a IH]; simpl; [reflexivity|].
  now rewrite IH, andb_assoc.
Qed.

Lemma all_chars_impl (f g : ascii -> bool) (s : string) :
  (forall c, f c = true -> g c = true) ->
  all_chars f s = true -> all_chars g s = true.
Proof.
  intros Hfg. induction s as [|x s IH]; simpl; [reflexivity|].
  intros H. apply andb_true_iff in H as [Hx Hs].
  rewrite (Hfg _ Hx), (IH Hs). reflexivity.
Qed.

Lemma join_prefixed (x : string) (l : list string) :
  join ", " (x :: l) = (x ++ prefixed l)%string.
Proof.
  revert x. induction l as [|y l IH]; intros x.
  - simpl. now rewrite append_nil_r.
  - change (join ", " (x :: y :: l))
      with (x ++ ", " ++ join ", " (y :: l))%string.
    rewrite IH. reflexivity.
Qed.

Lemma json_ws_is_space (c : ascii) : is_json_ws c = true -> is_space c = true.
Proof.
  unfold is_json_ws, is_space. cbv zeta. intros H.
  repeat rewrite orb_true_iff in H. repeat rewrite Nat.eqb_eq in H.
  rewrite orb_true_iff. repeat rewrite andb_true_iff.
  repeat rewrite Nat.leb_le. lia.
Qed.

Lemma not_delimiter (c : ascii) :
  is_delimiter c = false ->
  Ascii.eqb c "[" = false /\ Ascii.eqb c "]" = false /\
  Ascii.eqb c "," = false /\ is_json_ws c = false /\ is_space c = false.
Proof.
  unfold is_delimiter. intros H.
  repeat rewrite orb_false_iff in H. destruct H as [[[Hs Hl] Hr] Hc].
  repeat split; auto.
  destruct (is_json_ws c) eqn:Hws; [|reflexivity].
  apply json_ws_is_space in Hws. congruence.
Qed.

(** A number text in front of something that does not go on with a number
    is one token. *)
Lemma lex_number (n rest : string) :
  clean n -> starts_number rest = false ->
  lex (n ++ rest) = TNum n :: lex rest.
Proof.
  intros [Hne Hall] Hrest. induction n as [|c n IH]; [congruence|].
  simpl in Hall. apply andb_true_iff in Hall as [Hc Hn].
  apply negb_true_iff in Hc. apply not_delimiter in Hc.
  destruct Hc as [H1 [H2 [H3 [H4 _]]]].
  cbn [append lex]. rewrite H1, H2, H3, H4.
  destruct n as [|c' n'].
  - simpl. unfold starts_number in Hrest.
    destruct (lex rest) as [|[| | | |t] r]; try reflexivity. discriminate.
  - rewrite IH; [reflexivity | discriminate | exact Hn].
Qed.

Lemma tokens_number (n rest : string) :
  clean n -> starts_number rest = false ->
  tokens_of (n ++ rest) = TNum n :: tokens_of rest.
Proof.
  intros Hn Hr. unfold tokens_of. now rewrite lex_number.
Qed.

Lemma tokens_row_tail (l : list string) (rest : string) :
  Forall clean l ->
  tokens_of (prefixed l ++ "]" ++ rest) =
  row_tail_tokens l (tokens_of rest).
Proof.
  induction 1 as [|x l Hx Hl IH]; [reflexivity|].
  cbn [prefixed row_tail_tokens].
  change ((", " ++ x ++ prefixed l) ++ "]" ++ rest)%string
    with (String "," (String " " ((x ++ prefixed l) ++ "]" ++ rest)))%string.
  rewrite append_assoc.
  change (tokens_of (String "," (String " " (x ++ prefixed l ++ "]" ++ rest))))
    with (TComma :: tokens_of (x ++ prefixed l ++ "]" ++ rest)).
  rewrite tokens_number; [now rewrite IH | exact Hx |].
  destruct l; reflexivity.
Qed.

Lemma tokens_row (l : list string) (rest : string) :
  Forall clean l ->
  tokens_of ("[" ++ join ", " l ++ "]" ++ rest) =
  row_tokens l (tokens_of rest).
Proof.
  intros Hl. destruct l as [|x l]; [reflexivity|].
  rewrite join_prefixed, append_assoc.
  inversion Hl as [|? ? Hx Hl']; subst.
  change (tokens_of ("[" ++ x ++ prefixed l ++ "]" ++ rest))
    with (TLB :: tokens_of (x ++ prefixed l ++ "]" ++ rest)).
  rewrite tokens_number; [now rewrite tokens_row_tail | exact Hx |].
  destruct l; reflexivity.
Qed.

Section Roundtrip.
Context {A : Type} (repr : A -> string) (parse : string -> option A).

Lemma clean_map (row : list A) :
  Forall (reads_back repr parse) row -> Forall clean (map repr row).
Proof.
  induction 1 as [|x row [_ Hx] _ IH]; simpl; constructor; auto.
Qed.

Lemma tokens_dumps_row (row : list A) (rest : string) :
  Forall (reads_back repr parse) row ->
  tokens_of (json_dumps_row repr row ++ rest) =
  row_tokens (map repr row) (tokens_of rest).
Proof.
  intros Hrow. unfold json_dumps_row.
  change (("[" ++ join ", " (map repr row) ++ "]") ++ rest)%string
    with ("[" ++ ((join ", " (map repr row) ++ "]") ++ rest))%string.
  rewrite append_assoc. apply tokens_row. now apply clean_map.
Qed.

Lemma tokens_dumps_tail (m : list (list A)) (rest : string) :
  Forall (Forall (reads_back repr parse)) m ->
  tokens_of (prefixed (map (json_dumps_row repr) m) ++ "]" ++ rest) =
  rows_tail_tokens (map (map repr) m) (tokens_of rest).
Proof.
  induction 1 as [|row m Hrow Hm IH]; [reflexivity|].
  cbn [map prefixed rows_tail_tokens].
  change ((", " ++ json_dumps_row repr row ++
           prefixed (map (json_dumps_row repr) m)) ++ "]" ++ rest)%string
    with (String "," (String " "
           ((json_dumps_row repr row ++
             prefixed (map (json_dumps_row repr) m)) ++ "]" ++ rest)))%string.
  rewrite append_assoc.
  change (tokens_of (String "," (String " " ?x)))
    with (TComma :: tokens_of x).
  rewrite tokens_dumps_row by exact Hrow. now rewrite IH.
Qed.

Lemma tokens_dumps (m : list (list A)) :
  Forall (Forall (reads_back repr parse)) m ->
  tokens_of (json_dumps repr m) =
  match m with
  | [] => [TLB; TRB]
  | row :: m' =>
      TLB :: row_tokens (map repr row)
               (rows_tail_tokens (map (map repr) m') [])
  end.
Proof.
  intros Hm. unfold json_dumps. destruct m as [|row m]; [reflexivity|].
  inversion Hm as [|? ? Hrow Hm']; subst.
  cbn [map]. rewrite join_prefixed, append_assoc.
  change (tokens_of ("[" ++ ?x)) with (TLB :: tokens_of x).
  rewrite tokens_dumps_row by exact Hrow.
  change "]"%string with ("]" ++ "")%string.
  now rewrite tokens_dumps_tail.
Qed.

Lemma parse_row_tail_tokens (row : list A) (rest : list token) :
  Forall (reads_back repr parse) row ->
  parse_row_tail parse (row_tail_tokens (map repr row) rest) =
  Some (row, rest).
Proof.
  induction 1 as [|x row [Hx _] _ IH]; [reflexivity|].
  cbn [map row_tail_tokens parse_row_tail]. now rewrite Hx, IH.
Qed.

Lemma parse_row_tokens (row : list A) (rest : list token) :
  Forall (reads_back repr parse) row ->
  parse_row parse (row_tokens (map repr row) rest) = Some (row, rest).
Proof.
  intros Hrow. destruct row as [|x row]; [reflexivity|].
  inversion Hrow as [|? ? [Hx _] Hrow']; subst.
  cbn [map row_tokens parse_row].
  now rewrite Hx, parse_row_tail_tokens.
Qed.

Lemma parse_rows_tail_tokens (m : list (list A)) (rest : list token) :
  Forall (Forall (reads_back repr parse)) m ->
  forall fuel, (List.length m < fuel)%nat ->
  parse_rows_tail parse fuel (rows_tail_tokens (map (map repr) m) rest) =
  Some (m, rest).
Proof.
  induction 1 as [|row m Hrow Hm IH]; intros fuel Hfuel.
  - destruct fuel; [inversion Hfuel | reflexivity].
  - destruct fuel as [|fuel]; [inversion Hfuel|].
    cbn [map rows_tail_tokens parse_rows_tail].
    rewrite parse_row_tokens by exact Hrow.
    rewrite IH; [reflexivity | simpl in Hfuel; lia].
Qed.

Lemma row_tail_tokens_length (l : list string) (rest : list token) :
  (List.length rest < List.length (row_tail_tokens l rest))%nat.
Proof. induction l as [|x l IH]; simpl; lia. Qed.

Lemma rows_tail_tokens_length (m : list (list string)) (rest : list token) :
  (List.length m < List.length (rows_tail_tokens m rest))%nat.
Proof.
  induction m as [|row m IH]; simpl; [lia|].
  destruct row as [|x row]; simpl; [lia|].
  pose proof (row_tail_tokens_length row (rows_tail_tokens m rest)). lia.
Qed.

(** Decoding undoes encoding. *)
Lemma json_loads_dumps (m : list (list A)) :
  Forall (Forall (reads_back repr parse)) m ->
  json_loads parse (json_dumps repr m) = Some m.
Proof.
  intros Hm. unfold json_loads.
  change (filter (fun t => negb (is_TWs t)) (lex (json_dumps repr m)))
    with (tokens_of (json_dumps repr m)).
  rewrite tokens_dumps by exact Hm.
  destruct m as [|row m]; [reflexivity|].
  inversion Hm as [|? ? Hrow Hm']; subst.
  unfold parse_matrix.
  destruct (map repr row) as [|x xs] eqn:Hmap.
  - destruct row; [|discriminate]. cbn [row_tokens].
    pose proof (parse_row_tokens [] (rows_tail_tokens (map (map repr) m) [])
                  (Forall_nil _)) as Hp.
    cbn [map row_tokens] in Hp. rewrite Hp.
    rewrite parse_rows_tail_tokens;
      [reflexivity | exact Hm' |].
    rewrite <- (length_map (map repr) m). apply rows_tail_tokens_length.
  - rewrite <- Hmap. cbn [row_tokens].
    pose proof (parse_row_tokens row (rows_tail_tokens (map (map repr) m) [])
                  Hrow) as Hp.
    rewrite Hmap in Hp |- *. cbn [row_tokens] in Hp |- *. rewrite Hp.
    rewrite parse_rows_tail_tokens;
      [reflexivity | exact Hm' |].
    rewrite <- (length_map (map repr) m). apply rows_tail_tokens_length.
Qed.

End Roundtrip.

Lemma clean_no_newline (s : string) :
  clean s -> all_chars not_newline s = true.
Proof.
  intros [_ H]. revert H. apply all_chars_impl. intros c Hc.
  unfold not_newline. destruct (Ascii.eqb_spec c (ascii_of_nat 10)) as [->|];
    [discriminate Hc | reflexivity].
Qed.

Lemma prefixed_no_newline (l : list string) :
  Forall (fun x => all_chars not_newline x = true) l ->
  all_chars not_newline (prefixed l) = true.
Proof.
  induction 1 as [|x l Hx _ IH]; [reflexivity|].
  cbn [prefixed].
  change (", " ++ x ++ prefixed l)%string
    with (String "," (String " " (x ++ prefixed l))).
  cbn [all_chars]. rewrite all_chars_app, Hx, IH. reflexivity.
Qed.

Lemma join_no_newline (l : list string) :
  Forall (fun x => all_chars not_newline x = true) l ->
  all_chars not_newline ("[" ++ join ", " l ++ "]") = true.
Proof.
  intros Hl. destruct l as [|x l]; [reflexivity|].
  inversion Hl as [|? ? Hx Hl']; subst.
  rewrite join_prefixed.
  change ("[" ++ (x ++ prefixed l) ++ "]")%string
    with (String "[" ((x ++ prefixed l) ++ "]")).
  cbn [all_chars]. rewrite !all_chars_app, Hx, prefixed_no_newline by exact Hl'.
  reflexivity.
Qed.

Lemma readline_line (t rest : string) :
  all_chars not_newline t = true ->
  readline (t ++ newline ++ rest) = ((t ++ newline)%string, rest).
Proof.
  induction t as [|c t IH]; intros H; [reflexivity|].
  simpl in H. apply andb_true_iff in H as [Hc Ht].
  unfold not_newline in Hc. apply negb_true_iff in Hc.
  cbn [append readline]. rewrite Hc.
  change (t ++ String (ascii_of_nat 10) rest)%string
    with (t ++ newline ++ rest)%string.
  now rewrite (IH Ht).
Qed.

Lemma rstrip_closing (s : string) :
  rstrip (s ++ String "]" newline) = (s ++ "]")%string.
Proof.
  induction s as [|a s IH]; [reflexivity|].
  cbn [append rstrip]. rewrite IH.
  destruct s; reflexivity.
Qed.

Lemma strip_bracketed (body : string) :
  strip (("[" ++ body ++ "]") ++ newline) = ("[" ++ body ++ "]")%string.
Proof.
  unfold strip.
  change (("[" ++ body ++ "]") ++ newline)%string
    with (String "[" ((body ++ "]") ++ newline)).
  rewrite append_assoc.
  change (lstrip (String "[" (body ++ "]" ++ newline)))
    with (String "[" body ++ String "]" newline)%string.
  apply rstrip_closing.
Qed.

Section Receiver.
Context {A : Type} (repr : A -> string) (parse : string -> option A).

Lemma dumps_row_no_newline (row : list A) :
  Forall (reads_back repr parse) row ->
  all_chars not_newline (json_dumps_row repr row) = true.
Proof.
  intros Hrow. unfold json_dumps_row. apply join_no_newline.
  apply Forall_map. revert Hrow. apply Forall_impl.
  intros x [_ Hx]. now apply clean_no_newline.
Qed.

Lemma dumps_no_newline (m : list (list A)) :
  Forall (Forall (reads_back repr parse)) m ->
  all_chars not_newline (json_dumps repr m) = true.
Proof.
  intros Hm. unfold json_dumps. apply join_no_newline.
  apply Forall_map. revert Hm. apply Forall_impl.
  intros row. apply dumps_row_no_newline.
Qed.

(** One frame through the pipe: the receiver reads exactly the line of the
    frame, leaves the rest of the stream, and decodes the matrix that was
    encoded. *)
Lemma receive_frame_line (m : list (list A)) (rest : string) :
  Forall (Forall (reads_back repr parse)) m ->
  readline (frame_line repr m ++ rest) = (frame_line repr m, rest) /\
  receive parse (frame_line repr m ++ rest) = (Some m, rest).
Proof.
  intros Hm.
  assert (readline (frame_line repr m ++ rest) = (frame_line repr m, rest))
    as Hline.
  { unfold frame_line. rewrite append_assoc.
    apply readline_line. now apply dumps_no_newline. }
  split; [exact Hline|].
  unfold receive. rewrite Hline.
  unfold frame_line at 1. unfold json_dumps at 1.
  rewrite strip_bracketed.
  change ("[" ++ join ", " (map (json_dumps_row repr) m) ++ "]")%string
    with (json_dumps repr m).
  now rewrite (json_loads_dumps repr parse m Hm).
Qed.

(** A stream of frames: the loop of the receiver hands them all to
    [update_plot], in order, as long as it redraws. *)
Lemma liveplot_main_frames (redraws : list (list A) -> bool)
  (fs : list (list (list A))) :
  Forall (Forall (Forall (reads_back repr parse))) fs ->
  Forall (fun f => redraws f = true) fs ->
  forall fuel, (List.length fs <= fuel)%nat ->
  liveplot_main parse redraws fuel
    (fold_right (fun f acc => frame_line repr f ++ acc)%string "" fs) = fs.
Proof.
  intros Hfs. induction Hfs as [|f fs Hf _ IH]; intros Hre fuel Hfuel.
  - destruct fuel; reflexivity.
  - destruct fuel as [|fuel]; [inversion Hfuel|].
    inversion Hre as [|? ? Hrf Hre']; subst.
    cbn [fold_right liveplot_main].
    rewrite (proj2 (receive_frame_line f _ Hf)), Hrf.
    rewrite IH; [reflexivity | exact Hre' | simpl in Hfuel; lia].
Qed.

End Receiver.

(** *** Integers as numbers of the protocol *)

Lemma uint_text_clean (d : Decimal.uint) :
  all_chars (fun c => negb (is_delimiter c)) (NilEmpty.string_of_uint d) = true.
Proof. induction d; simpl; auto. Qed.

Lemma nilzero_uint_text_clean (d : Decimal.uint) :
  clean (NilZero.string_of_uint d).
Proof.
  split.
  - destruct d; discriminate.
  - destruct d; try apply uint_text_clean. reflexivity.
Qed.

Lemma str_of_Z_clean (z : Z) : clean (str_of_Z z).
Proof.
  unfold str_of_Z. destruct (Z.to_int z) as [d|d]; simpl.
  - apply nilzero_uint_text_clean.
  - destruct (nilzero_uint_text_clean d) as [_ H].
    split; [discriminate|]. simpl. exact H.
Qed.

Lemma parse_int_str_of_Z (z : Z) : parse_int (str_of_Z z) = Some z.
Proof.
  unfold parse_int, str_of_Z. rewrite NilZero.isi.
  - now rewrite DecimalZ.of_to.
  - destruct z; simpl; try discriminate.
    intros H. inversion H as [H']. revert H'. apply DecimalPos.Unsigned.to_uint_nonnil.
  - destruct z; simpl; try discriminate.
    intros H. inversion H as [H']. revert H'. apply DecimalPos.Unsigned.to_uint_nonnil.
Qed.

Section Protocol.
Context {W : Type} {E : Env W}.

(** An int of a frame always reads back. *)
Lemma int_reads_back (parse_float : string -> option float) (z : Z) :
  reads_back num_repr (parse_pynum parse_float) (PyInt z).
Proof.
  split; [|apply str_of_Z_clean].
  unfold parse_pynum. simpl. now rewrite parse_int_str_of_Z.
Qed.

(** The lines written by a run, as events of its trace. *)
Lemma stdin_writes_ok (rate : Z) (evs : list Event) (line : string) :
  Forall (frame_ok rate) evs -> In line (stdin_writes evs) ->
  exists tmp : list (list pynum),
    line = frame_line num_repr tmp /\
    Forall (fun row => Z.of_nat (List.length row) <= 60 * rate) tmp.
Proof.
  intros Hok Hin. unfold stdin_writes in Hin.
  apply in_flat_map in Hin as [ev [Hev Hline]].
  rewrite Forall_forall in Hok. specialize (Hok ev Hev).
  destruct ev; simpl in Hline; try contradiction.
  destruct Hline as [<-|[]]. exact Hok.
Qed.



End Protocol.

(** ** The CSV file (C4) *)

Lemma existsb_eqb_In (x : string) (l : list string) :
  existsb (String.eqb x) l = true <-> In x l.
Proof.
  rewrite existsb_exists. split.
  - intros [y [Hy Heq]]. apply String.eqb_eq in Heq. now subst.
  - intros H. exists x. split; [exact H | apply String.eqb_refl].
Qed.

Lemma distinct_from_seen (seen l : list string) :
  incl l seen -> distinct_from seen l = [].
Proof.
  induction l as [|x l IH]; intros Hincl; [reflexivity|].
  simpl. assert (In x seen) as Hx by (apply Hincl; now left).
  apply existsb_eqb_In in Hx. rewrite Hx. apply IH.
  intros y Hy. apply Hincl. now right.
Qed.

Lemma distinct_from_covers (l : list string) :
  forall seen, incl l (seen ++ distinct_from seen l).
Proof.
  induction l as [|x l IH]; intros seen y Hy; [destruct Hy|].
  simpl. destruct (existsb (String.eqb x) seen) eqn:Hx.
  - destruct Hy as [<-|Hy]; [|now apply IH].
    apply in_or_app. left. now apply existsb_eqb_In.
  - destruct Hy as [<-|Hy].
    + apply in_or_app. right. now left.
    + specialize (IH (seen ++ [x]) y Hy). rewrite <- app_assoc in IH.
      exact IH.
Qed.

(** The keys of the dictionary after the [for] loop of a batch. *)
Lemma convert_store_loop_keys (rd : IntMatrix)
  (items : list (nat * (string * string))) :
  forall d d',
  for_each items (fun '(i, (ch, sensor)) =>
    _sensor_data <- convert sensor rd i ;; store sensor _sensor_data) d =
  (Ret tt, d') ->
  dict_keys d' =
  dict_keys d ++
  distinct_from (dict_keys d) (map (fun x => snd (snd x)) items).
Proof.
  induction items as [|[i [ch sensor]] items IH]; intros d d' Hrun.
  - cbn in Hrun. inversion Hrun; subst. simpl. now rewrite app_nil_r.
  - cbn [for_each] in Hrun. unfold bind at 1 in Hrun.
    destruct ((_sensor_data <- convert sensor rd i ;;
               store sensor _sensor_data) d) as [[[]| |] d1] eqn:Hstep;
      try discriminate.
    apply convert_store_step in Hstep as [v [-> _]].
    rewrite (IH _ _ Hrun), dict_keys_set. cbn [map snd distinct_from].
    destruct (dict_get sensor d) as [old|] eqn:Hget.
    + assert (In sensor (dict_keys d)) as Hin.
      { apply dict_get_In. eauto. }
      apply existsb_eqb_In in Hin. now rewrite Hin.
    + apply dict_get_None in Hget.
      destruct (existsb (String.eqb sensor) (dict_keys d)) eqn:Hex.
      * apply existsb_eqb_In in Hex. contradiction.
      * now rewrite <- app_assoc.
Qed.

(** Once a batch is stored, the keys of the session are the distinct
    sensor labels of the channels, and stay so. *)
Lemma convert_and_store_keys (chs : dict string) (rd : IntMatrix)
  (d d' : Session) :
  d = [] \/ dict_keys d = distinct (dict_values chs) ->
  convert_and_store chs rd d = (Ret tt, d') ->
  dict_keys d' = distinct (dict_values chs).
Proof.
  intros Hd Hrun. unfold convert_and_store, enumerate in Hrun.
  apply convert_store_loop_keys in Hrun.
  rewrite enumerate_labels_from in Hrun. rewrite Hrun.
  destruct Hd as [->|Hk]; [reflexivity|].
  rewrite Hk, distinct_from_seen; [apply app_nil_r|].
  exact (distinct_from_covers (dict_values chs) []).
Qed.

Lemma pd_DataFrame_ret (d : Session) (df : DataFrame) :
  pd_DataFrame d = Ret df ->
  df_columns df = dict_keys d /\ df_data df = dict_values d.
Proof.
  unfold pd_DataFrame. destruct (dict_values d) as [|v vs] eqn:Hv.
  - intros H; inversion H; subst; simpl. split; [|reflexivity].
    destruct d; [reflexivity | discriminate].
  - destruct (forallb _ vs); [|discriminate].
    intros H; inversion H; subst; simpl. auto.
Qed.

(** Without an index, the file has the columns of the frame and records
    as wide as its header. *)
Lemma to_csv_no_index (df : DataFrame) :
  List.length (df_columns df) = List.length (df_data df) ->
  csv_header (to_csv df false) = df_columns df /\
  Forall (fun rec => List.length rec = List.length (df_columns df))
         (csv_records (to_csv df false)).
Proof.
  intros Hlen. split; [reflexivity|].
  simpl. apply Forall_forall. intros rec Hin.
  apply in_map_iff in Hin as [i [<- _]]. now rewrite length_map.
Qed.

Lemma csv_files_none (evs : list Event) :
  Forall no_csv evs -> csv_files evs = [].
Proof.
  induction 1 as [|ev evs Hev _ IH]; [reflexivity|].
  unfold csv_files in *. cbn [flat_map]. rewrite IH.
  destruct ev; try reflexivity. destruct Hev.
Qed.

Lemma csv_files_app (a b : list Event) :
  csv_files (a ++ b) = csv_files a ++ csv_files b.
Proof. unfold csv_files. apply flat_map_app. Qed.

Section Csv.
Context {W : Type} {E : Env W}.

Lemma locals_kept_refl (s : @State W) : locals_kept s s.
Proof. split; [reflexivity | apply trace_ext_refl]. Qed.

Lemma locals_kept_trans (a b c : @State W) :
  locals_kept a b -> locals_kept b c -> locals_kept a c.
Proof.
  intros [F1 T1] [F2 T2]. split; [congruence|].
  eapply trace_ext_trans; eauto.
Qed.

Lemma locals_kept_keeps (s s' : @State W) :
  any_state s -> locals_kept s s' -> any_state s'.
Proof. exact (fun _ _ => I). Qed.

Lemma locals_kept_world (s : @State W) (w : W) :
  locals_kept s (mkState (mgr s) (frame s) (trace s) w).
Proof. split; [reflexivity | apply trace_ext_world]. Qed.

Ltac locals :=
  first [ exact locals_kept_refl | exact locals_kept_trans
        | exact locals_kept_keeps | exact locals_kept_world ].

Ltac bindl :=
  apply (stable_bind (@any_state W) locals_kept locals_kept_trans locals_kept_keeps).

Lemma teardown_locals_kept (p : Params) :
  stable (@any_state W) locals_kept (teardown p).
Proof.
  unfold teardown, disconnect. bindl.
  { apply stable_if; [|apply stable_ret; locals].
    bindl; [apply stable_get_local; locals|]. intros _.
    bindl; [apply stable_call; locals|]. intros running.
    destruct running; [|apply stable_ret; locals].
    bindl; [apply stable_call; locals|]. intros _.
    apply stable_modify. intros s _. split; [reflexivity|].
    exists [SendSignal]. split; [reflexivity|]. repeat constructor. }
  intros _.
  bindl; [apply stable_call; locals|]. intros _.
  bindl; [apply stable_force_stop; locals|]. intros _.
  bindl; [apply stable_get_device; locals|]. intros _.
  bindl; [apply stable_call; locals|]. intros _.
  apply stable_modify. intros s _. split; [reflexivity|].
  now apply trace_ext_same.
Qed.

(** What [save_session] writes: nothing, or one file whose header is the
    list of the keys of the session dictionary. *)
Lemma save_session_csv (p : Params) (s s' : @State W)
  (r : Outcome (string * Session)) (d : Session) :
  collected_data_in_this_session (frame s) = Some d ->
  save_session p s = (r, s') ->
  exists evs,
    trace s' = trace s ++ evs /\
    (forall file, In file (csv_files evs) ->
       csv_header file = dict_keys d /\
       Forall (fun rec => List.length rec = List.length (dict_keys d))
              (csv_records file)) /\
    (forall v, r = Ret v -> save_to_file p = true ->
               exists file, csv_files evs = [file]).
Proof.
  intros Hd Hrun.
  unfold save_session, get_session, get_local, get_device_state, bind, get,
    ret, raise, lift_outcome, getattr, device_state_class, call, emit, modify
    in Hrun.
  rewrite Hd in Hrun. cbn [set_mgr frame mgr trace world] in Hrun.
  assert (forall (r0 : Outcome (string * Session)) (s0 : @State W),
            trace s0 = trace s -> (forall v, r0 <> Ret v) ->
            (r0, s0) = (r, s') ->
            exists evs,
              trace s' = trace s ++ evs /\
              (forall file, In file (csv_files evs) ->
                 csv_header file = dict_keys d /\
                 Forall (fun rec => List.length rec = List.length (dict_keys d))
                        (csv_records file)) /\
              (forall v, r = Ret v -> save_to_file p = true ->
                         exists file, csv_files evs = [file])) as Hfail.
  { intros r0 s0 Ht Hr H. inversion H; subst. exists [].
    rewrite app_nil_r. split; [exact Ht|]. split; [intros file []|].
    intros v Hv. exfalso. exact (Hr v Hv). }
  destruct (sesssion_time_stamp (frame s)) as [stamp|];
    [|eapply Hfail; [| |exact Hrun]; [reflexivity | discriminate]].
  destruct (save_to_file p) eqn:Hsave.
  - destruct (pd_DataFrame d) as [df| |] eqn:Hdf;
      try (eapply Hfail; [| |exact Hrun]; [reflexivity | discriminate]).
    apply pd_DataFrame_ret in Hdf as [Hcols Hdata].
    match type of Hrun with
    | context [file_write ?a ?b ?c] =>
        destruct (file_write a b c) as [[[]| |] w]
    end;
      try (eapply Hfail; [| |exact Hrun]; [reflexivity | discriminate]).
    inversion Hrun; subst. cbn [trace].
    eexists [_]. split; [reflexivity|]. split.
    + intros file [<-|[]].
      destruct (to_csv_no_index df) as [Hh Hr].
      { rewrite Hcols, Hdata. unfold dict_keys, dict_values.
        now rewrite !length_map. }
      rewrite Hh, Hcols in *. split; [reflexivity | exact Hr].
    + intros v _ _. eexists. reflexivity.
  - inversion Hrun; subst. exists []. cbn [trace].
    rewrite app_nil_r. split; [reflexivity|]. split; [intros file []|].
    intros v _ Hf. discriminate Hf.
Qed.

(** The keys of the session after an iteration that completes. *)
Lemma poll_once_keys (p : Params) (s s' : @State W) (stop : bool)
  (d : Session) :
  collected_data_in_this_session (frame s) = Some d ->
  d = [] \/ dict_keys d = distinct (dict_values (l_channels (frame s))) ->
  poll_once p s = (Ret stop, s') ->
  exists d',
    collected_data_in_this_session (frame s') = Some d' /\
    l_channels (frame s') = l_channels (frame s) /\
    dict_keys d' = distinct (dict_values (l_channels (frame s))).
Proof.
  intros Hd Hk Hrun.
  apply poll_once_ret in Hrun as [rd [d0 [d' [Hd0 [Hcs Hf]]]]].
  rewrite Hd in Hd0. inversion Hd0; subst d0.
  exists d'. rewrite Hf. simpl. repeat split.
  eapply convert_and_store_keys; eauto.
Qed.

(** C4, as the code has it: at the end of a session in which a batch was
    stored (the keys of the session dictionary are then the distinct
    sensor labels of the channels), the CSV file written has exactly one
    column per distinct sensor label, in the order of first appearance, and
    no index column (the header is the list of labels and every record is
    as wide as it); with [save_to_file] one file is written when the call
    returns. *)
Theorem csv_has_one_column_per_label (p : Params) (s s' : @State W)
  (r : Outcome (string * Session)) (d : Session) :
  collected_data_in_this_session (frame s) = Some d ->
  dict_keys d = distinct (dict_values (l_channels (frame s))) ->
  finish p s = (r, s') ->
  exists evs,
    trace s' = trace s ++ evs /\
    (forall file, In file (csv_files evs) ->
       csv_header file = distinct (dict_values (l_channels (frame s))) /\
       Forall (fun rec => List.length rec = List.length (csv_header file))
              (csv_records file)) /\
    (forall v, r = Ret v -> save_to_file p = true ->
               exists file, csv_files evs = [file]).
Proof.
  intros Hd Hk Hrun. unfold finish, bind in Hrun.
  destruct (teardown p s) as [[[]|e|] s1] eqn:Htd;
    destruct (teardown_locals_kept p s _ s1 I Htd) as [Hf [ev1 [Ht1 Hno]]].
  - rewrite <- Hf in Hd.
    destruct (save_session_csv p s1 s' r d Hd Hrun)
      as [ev2 [Ht2 [Hfiles Hone]]].
    exists (ev1 ++ ev2). rewrite csv_files_app, (csv_files_none _ Hno).
    split; [rewrite Ht2, Ht1; now rewrite app_assoc|].
    split; [|exact Hone].
    intros file Hin. destruct (Hfiles file Hin) as [Hh Hr].
    rewrite Hh. rewrite <- Hk. auto.
  - inversion Hrun; subst. exists ev1. rewrite (csv_files_none _ Hno).
    split; [exact Ht1|]. split; [intros file []|]. discriminate.
  - inversion Hrun; subst. exists ev1. rewrite (csv_files_none _ Hno).
    split; [exact Ht1|]. split; [intros file []|]. discriminate.
Qed.

End Csv.

(** ** The sensor types of the channels *)

Lemma dict_set_app {V} (k : string) (v v0 : V) (a b : dict V) :
  ~ In k (dict_keys a) ->
  dict_set k v (a ++ (k, v0) :: b) = a ++ (k, v) :: b.
Proof.
  induction a as [|[k' v'] a IH]; intros Hk; simpl.
  - now rewrite String.eqb_refl.
  - destruct (String.eqb_spec k k') as [->|Hne].
    + exfalso. apply Hk. now left.
    + rewrite IH; [reflexivity|]. intros Hin. apply Hk. now right.
Qed.

Section SensorTypes.
Context {W : Type} {E : Env W}.

Lemma check_sensor_types_loop (rest : dict string) :
  forall (done : dict string) (s : @State W),
  l_channels (frame s) = done ++ rest ->
  NoDup (dict_keys (done ++ rest)) ->
  for_each rest (fun '(ch, sensor) =>
    if existsb (String.eqb sensor) _SENSOR_TYPES
    then ret tt
    else modify (set_frame (fun f =>
           mkFrame (dict_set ch "RAW" (l_channels f)) (l_start f)
             (sesssion_time_stamp f) (collected_data_in_this_session f)
             (l_p f)))) s =
  (Ret tt, with_channels (done ++ normalised rest) s).
Proof.
  induction rest as [|[ch sensor] rest IH]; intros done s Hch Hnd.
  - cbn [for_each normalised map]. unfold ret, with_channels, set_frame.
    rewrite <- Hch. destruct s as [m [c st ts cd lp] t w]. reflexivity.
  - cbn [for_each normalised map]. unfold bind at 1.
    destruct (existsb (String.eqb sensor) _SENSOR_TYPES) eqn:Hvalid.
    + unfold ret at 1.
      rewrite (IH (done ++ [(ch, sensor)]) s);
        rewrite <- ?app_assoc; auto.
    + unfold modify at 1.
      assert (~ In ch (dict_keys done)) as Hnotin.
      { unfold dict_keys in Hnd. rewrite map_app in Hnd.
        apply NoDup_remove_2 in Hnd. intros Hin. apply Hnd.
        apply in_or_app. now left. }
      rewrite (IH (done ++ [(ch, "RAW")])).
      * unfold with_channels, set_frame. cbn [frame mgr trace world
          l_start sesssion_time_stamp collected_data_in_this_session l_p].
        now rewrite <- app_assoc.
      * cbn [set_frame frame l_channels]. rewrite Hch.
        rewrite dict_set_app by exact Hnotin. now rewrite <- app_assoc.
      * rewrite <- app_assoc. cbn [app].
        unfold dict_keys in *. rewrite map_app in *. exact Hnd.
Qed.

(** Lines 190-193 replace every unrecognised sensor type of [channels] by
    ['RAW'] and change nothing else. *)
Lemma check_sensor_types_normalises (s : @State W) :
  NoDup (dict_keys (l_channels (frame s))) ->
  check_sensor_types s =
  (Ret tt, with_channels (normalised (l_channels (frame s))) s).
Proof.
  intros Hnd. unfold check_sensor_types, get_channels.
  unfold bind at 1. unfold bind at 1, get at 1, ret at 1.
  exact (check_sensor_types_loop (l_channels (frame s)) [] s eq_refl Hnd).
Qed.

End SensorTypes.

(** ** The restart on a busy device (C2) *)

Section Restart.
Context {W : Type} {E : Env W}.

(** On the busy message, a connected manager stops the device and calls
    [start_aquisition] again, with [retry_params]. *)
Lemma busy_restarts_with_retry_params (fuel : nat) (p : Params)
  (s s1 : @State W) (e : PyExc) :
  connected (device_state (mgr s)) = true ->
  try_body fuel p (set_frame (fun _ => fresh_frame p) s) = (Raise e, s1) ->
  is_Exception e = true ->
  exc_str e = DEVICE_NOT_IDLE ->
  DEVICE_NOT_IDLE <> CONTACTING_DEVICE ->
  start_aquisition (S fuel) p s =
  (force_stop_aquisition ;; start_aquisition fuel (retry_params p)) s1.
Proof.
  intros Hc Htry Hexc Hstr Hne. cbn [start_aquisition].
  unfold bind at 1. unfold modify at 1.
  unfold bind at 1. unfold get_device_state at 1.
  unfold bind at 1, get at 1, lift_outcome at 1, getattr, device_state_class.
  cbn [set_frame mgr]. rewrite Hc. cbn [negb].
  unfold bind at 1, ret at 1.
  change (mkState (mgr s) (fresh_frame p) (trace s) (world s))
    with (set_frame (fun _ => fresh_frame p) s).
  rewrite Htry, Hexc, Hstr.
  destruct (String.eqb_spec DEVICE_NOT_IDLE CONTACTING_DEVICE) as [Heq|_];
    [contradiction|].
  now rewrite String.eqb_refl.
Qed.

(** The restart has the parameters of the call exactly when those not
    passed on already had their default values. *)
Lemma retry_params_same (p : Params) :
  retry_params p = p <->
  channels p = [("A1", "EDA")] /\ macAddress p = None /\
  file_name_prefix p = "BITALINO" /\ print_sample_log p = false.
Proof.
  destruct p as [rt chs sr ns pl mac sv pre lg]. unfold retry_params. simpl.
  split.
  - intros H. inversion H. auto.
  - intros [-> [-> [-> ->]]]. reflexivity.
Qed.

End Restart.

(** C2, at a call with channels [{'A2': 'ECG'}], an address, a file prefix
    and the sample log, whose first [read] raises the busy message: the
    restart runs with channels [{'A1': 'EDA'}], no address, the prefix
    ['BITALINO'] and no log; the session returned holds the raw samples of
    A1 under ['EDA'] and the file is named after the default prefix. *)
Theorem restart_drops_parameters :
  let p := mkParams 0 [("A2", "ECG")] 100 1 false (Some "00:21:08:35:14:75")
             true "SUBJECT1" true in
  let w := mkScript None
             [Raise (mkExc Exception "The device is not idle.");
              Ret (batch [[0; 0; 0; 0; 0; 512]])] 0 in
  retry_params p =
    mkParams 0 [("A1", "EDA")] 100 1 false None true "BITALINO" false /\
  retry_params p <> p /\
  fst (start_aquisition 4 p (initial_state w)) =
    Ret ("01-01-2024-000000", [("EDA", IntArr [512])]) /\
  map (fun ev => match ev with ToCsv path _ => path | _ => "" end)
      (trace (snd (start_aquisition 4 p (initial_state w)))) =
    ["data/bitalino/BITALINO_AQ_FS_100_TS_01-01-2024-000000.csv"].
Proof.
  cbv zeta. split; [reflexivity|]. split; [discriminate|].
  split; vm_compute; reflexivity.
Qed.

(** ** Concrete runs *)


(** C4 as stated fails: when the first [read] raises (here the lost
    communication message), the session ends with an empty dictionary and
    the file written has no column, though one sensor was requested. *)
Lemma no_batch_no_column :
  let p := mkParams 0 [("A1", "EDA")] 100 1 false (Some "00:21:08:35:14:75")
             true "BITALINO" false in
  let w := mkScript None
             [Raise (mkExc Exception
                       "The computer lost communication with the device.")]
             0 in
  csv_files (trace (snd (start_aquisition 4 p (initial_state w)))) =
    [mkCsvFile [] []] /\
  distinct (dict_values (channels p)) = ["EDA"].
Proof. cbv zeta. split; vm_compute; reflexivity. Qed.

(** *** The statements at concrete inputs *)

Lemma select_channels_invalid_witness :
  Forall (fun k => In k ["A1"; "A2"; "A3"; "A4"; "A5"; "A6"]) ["A1"; "A3"] /\
  ~ In "B7" ["A1"; "A2"; "A3"; "A4"; "A5"; "A6"] /\
  _select_channels (["A1"; "A3"] ++ "B7" :: ["A2"])
    (initial_state (mkScript None [] 0)) =
  (Raise (mkExc Exception
            ("[Invalid channel] : " ++ "B7" ++
             ". Select from accepted channel values : A1, A2, A3, A4, A5, A6")),
   with_selected_channels (channel_indices ["A1"; "A3"])
     (initial_state (mkScript None [] 0))).
Proof.
  assert (Forall (fun k => In k ["A1"; "A2"; "A3"; "A4"; "A5"; "A6"])
                 ["A1"; "A3"]) as H1.
  { repeat (apply Forall_cons || apply Forall_nil); simpl; tauto. }
  assert (~ In "B7" ["A1"; "A2"; "A3"; "A4"; "A5"; "A6"]) as H2.
  { simpl. intuition discriminate. }
  split; [exact H1|]. split; [exact H2|].
  apply (select_channels_invalid ["A1"; "A3"] ["A2"] "B7"
           (initial_state (mkScript None [] 0)) H1 H2).
Defined.


Lemma csv_has_one_column_per_label_witness :
  let p := mkParams 0 [("A1", "EDA"); ("A2", "ECG")] 100 1 false
             (Some "00:21:08:35:14:75") true "BITALINO" false in
  let d := [("EDA", IntArr [512]); ("ECG", FloatArr [0%float])] in
  let s := mkState
             (mkManager true
                (mkDeviceState "00:21:08:35:14:75" [0; 1] 100 true) 0 [])
             (mkFrame [("A1", "EDA"); ("A2", "ECG")] (Some 0%float)
                (Some "01-01-2024-000000") (Some d) false)
             [] (mkScript None [] 0) in
  collected_data_in_this_session (frame s) = Some d /\
  dict_keys d = distinct (dict_values (l_channels (frame s))) /\
  finish p s = (fst (finish p s), snd (finish p s)) /\
  exists evs,
    trace (snd (finish p s)) = trace s ++ evs /\
    (forall file, In file (csv_files evs) ->
       csv_header file = distinct (dict_values (l_channels (frame s))) /\
       Forall (fun rec => List.length rec = List.length (csv_header file))
              (csv_records file)) /\
    (forall v, fst (finish p s) = Ret v -> save_to_file p = true ->
               exists file, csv_files evs = [file]).
Proof.
  intros p d s. split; [reflexivity|]. split; [reflexivity|].
  split; [apply surjective_pairing|].
  apply (csv_has_one_column_per_label p s (snd (finish p s))
           (fst (finish p s)) d eq_refl eq_refl (surjective_pairing _)).
Defined.



(** The run of the last two statements, computed: one frame is written,
    it is the line [[[512]]], and the receiver decodes it. *)
Example raw_frame_decoded :
  let p := mkParams 0 [("A1", "RAW")] 100 1 true (Some "00:21:08:35:14:75")
             false "BITALINO" false in
  let s := initial_state
             (mkScript None [Ret (batch [[0; 0; 0; 0; 0; 512]])] 0) in
  stdin_writes (trace (snd (start_aquisition 4 p s))) =
    [("[[512]]" ++ newline)%string] /\
  receive (parse_pynum (fun _ => None)) ("[[512]]" ++ newline) =
    (Some [[PyInt 512]], "").
Proof. cbv zeta. split; vm_compute; reflexivity. Qed.

(** * Further properties of the code *)

(** ** What a batch leaves in the session *)

Lemma store_result (sensor : string) (data : ndarray) (d : Session) :
  store sensor data d =
  (Ret tt, dict_set sensor (stored (dict_get sensor d) data) d).
Proof.
  unfold store, stored, bind, get, modify.
  destruct (dict_get sensor d) as [old|]; [|reflexivity].
  destruct (0 <? np_len old)%nat; reflexivity.
Qed.

Lemma convert_store_step_result (i : nat) (sensor : string) (rd : IntMatrix)
  (d d1 : Session) :
  (_sensor_data <- convert sensor rd i ;; store sensor _sensor_data) d =
  (Ret tt, d1) ->
  exists raw,
    column rd (COLUMN_OFFSET + i) = Ret raw /\
    d1 = dict_set sensor (stored (dict_get sensor d) (converted sensor raw)) d.
Proof.
  unfold bind at 1. rewrite convert_spec.
  destruct (column rd (COLUMN_OFFSET + i)) as [raw| |]; try discriminate.
  rewrite store_result. intros H; inversion H; subst. eauto.
Qed.

Lemma convert_store_loop_others (rd : IntMatrix)
  (items : list (nat * (string * string))) :
  forall d d',
  for_each items (fun '(i, (ch, sensor)) =>
    _sensor_data <- convert sensor rd i ;; store sensor _sensor_data) d =
  (Ret tt, d') ->
  forall k, ~ In k (map (fun x => snd (snd x)) items) ->
            dict_get k d' = dict_get k d.
Proof.
  induction items as [|[i [ch sensor]] items IH]; intros d d' Hrun k Hk.
  - cbn in Hrun. now inversion Hrun.
  - cbn [for_each] in Hrun. unfold bind at 1 in Hrun.
    destruct ((_sensor_data <- convert sensor rd i ;;
               store sensor _sensor_data) d) as [[[]| |] d1] eqn:Hstep;
      try discriminate.
    apply convert_store_step_result in Hstep as [raw [_ ->]].
    simpl in Hk. rewrite (IH _ _ Hrun k) by tauto.
    apply dict_get_set_other. intros ->. tauto.
Qed.

Lemma convert_store_loop_values (rd : IntMatrix)
  (items : list (nat * (string * string))) :
  NoDup (map (fun x => snd (snd x)) items) ->
  forall d d',
  for_each items (fun '(i, (ch, sensor)) =>
    _sensor_data <- convert sensor rd i ;; store sensor _sensor_data) d =
  (Ret tt, d') ->
  forall i ch sensor, In (i, (ch, sensor)) items ->
  exists raw,
    column rd (COLUMN_OFFSET + i) = Ret raw /\
    dict_get sensor d' =
    Some (stored (dict_get sensor d) (converted sensor raw)).
Proof.
  induction items as [|[i0 [ch0 sensor0]] items IH];
    intros Hnd d d' Hrun i ch sensor Hin; [destruct Hin|].
  cbn [for_each] in Hrun. unfold bind at 1 in Hrun.
  destruct ((_sensor_data <- convert sensor0 rd i0 ;;
             store sensor0 _sensor_data) d) as [[[]| |] d1] eqn:Hstep;
    try discriminate.
  apply convert_store_step_result in Hstep as [raw [Hcol ->]].
  cbn [map snd] in Hnd. inversion Hnd as [|? ? Hnotin Hnd']; subst.
  destruct Hin as [Heq|Hin].
  - inversion Heq; subst. exists raw. split; [exact Hcol|].
    rewrite (convert_store_loop_others rd items _ _ Hrun sensor Hnotin).
    apply dict_get_set_same.
  - destruct (IH Hnd' _ _ Hrun i ch sensor Hin) as [raw' [Hcol' Hget]].
    exists raw'. split; [exact Hcol'|]. rewrite Hget.
    rewrite dict_get_set_other; [reflexivity|].
    intros ->. apply Hnotin.
    apply (in_map (fun x : nat * (string * string) => snd (snd x))) in Hin.
    exact Hin.
Qed.

Lemma enumerate_In_from {A} (l : list A) :
  forall (k i : nat) (x : A),
  nth_error l i = Some x ->
  In ((k + i)%nat, x) (combine (seq k (List.length l)) l).
Proof.
  induction l as [|y l IH]; intros k i x Hnth.
  - destruct i; discriminate.
  - destruct i as [|i]; simpl in Hnth.
    + inversion Hnth; subst. left. now rewrite Nat.add_0_r.
    + right. replace (k + S i)%nat with (S k + i)%nat by lia. now apply IH.
Qed.

(** X1: with pairwise distinct sensor labels, a batch that is stored puts,
    under the label of the channel at position [i], the converted column
    [5 + i] of the batch, after the samples the label already had; the
    other keys of the session keep their arrays. *)
Theorem batch_is_appended (chs : dict string) (rd : IntMatrix)
  (d d' : Session) :
  NoDup (dict_values chs) ->
  convert_and_store chs rd d = (Ret tt, d') ->
  (forall i ch sensor, nth_error chs i = Some (ch, sensor) ->
     exists raw,
       column rd (COLUMN_OFFSET + i) = Ret raw /\
       dict_get sensor d' =
       Some (stored (dict_get sensor d) (converted sensor raw))) /\
  (forall k, ~ In k (dict_values chs) -> dict_get k d' = dict_get k d).
Proof.
  intros Hnd Hrun. unfold convert_and_store, enumerate in Hrun. split.
  - intros i ch sensor Hnth.
    apply (convert_store_loop_values rd
             (combine (seq 0 (List.length chs)) chs)) with (ch := ch) (d := d);
      [now rewrite enumerate_labels_from | exact Hrun |].
    exact (enumerate_In_from chs 0 i (ch, sensor) Hnth).
  - intros k Hk.
    apply (convert_store_loop_others rd
             (combine (seq 0 (List.length chs)) chs) _ _ Hrun).
    now rewrite enumerate_labels_from.
Qed.

Lemma batch_is_appended_witness :
  let chs := [("A1", "ECG"); ("A3", "RAW")] in
  let rd := batch [[7; 0; 0; 0; 0; 512; 33]; [8; 0; 0; 0; 0; 1023; 34]] in
  let d := [("RAW", IntArr [31; 32]); ("OLD", IntArr [1])] in
  let d' := snd (convert_and_store chs rd d) in
  NoDup (dict_values chs) /\
  convert_and_store chs rd d = (Ret tt, d') /\
  (forall i ch sensor, nth_error chs i = Some (ch, sensor) ->
     exists raw,
       column rd (COLUMN_OFFSET + i) = Ret raw /\
       dict_get sensor d' =
       Some (stored (dict_get sensor d) (converted sensor raw))) /\
  (forall k, ~ In k (dict_values chs) -> dict_get k d' = dict_get k d).
Proof.
  intros chs rd d d'.
  assert (NoDup (dict_values chs)) as H1.
  { repeat constructor; simpl; intuition discriminate. }
  assert (convert_and_store chs rd d = (Ret tt, d')) as H2.
  { vm_compute. reflexivity. }
  split; [exact H1|]. split; [exact H2|].
  exact (batch_is_appended chs rd d d' H1 H2).
Defined.

(** ** Channel names and indices *)

Lemma get_key_In (d : dict Z) (v : Z) (k : string) :
  get_key d v = Some k -> In (k, v) d.
Proof.
  unfold get_key. induction d as [|[k0 v0] d IH]; simpl; [discriminate|].
  destruct (Z.eqb_spec v0 v) as [->|Hne].
  - intros H; inversion H; subst. now left.
  - intros H. right. now apply IH.
Qed.

Lemma dict_get_In_pair {V} (k : string) (v : V) (d : dict V) :
  dict_get k d = Some v -> In (k, v) d.
Proof.
  induction d as [|[k0 v0] d IH]; simpl; [discriminate|].
  destruct (String.eqb_spec k k0) as [->|Hne].
  - intros H; inversion H; subst. now left.
  - intros H. right. now apply IH.
Qed.

Lemma get_key_of_lookup (d : dict Z) (k : string) (v : Z) :
  NoDup (dict_keys d) ->
  NoDup (dict_values d) ->
  dict_get k d = Some v -> get_key d v = Some k.
Proof.
  intros Hk Hv.
  induction d as [|[k0 v0] d IH]; [discriminate|].
  cbn [dict_keys dict_values map fst snd] in Hk, Hv.
  inversion Hk as [|? ? Hk0 Hk']; inversion Hv as [|? ? Hv0 Hv']; subst.
  unfold get_key. cbn [dict_get filter snd].
  destruct (String.eqb_spec k k0) as [->|Hne].
  - intros H; inversion H; subst. now rewrite Z.eqb_refl.
  - intros Hget. destruct (Z.eqb_spec v0 v) as [->|Hnv].
    + exfalso. apply Hv0. apply dict_get_In_pair in Hget.
      apply (in_map snd) in Hget. exact Hget.
    + apply (IH Hk' Hv' Hget).
Qed.

(** X2: in a dictionary whose values are pairwise distinct, [get_key] is
    the inverse of the lookup: [get_key(d, v)] is [k] exactly when [d[k]]
    is [v]. *)
Theorem get_key_inverts_lookup (d : dict Z) (k : string) (v : Z) :
  NoDup (dict_keys d) ->
  NoDup (dict_values d) ->
  (dict_get k d = Some v <-> get_key d v = Some k).
Proof.
  intros Hk Hv. split.
  - now apply get_key_of_lookup.
  - intros Hget. apply dict_get_of_In; [exact Hk|]. now apply get_key_In.
Qed.

Lemma acq_channels_keys : NoDup (dict_keys _ACQ_CHANNELS).
Proof. repeat constructor; simpl; intuition discriminate. Qed.

Lemma acq_channels_values : NoDup (dict_values _ACQ_CHANNELS).
Proof. repeat constructor; simpl; intuition discriminate. Qed.

Lemma get_key_inverts_lookup_witness :
  NoDup (dict_keys _ACQ_CHANNELS) /\
  NoDup (dict_values _ACQ_CHANNELS) /\
  (dict_get "A3" _ACQ_CHANNELS = Some 2 <->
   get_key _ACQ_CHANNELS 2 = Some "A3").
Proof.
  split; [exact acq_channels_keys|]. split; [exact acq_channels_values|].
  exact (get_key_inverts_lookup _ACQ_CHANNELS "A3" 2 acq_channels_keys
           acq_channels_values).
Defined.

(** [get_key] finds nothing exactly for a value the dictionary lacks. *)
Lemma get_key_None (d : dict Z) (v : Z) :
  get_key d v = None <-> ~ In v (dict_values d).
Proof.
  unfold get_key. induction d as [|[k0 v0] d IH]; simpl.
  - split; [intros _ [] | reflexivity].
  - destruct (Z.eqb_spec v0 v) as [->|Hne].
    + split; [discriminate | intros H; exfalso; apply H; now left].
    + rewrite IH. split; [intros H [He|Hi]; congruence | tauto].
Qed.

Section ChannelSelection.
Context {W : Type} {E : Env W}.

Lemma select_channels_loop_valid (chs : list string) :
  Forall (fun k => In k (dict_keys _ACQ_CHANNELS)) chs ->
  forall (acc : list Z) (s : @State W),
  for_each chs (fun c =>
    match dict_get c _ACQ_CHANNELS with
    | Some idx =>
        put_device_state
          (fun d => mkDeviceState (MAC d) (selected_channels d ++ [idx])
                      (sampling_rate d) (connected d))
    | None =>
        raise (mkExc Exception
                 ("[Invalid channel] : " ++ c ++
                  ". Select from accepted channel values : A1, A2, A3, A4, A5, A6"))
    end) (with_selected_channels acc s) =
  (Ret tt, with_selected_channels (acc ++ channel_indices chs) s).
Proof.
  induction 1 as [|k chs Hk _ IH]; intros acc s.
  - cbn. now rewrite app_nil_r.
  - cbn [for_each]. apply dict_get_In in Hk as [idx Hidx].
    unfold bind at 1. rewrite Hidx.
    change (put_device_state _ (with_selected_channels acc s))
      with (Ret tt, with_selected_channels (acc ++ [idx]) s).
    cbv beta iota. rewrite IH. unfold channel_indices. cbn [flat_map].
    rewrite Hidx. now rewrite <- app_assoc.
Qed.

Lemma channel_names_of_indices (chs : list string) :
  Forall (fun k => In k (dict_keys _ACQ_CHANNELS)) chs ->
  map (get_key _ACQ_CHANNELS) (channel_indices chs) = map Some chs.
Proof.
  induction 1 as [|k chs Hk _ IH]; [reflexivity|].
  unfold channel_indices in *. cbn [flat_map map].
  apply dict_get_In in Hk as [idx Hidx]. rewrite Hidx. cbn [app map].
  rewrite IH. f_equal.
  exact (get_key_of_lookup _ k idx acq_channels_keys acq_channels_values Hidx).
Qed.

(** X3: when every name is one of A1..A6, [_select_channels] returns, the
    stored selection is replaced by the indices of the names in the order
    given, and [get_key] gives back, for these indices, the names asked
    for (what line 195 prints). *)
Theorem select_channels_valid (chs : list string) (s : @State W) :
  Forall (fun k => In k ["A1"; "A2"; "A3"; "A4"; "A5"; "A6"]) chs ->
  _select_channels chs s =
    (Ret tt, with_selected_channels (channel_indices chs) s) /\
  List.length (channel_indices chs) = List.length chs /\
  map (get_key _ACQ_CHANNELS) (channel_indices chs) = map Some chs.
Proof.
  intros Hchs. split; [|split].
  - unfold _select_channels. unfold bind at 1.
    change (put_device_state _ s) with (Ret tt, with_selected_channels [] s).
    cbv beta iota.
    exact (select_channels_loop_valid chs Hchs [] s).
  - rewrite <- (length_map (get_key _ACQ_CHANNELS)).
    rewrite (channel_names_of_indices chs Hchs). apply length_map.
  - exact (channel_names_of_indices chs Hchs).
Qed.

End ChannelSelection.

Lemma select_channels_valid_witness :
  let s := initial_state (mkScript None [] 0) in
  Forall (fun k => In k ["A1"; "A2"; "A3"; "A4"; "A5"; "A6"]) ["A4"; "A1"] /\
  _select_channels ["A4"; "A1"] s =
    (Ret tt, with_selected_channels (channel_indices ["A4"; "A1"]) s) /\
  List.length (channel_indices ["A4"; "A1"]) = List.length ["A4"; "A1"] /\
  map (get_key _ACQ_CHANNELS) (channel_indices ["A4"; "A1"]) =
    map Some ["A4"; "A1"].
Proof.
  intros s.
  assert (Forall (fun k => In k ["A1"; "A2"; "A3"; "A4"; "A5"; "A6"])
                 ["A4"; "A1"]) as H1.
  { repeat (apply Forall_cons || apply Forall_nil); simpl; tauto. }
  split; [exact H1|].
  exact (select_channels_valid ["A4"; "A1"] s H1).
Defined.

(** ** [connect] with an address *)

Section Connect.
Context {W : Type} {E : Env W}.

Ltac connect_unfold :=
  unfold connect, try_except, bind, call, ret, modify, get_device,
    get_device_state, put_device_state, get, raise, lift_outcome, getattr,
    device_state_class; simpl.

(** X4: with an address and SDK calls that return, [connect] returns
    [True]; the address is stored, [connected] is true, the failure counter
    is zero, and the selection and the sampling rate are untouched. *)
Theorem connect_succeeds (a : string) (timeout : Z) (print_state : bool)
  (s : @State W) (v : string) (w1 w2 w3 : W) :
  BITalino a timeout (world s) = (Ret tt, w1) ->
  device_version w1 = (Ret v, w2) ->
  (if print_state then exists st, device_state_call w2 = (Ret st, w3)
   else w3 = w2) ->
  connect (Some a) timeout print_state s = (Ret true, connected_to a s w3).
Proof.
  intros Hopen Hver Hst. connect_unfold.
  rewrite Hopen; simpl. rewrite Hver; simpl.
  destruct print_state.
  - destruct Hst as [st Hst]. simpl. rewrite Hst. reflexivity.
  - subst w3. reflexivity.
Qed.

(** X5: when an SDK call of [connect] raises an exception that
    [except Exception] catches, [connect] raises an [Exception] whose
    message is the original one behind [[Connection Error] : ]; one more
    failure is counted, [connected] is false, the address, the selection
    and the sampling rate are as before; the device handle is assigned
    only when the constructor returned. *)
Theorem connect_failure_is_tagged (a : string) (timeout : Z)
  (print_state : bool) (s : @State W) (e : PyExc) (w : W) (opened : bool) :
  sdk_fails a timeout print_state (world s) e w opened ->
  is_Exception e = true ->
  connect (Some a) timeout print_state s =
  (Raise (mkExc Exception ("[Connection Error] : " ++ exc_str e)),
   connection_failed
     (mkState (mkManager (opened || device (mgr s)) (device_state (mgr s))
                 (connection_failed_counter (mgr s)) (collected_data (mgr s)))
        (frame s) (trace s) w)).
Proof.
  intros Hfail Hexc.
  destruct Hfail as [[Hopen ->]|[[w1 [Hopen [Hver ->]]]|
                     [w1 [v [w2 [Hopen [Hver [-> [Hst ->]]]]]]]]];
    connect_unfold.
  - rewrite Hopen; simpl. rewrite Hexc. destruct s as [[dv ds c cd] f t w0].
    reflexivity.
  - rewrite Hopen; simpl. rewrite Hver; simpl. rewrite Hexc. reflexivity.
  - rewrite Hopen; simpl. rewrite Hver; simpl. rewrite Hst; simpl.
    rewrite Hexc. reflexivity.
Qed.

(** X6: a [KeyboardInterrupt] during an SDK call of [connect] is not
    caught: it leaves [connect] as it is, no failure is counted and
    [connected] is not changed. *)
Theorem connect_interrupt_passes (a : string) (timeout : Z)
  (print_state : bool) (s : @State W) (e : PyExc) (w : W) (opened : bool) :
  sdk_fails a timeout print_state (world s) e w opened ->
  is_Exception e = false ->
  connect (Some a) timeout print_state s =
  (Raise e,
   mkState (mkManager (opened || device (mgr s)) (device_state (mgr s))
              (connection_failed_counter (mgr s)) (collected_data (mgr s)))
     (frame s) (trace s) w).
Proof.
  intros Hfail Hexc.
  destruct Hfail as [[Hopen ->]|[[w1 [Hopen [Hver ->]]]|
                     [w1 [v [w2 [Hopen [Hver [-> [Hst ->]]]]]]]]];
    connect_unfold.
  - rewrite Hopen; simpl. rewrite Hexc. destruct s as [[dv ds c cd] f t w0].
    reflexivity.
  - rewrite Hopen; simpl. rewrite Hver; simpl. rewrite Hexc. reflexivity.
  - rewrite Hopen; simpl. rewrite Hver; simpl. rewrite Hst; simpl.
    rewrite Hexc. reflexivity.
Qed.

End Connect.

Lemma connect_succeeds_witness :
  let s := initial_state (mkScript None [] 0) in
  BITalino "20:16:07:18:13:96" 5 (world s) = (Ret tt, world s) /\
  device_version (world s) = (Ret "BITalino_v5.2", world s) /\
  (exists st, device_state_call (world s) = (Ret st, world s)) /\
  connect (Some "20:16:07:18:13:96") 5 true s =
  (Ret true, connected_to "20:16:07:18:13:96" s (world s)).
Proof.
  intros s.
  assert (H1 : BITalino "20:16:07:18:13:96" 5 (world s) = (Ret tt, world s))
    by reflexivity.
  assert (H2 : device_version (world s) = (Ret "BITalino_v5.2", world s))
    by reflexivity.
  assert (H3 : exists st, device_state_call (world s) = (Ret st, world s))
    by (exists []; reflexivity).
  split; [exact H1|]. split; [exact H2|]. split; [exact H3|].
  exact (connect_succeeds "20:16:07:18:13:96" 5 true s "BITalino_v5.2"
           (world s) (world s) (world s) H1 H2 H3).
Defined.

Lemma connect_failure_is_tagged_witness :
  let s := initial_state (mkScript (Some "Host is down") [] 0) in
  let e := mkExc Exception "Host is down" in
  sdk_fails "20:16:07:18:13:96" 5 false (world s) e (world s) false /\
  is_Exception e = true /\
  fst (connect (Some "20:16:07:18:13:96") 5 false s) =
  Raise (mkExc Exception "[Connection Error] : Host is down").
Proof.
  intros s e.
  assert (H1 : sdk_fails "20:16:07:18:13:96" 5 false (world s) e (world s)
                 false) by (left; split; reflexivity).
  assert (H2 : is_Exception e = true) by reflexivity.
  split; [exact H1|]. split; [exact H2|].
  rewrite (connect_failure_is_tagged "20:16:07:18:13:96" 5 false s e
             (world s) false H1 H2).
  reflexivity.
Defined.

Lemma connect_interrupt_passes_witness :
  let s := mkState initial_manager (mkFrame [] None None None false) [] tt in
  let e := mkExc KeyboardInterrupt "" in
  @sdk_fails unit interrupted_env "20:16:07:18:13:96" 5 false tt e tt false /\
  is_Exception e = false /\
  @connect unit interrupted_env (Some "20:16:07:18:13:96") 5 false s =
  (Raise e, s).
Proof.
  intros s e.
  assert (H1 : @sdk_fails unit interrupted_env "20:16:07:18:13:96" 5 false
                 (world s) e tt false) by (left; split; reflexivity).
  assert (H2 : is_Exception e = false) by reflexivity.
  split; [exact H1|]. split; [exact H2|].
  exact (@connect_interrupt_passes unit interrupted_env "20:16:07:18:13:96" 5
           false s e tt false H1 H2).
Defined.

(** ** What a call of [start_aquisition] that returns leaves behind *)

Section Returns.
Context {W : Type} {E : Env W}.

Lemma disconnect_ret (s s' : @State W) :
  disconnect s = (Ret tt, s') ->
  connected (device_state (mgr s')) = false /\
  frame s' = frame s /\ trace s' = trace s /\
  collected_data (mgr s') = collected_data (mgr s).
Proof.
  unfold disconnect, get_device, put_device_state, call, bind, get, ret,
    raise, modify.
  destruct (device (mgr s)); [|discriminate].
  destruct (device_close (world s)) as [[[]| |] w]; try discriminate.
  intros H. inversion H; subst. simpl. auto.
Qed.

Lemma teardown_ret (p : Params) (s s' : @State W) :
  teardown p s = (Ret tt, s') ->
  connected (device_state (mgr s')) = false /\ frame s' = frame s.
Proof.
  intros Hrun.
  pose proof (teardown_locals_kept p s (Ret tt) s' I Hrun) as [Hf _].
  split; [|exact Hf].
  unfold teardown in Hrun.
  apply bind_ret_inv in Hrun as [[] [s1 [_ Hrun]]].
  apply bind_ret_inv in Hrun as [[] [s2 [_ Hrun]]].
  apply bind_ret_inv in Hrun as [[] [s3 [_ Hrun]]].
  now apply disconnect_ret in Hrun.
Qed.

Lemma save_session_ret (p : Params) (s s' : @State W) (stamp : string)
  (sess : Session) :
  save_session p s = (Ret (stamp, sess), s') ->
  collected_data_in_this_session (frame s) = Some sess /\
  sesssion_time_stamp (frame s) = Some stamp /\
  device_state (mgr s') = device_state (mgr s) /\
  collected_data (mgr s') = dict_set stamp sess (collected_data (mgr s)).
Proof.
  intros Hrun.
  unfold save_session, get_session, get_local, get_device_state, bind, get,
    ret, raise, lift_outcome, getattr, device_state_class, call, emit, modify
    in Hrun.
  destruct (collected_data_in_this_session (frame s)) as [d|];
    [|discriminate].
  destruct (sesssion_time_stamp (frame s)) as [st|]; [|discriminate].
  cbn [set_mgr frame mgr trace world] in Hrun.
  destruct (save_to_file p).
  - destruct (pd_DataFrame d) as [df| |]; try discriminate.
    match type of Hrun with
    | context [file_write ?a ?b ?c] =>
        destruct (file_write a b c) as [[[]| |] w]
    end; try discriminate.
    inversion Hrun; subst. simpl. auto.
  - inversion Hrun; subst. simpl. auto.
Qed.

Lemma finish_ret (p : Params) (s s' : @State W) (stamp : string)
  (sess : Session) :
  finish p s = (Ret (stamp, sess), s') ->
  connected (device_state (mgr s')) = false /\
  dict_get stamp (collected_data (mgr s')) = Some sess /\
  collected_data_in_this_session (frame s) = Some sess /\
  sesssion_time_stamp (frame s) = Some stamp.
Proof.
  intros Hrun. unfold finish in Hrun.
  apply bind_ret_inv in Hrun as [[] [s1 [Htd Hsave]]].
  apply teardown_ret in Htd as [Hc Hf].
  apply save_session_ret in Hsave as [Hd [Hst [Hds Hcd]]].
  rewrite Hds, Hcd, <- Hf. repeat split; auto.
  apply dict_get_set_same.
Qed.

(** X7: when a call of [start_aquisition] returns [(stamp, session)],
    after any number of restarts, the manager is disconnected
    ([device_state.connected] is false) and [collected_data[stamp]] is the
    returned session. *)
Theorem returned_session_is_recorded (fuel : nat) (p : Params)
  (s s' : @State W) (stamp : string) (sess : Session) :
  start_aquisition fuel p s = (Ret (stamp, sess), s') ->
  connected (device_state (mgr s')) = false /\
  dict_get stamp (collected_data (mgr s')) = Some sess.
Proof.
  revert p s. induction fuel as [|fuel IH]; intros p s Hrun;
    cbn [start_aquisition] in Hrun; [discriminate|].
  apply bind_ret_inv in Hrun as [[] [s1 [_ Hrun]]].
  apply bind_ret_inv in Hrun as [c [s2 [_ Hrun]]].
  apply bind_ret_inv in Hrun as [[] [s3 [_ Hrun]]].
  assert (forall s4, finish p s4 = (Ret (stamp, sess), s') ->
            connected (device_state (mgr s')) = false /\
            dict_get stamp (collected_data (mgr s')) = Some sess) as Hfin.
  { intros s4 H. apply finish_ret in H. tauto. }
  destruct (try_body fuel p s3) as [[[]|e|] s4]; [eauto| |discriminate].
  destruct (is_Exception e); [|eauto].
  destruct (String.eqb (exc_str e) CONTACTING_DEVICE); [eauto|].
  destruct (String.eqb (exc_str e) DEVICE_NOT_IDLE); [|eauto].
  apply bind_ret_inv in Hrun as [[] [s5 [_ Hrun]]].
  eapply IH; exact Hrun.
Qed.

End Returns.

Lemma returned_session_is_recorded_witness :
  let p := mkParams 0 [("A1", "RAW")] 100 1 false (Some "00:21:08:35:14:75")
             false "BITALINO" false in
  let s := initial_state
             (mkScript None [Ret (batch [[0; 0; 0; 0; 0; 512]])] 0) in
  let stamp := "01-01-2024-000000" in
  let sess := [("RAW", IntArr [512])] in
  start_aquisition 4 p s = (Ret (stamp, sess), snd (start_aquisition 4 p s)) /\
  connected (device_state (mgr (snd (start_aquisition 4 p s)))) = false /\
  dict_get stamp (collected_data (mgr (snd (start_aquisition 4 p s)))) =
  Some sess.
Proof.
  intros p s stamp sess.
  assert (H : start_aquisition 4 p s =
              (Ret (stamp, sess), snd (start_aquisition 4 p s)))
    by (vm_compute; reflexivity).
  split; [exact H|].
  exact (returned_session_is_recorded 4 p s (snd (start_aquisition 4 p s))
           stamp sess H).
Defined.

(** ** A request that cannot be set up *)

Section BadRequest.
Context {W : Type} {E : Env W}.

(** The selection raises before anything is bound or sent. *)
Lemma try_body_bad_request (fuel : nat) (p : Params) (s : @State W)
  (msg : string) :
  l_channels (frame s) = channels p ->
  bad_request p msg ->
  exists e s1,
    try_body fuel p s = (Raise e, s1) /\
    is_Exception e = true /\ exc_str e = msg /\
    frame s1 = frame s /\ world s1 = world s /\ trace s1 = trace s /\
    device (mgr s1) = device (mgr s).
Proof.
  intros Hch [[Hrate ->]|[Hrate [pre [c [post [Hkeys [Hpre [Hc ->]]]]]]]];
    unfold try_body; unfold bind at 1.
  - rewrite (proj2 (select_sampling_rate_cases _ s) Hrate).
    eexists _, s. repeat split; reflexivity.
  - rewrite (proj1 (select_sampling_rate_cases _ s) Hrate).
    unfold bind at 1, get_channels at 1. cbn [bind get ret frame
      with_sampling_rate set_mgr].
    rewrite Hch, Hkeys.
    unfold bind at 1, _select_channels. unfold bind at 1.
    change (put_device_state _ (with_sampling_rate (samplingRate p) s))
      with (Ret tt, with_selected_channels []
                      (with_sampling_rate (samplingRate p) s)).
    cbv beta iota.
    rewrite (select_channels_loop pre post c [] _ Hpre Hc).
    eexists _, _. repeat split; reflexivity.
Qed.

Lemma finish_needs_session (p : Params) (s : @State W)
  (v : string * Session) :
  collected_data_in_this_session (frame s) = None ->
  fst (finish p s) <> Ret v.
Proof.
  intros Hnone Hret. destruct v as [stamp sess].
  destruct (finish p s) as [r s'] eqn:Hrun. simpl in Hret. subst r.
  apply finish_ret in Hrun as [_ [_ [Hsome _]]]. congruence.
Qed.

Lemma connect_same_frame (a : option string) (timeout : Z)
  (print_state : bool) :
  stable (@any_state W) same_frame (connect a timeout print_state).
Proof.
  assert (forall s : @State W, same_frame s s) as Hr by reflexivity.
  assert (forall a b c : @State W, same_frame a b -> same_frame b c ->
            same_frame a c) as Ht.
  { unfold same_frame. intros x y z H1 H2. congruence. }
  assert (forall s s' : @State W, any_state s -> same_frame s s' ->
            any_state s') as Hk by (intros; exact I).
  assert (forall (s : @State W) w,
            same_frame s (mkState (mgr s) (frame s) (trace s) w)) as Hw
    by reflexivity.
  assert (forall f : @State W -> @State W,
            (forall s, frame (f s) = frame s) ->
            stable (@any_state W) same_frame (modify f)) as Hm.
  { intros f Hf. apply stable_modify. intros s _. apply Hf. }
  unfold connect.
  apply (stable_bind _ _ Ht Hk).
  - apply stable_try_except; auto.
    + apply (stable_bind _ _ Ht Hk).
      { destruct a; [apply stable_ret | apply stable_lift]; auto. }
      intros mac.
      apply (stable_bind _ _ Ht Hk); [apply stable_call; auto|]. intros _.
      apply (stable_bind _ _ Ht Hk); [apply Hm; reflexivity|]. intros _.
      apply (stable_bind _ _ Ht Hk); [apply stable_get_device; auto|].
      intros _.
      apply (stable_bind _ _ Ht Hk); [apply stable_call; auto|]. intros _.
      apply (stable_bind _ _ Ht Hk).
      { apply stable_if; [|apply stable_ret; auto].
        apply (stable_bind _ _ Ht Hk); [apply stable_get_device; auto|].
        intros _.
        apply (stable_bind _ _ Ht Hk); [apply stable_call; auto|]. intros _.
        apply stable_ret; auto. }
      intros _.
      apply (stable_bind _ _ Ht Hk); [apply Hm; reflexivity|]. intros _.
      apply (stable_bind _ _ Ht Hk); [apply Hm; reflexivity|]. intros _.
      apply Hm; reflexivity.
    + intros e.
      apply (stable_bind _ _ Ht Hk); [apply Hm; reflexivity|]. intros _.
      apply (stable_bind _ _ Ht Hk); [apply Hm; reflexivity|]. intros _.
      apply stable_raise; auto.
  - intros _. apply stable_get_device_state; auto.
Qed.

(** X8: with a sampling rate outside {1, 10, 100, 1000}, or with a channel
    name outside A1..A6, [start_aquisition] never returns a session,
    whatever the device and the rest of the world do: the exception of the
    selection is caught and printed, and the code after the [try] then
    reads locals that were never bound. *)
Theorem bad_request_never_returns (fuel : nat) (p : Params)
  (s : @State W) (msg : string) (v : string * Session) :
  bad_request p msg ->
  DEVICE_NOT_IDLE <> msg ->
  fst (start_aquisition fuel p s) <> Ret v.
Proof.
  intros Hbad Hidle. destruct fuel as [|fuel]; [discriminate|].
  intros Hret.
  destruct (start_aquisition (S fuel) p s) as [r s'] eqn:Hrun.
  simpl in Hret. subst r. cbn [start_aquisition] in Hrun.
  apply bind_ret_inv in Hrun as [[] [s1 [H1 Hrun]]].
  apply bind_ret_inv in Hrun as [c [s2 [H2 Hrun]]].
  apply bind_ret_inv in Hrun as [[] [s3 [H3 Hrun]]].
  assert (frame s3 = fresh_frame p) as Hf.
  { inversion H1; subst s1.
    unfold get_device_state, bind, get, lift_outcome in H2.
    assert (s2 = set_frame (fun _ => fresh_frame p) s) as ->.
    { cbn in H2. inversion H2. reflexivity. }
    destruct (negb c); [|inversion H3; reflexivity].
    apply bind_ret_inv in H3 as [b [s4 [Hc H3]]]. inversion H3; subst s4.
    apply (connect_same_frame _ _ _ _ _ _ I Hc). }
  destruct (try_body_bad_request fuel p s3 msg) as
    [e [s4 [Htry [Hexc [Hmsg [Hf4 _]]]]]]; [rewrite Hf; reflexivity | exact Hbad|].
  rewrite Htry, Hexc, Hmsg in Hrun.
  assert (fst (finish p s4) <> Ret v) as Hfin.
  { apply finish_needs_session. rewrite Hf4, Hf. reflexivity. }
  destruct (String.eqb msg CONTACTING_DEVICE);
    [rewrite Hrun in Hfin; now apply Hfin|].
  destruct (String.eqb msg DEVICE_NOT_IDLE) eqn:Heq.
  - apply String.eqb_eq in Heq. congruence.
  - rewrite Hrun in Hfin. now apply Hfin.
Qed.

End BadRequest.

Section BadRequestOutcome.
Context {W : Type} {E : Env W}.

(** X9: in a connected manager, with such a sampling rate or channel name,
    the exception that leaves [start_aquisition] is an [UnboundLocalError]:
    for [p] when a live plot was asked for; otherwise, once the device has
    been stopped and closed, for [collected_data_in_this_session].  The
    [[Invalid channel]] exception itself never reaches the caller. *)
Theorem bad_request_ends_in_unbound_local (fuel : nat) (p : Params)
  (s : @State W) (msg : string) :
  connected (device_state (mgr s)) = true ->
  device (mgr s) = true ->
  bad_request p msg ->
  DEVICE_NOT_IDLE <> msg ->
  teardown_returns (world s) ->
  fst (start_aquisition (S fuel) p s) =
  Raise (unbound_local (if show_live_plot p then "p"
                        else "collected_data_in_this_session")).
Proof.
  intros Hconn Hdev Hbad Hidle [w1 [w2 [w3 [Hsleep [Hstop Hclose]]]]].
  cbn [start_aquisition].
  unfold bind at 1, modify at 1. unfold bind at 1.
  unfold get_device_state at 1, bind at 1, get at 1, lift_outcome at 1.
  cbn [set_frame mgr]. rewrite Hconn.
  unfold getattr, device_state_class.
  cbv beta iota. unfold bind at 1. cbn [negb ret].
  destruct (try_body_bad_request fuel p
              (set_frame (fun _ => fresh_frame p) s) msg)
    as [e [s4 [Htry [Hexc [Hmsg [Hf4 [Hw4 [_ Hd4]]]]]]]];
    [reflexivity | exact Hbad|].
  rewrite Htry, Hexc, Hmsg. cbn [set_frame frame world mgr] in Hf4, Hw4, Hd4.
  assert (fst (finish p s4) =
          Raise (unbound_local (if show_live_plot p then "p"
                                else "collected_data_in_this_session")))
    as Hfin.
  { destruct s4 as [m4 f4 t4 w4]. cbn [frame world mgr] in Hf4, Hw4, Hd4.
    subst f4 w4. rewrite Hdev in Hd4.
    unfold finish, teardown, save_session, force_stop_aquisition,
      disconnect, get_p, get_session, get_local, get_device,
      put_device_state, call, bind, get, ret, raise, modify.
    destruct (show_live_plot p); [reflexivity|].
    simpl. rewrite Hsleep. simpl. rewrite ?Hd4. simpl. rewrite Hstop.
    simpl. rewrite ?Hd4. simpl. rewrite Hclose. reflexivity. }
  destruct (String.eqb msg CONTACTING_DEVICE); [exact Hfin|].
  destruct (String.eqb msg DEVICE_NOT_IDLE) eqn:Heq; [|exact Hfin].
  apply String.eqb_eq in Heq. congruence.
Qed.

End BadRequestOutcome.

Lemma bad_request_never_returns_witness :
  let p := mkParams 0 [("A7", "EDA")] 100 100 false
             (Some "00:21:08:35:14:75") false "BITALINO" false in
  let s := initial_state (mkScript None [] 0) in
  let msg := invalid_channel_msg "A7" in
  bad_request p msg /\ DEVICE_NOT_IDLE <> msg /\
  fst (start_aquisition 3 p s) <> Ret ("01-01-2024-000000", []).
Proof.
  intros p s msg.
  assert (H1 : bad_request p msg).
  { right. split; [simpl; tauto|]. exists [], "A7", [].
    repeat split; [constructor|].
    simpl. intros H. repeat destruct H as [H|H]; discriminate || exact H. }
  assert (H2 : DEVICE_NOT_IDLE <> msg) by discriminate.
  split; [exact H1|]. split; [exact H2|].
  exact (bad_request_never_returns 3 p s msg ("01-01-2024-000000", []) H1 H2).
Defined.

Lemma bad_request_ends_in_unbound_local_witness :
  let p := mkParams 0 [("A1", "EDA")] 50 100 false None false "BITALINO"
             false in
  let s := at_loop_start [] (mkScript None [] 0) in
  let msg := "'dict' object has no attribute 'sampling_rate'" in
  connected (device_state (mgr s)) = true /\
  device (mgr s) = true /\
  bad_request p msg /\ DEVICE_NOT_IDLE <> msg /\
  teardown_returns (world s) /\
  fst (start_aquisition 1 p s) =
  Raise (unbound_local "collected_data_in_this_session").
Proof.
  intros p s msg.
  assert (H1 : bad_request p msg).
  { left. split; [|reflexivity].
    simpl. intros H. repeat destruct H as [H|H]; discriminate || exact H. }
  assert (H2 : DEVICE_NOT_IDLE <> msg) by discriminate.
  assert (H3 : teardown_returns (world s)).
  { exists (world s), (world s), (world s). repeat split. }
  split; [reflexivity|]. split; [reflexivity|]. split; [exact H1|].
  split; [exact H2|]. split; [exact H3|].
  exact (bad_request_ends_in_unbound_local 0 p s msg eq_refl eq_refl H1 H2 H3).
Defined.

(** ** Acquisition without an address, and without a time limit *)

Section Acquisition.
Context {W : Type} {E : Env W}.

(** X10: in a manager that is not connected, [start_aquisition] without
    [macAddress] raises the [[Connection Error]] of the default address at
    once: no call reaches the SDK or the outside world, nothing is sent,
    and one more failed connection is counted. *)
Theorem acquisition_needs_an_address (fuel : nat) (p : Params)
  (s : @State W) :
  connected (device_state (mgr s)) = false ->
  macAddress p = None ->
  let r := start_aquisition (S fuel) p s in
  fst r = Raise (mkExc Exception
                   "[Connection Error] : 'dict' object has no attribute 'MAC'")
  /\ world (snd r) = world s /\ trace (snd r) = trace s
  /\ connection_failed_counter (mgr (snd r)) =
     connection_failed_counter (mgr s) + 1
  /\ connected (device_state (mgr (snd r))) = false.
Proof.
  intros Hconn Hmac r.
  assert (r = (Raise (mkExc Exception
                 "[Connection Error] : 'dict' object has no attribute 'MAC'"),
               connection_failed (set_frame (fun _ => fresh_frame p) s)))
    as ->.
  { subst r. cbn [start_aquisition].
    unfold bind at 1, modify at 1. unfold bind at 1.
    unfold get_device_state at 1, bind at 1, get at 1, lift_outcome at 1.
    cbn [set_frame mgr]. rewrite Hconn, Hmac.
    unfold getattr at 1, device_state_class.
    cbv beta iota. cbn [negb]. unfold bind at 1. unfold bind at 1.
    reflexivity. }
  cbn. auto.
Qed.

Lemma poll_once_no_timeout (p : Params) (s s' : @State W) (stop : bool) :
  runtime p <= 0 -> poll_once p s = (Ret stop, s') -> stop = false.
Proof.
  intros Hrun H. unfold poll_once in H.
  apply bind_ret_inv in H as [[] [s1 [_ H]]].
  apply bind_ret_inv in H as [rd [s2 [_ H]]].
  apply bind_ret_inv in H as [chs [s3 [_ H]]].
  apply bind_ret_inv in H as [[] [s4 [_ H]]].
  apply bind_ret_inv in H as [[] [s5 [_ H]]].
  apply bind_ret_inv in H as [[] [s6 [_ H]]].
  unfold timed_out in H.
  destruct (Z.ltb_spec 0 (runtime p)) as [Hlt|_]; [lia|].
  now inversion H.
Qed.

(** X11: with [runtime] zero (the default) or negative, the polling loop
    never ends by itself: however many iterations are run, the loop is not
    left by [break]; it ends only when an exception is raised. *)
Theorem no_runtime_no_break (fuel : nat) (p : Params) (s : @State W) :
  runtime p <= 0 ->
  fst (polling_loop fuel p s) <> Ret tt.
Proof.
  intros Hrun. revert s. induction fuel as [|fuel IH]; intros s.
  - discriminate.
  - cbn [polling_loop]. unfold bind.
    destruct (poll_once p s) as [[stop| |] s1] eqn:Hpoll; try discriminate.
    rewrite (poll_once_no_timeout p s s1 stop Hrun Hpoll). apply IH.
Qed.

End Acquisition.

Lemma acquisition_needs_an_address_witness :
  let s := initial_state (mkScript None [] 0) in
  let r := start_aquisition 1 default_params s in
  connected (device_state (mgr s)) = false /\
  macAddress default_params = None /\
  fst r = Raise (mkExc Exception
                   "[Connection Error] : 'dict' object has no attribute 'MAC'")
  /\ world (snd r) = world s /\ trace (snd r) = trace s
  /\ connection_failed_counter (mgr (snd r)) =
     connection_failed_counter (mgr s) + 1
  /\ connected (device_state (mgr (snd r))) = false.
Proof.
  intros s r. split; [reflexivity|]. split; [reflexivity|].
  exact (acquisition_needs_an_address 0 default_params s eq_refl eq_refl).
Defined.

Lemma no_runtime_no_break_witness :
  let p := default_params in
  let s := at_loop_start [("A1", "EDA")]
             (mkScript None [Ret (batch [[0; 0; 0; 0; 0; 512]])] 0) in
  runtime p <= 0 /\ fst (polling_loop 5 p s) <> Ret tt.
Proof.
  intros p s.
  assert (H : runtime p <= 0) by (simpl; lia).
  split; [exact H|].
  exact (no_runtime_no_break 5 p s H).
Defined.

(** ** The window [update_plot] draws *)

Lemma arange_length (a b : Z) : List.length (arange a b) = Z.to_nat (b - a).
Proof. unfold arange. now rewrite length_map, length_seq. Qed.

Lemma arange_nth (a b : Z) (k : nat) (x : Z) :
  nth_error (arange a b) k = Some x ->
  x = a + Z.of_nat k /\ (k < Z.to_nat (b - a))%nat.
Proof.
  unfold arange. intros H.
  assert (k < Z.to_nat (b - a))%nat as Hk.
  { assert (nth_error (map (fun k => a + Z.of_nat k)
                           (seq 0 (Z.to_nat (b - a)))) k <> None) as Hn
      by congruence.
    apply nth_error_Some in Hn. now rewrite length_map, length_seq in Hn. }
  split; [|exact Hk].
  rewrite nth_error_map, nth_error_seq in H.
  destruct (Nat.ltb_spec k (Z.to_nat (b - a))) as [_|Hge]; [|lia].
  simpl in H. now inversion H.
Qed.



(** ** The command line of the plot process *)

Section PlotProcess.
Context {W : Type} {E : Env W}.

(** X13: the command line [start_aquisition] starts the plot process with
    is read back by [liveplot.py]: with at least one channel, the script
    gets the stored sampling rate as [fs] and the sensor labels of the
    channels, in order, as [labels]; with no channel it raises
    [Missing arguments].  (The labels are sensor types, as they are after
    lines 190-193, so [shlex.split] gives one argument per label.) *)
Theorem plot_command_line_is_read_back (s s' : @State W) :
  Forall (fun l => In l _SENSOR_TYPES)
         (dict_values (l_channels (frame s))) ->
  launch_plot s = (Ret tt, s') ->
  exists args,
    trace s' = trace s ++ [Popen args] /\
    l_p (frame s') = true /\
    liveplot_init (child_argv args) =
    match dict_values (l_channels (frame s)) with
    | [] => Raise (mkExc Exception
                     "Missing arguments : sampling frequency, label1, label2, ...")
    | labels => Ret (sampling_rate (device_state (mgr s)), labels)
    end.
Proof.
  intros _ Hrun.
  unfold launch_plot, get_channels, get_device_state, bind, get, ret,
    lift_outcome, getattr, device_state_class, call, emit, modify in Hrun.
  match type of Hrun with
  | context [subprocess_Popen ?a ?w] =>
      destruct (subprocess_Popen a w) as [[[]| |] w1]; try discriminate;
      exists a
  end.
  inversion Hrun; subst s'. cbn [trace frame set_frame l_p].
  split; [reflexivity|]. split; [reflexivity|].
  unfold child_argv, liveplot_init. cbn [tl app List.length].
  destruct (dict_values (l_channels (frame s))) as [|l ls].
  - reflexivity.
  - cbn [List.length Nat.ltb Nat.leb]. now rewrite parse_int_str_of_Z.
Qed.

End PlotProcess.

Lemma plot_command_line_is_read_back_witness :
  let s := at_loop_start [("A1", "EDA"); ("A2", "ECG")] (mkScript None [] 0) in
  Forall (fun l => In l _SENSOR_TYPES)
         (dict_values (l_channels (frame s))) /\
  launch_plot s = (Ret tt, snd (launch_plot s)) /\
  exists args,
    trace (snd (launch_plot s)) = trace s ++ [Popen args] /\
    l_p (frame (snd (launch_plot s))) = true /\
    liveplot_init (child_argv args) = Ret (100, ["EDA"; "ECG"]).
Proof.
  intros s.
  assert (H1 : Forall (fun l => In l _SENSOR_TYPES)
                 (dict_values (l_channels (frame s)))).
  { repeat (apply Forall_cons || apply Forall_nil); simpl; tauto. }
  assert (H2 : launch_plot s = (Ret tt, snd (launch_plot s)))
    by reflexivity.
  split; [exact H1|]. split; [exact H2|].
  exact (plot_command_line_is_read_back s (snd (launch_plot s)) H1 H2).
Defined.

(** ** A stream of frames of raw samples *)

Section RawStream.
Context {W : Type} {E : Env W}.

(** X14: frames of integer samples written one after the other are
    decoded by the loop of [liveplot.py] exactly and in order, one call of
    [update_plot] per line, whatever way floats are read, as long as
    [update_plot] returns and the loop runs for as many turns as there are
    frames. *)
Theorem raw_frames_arrive_in_order (parse_float : string -> option float)
  (redraws : list (list pynum) -> bool) (fs : list (list (list Z)))
  (fuel : nat) :
  Forall (fun f => redraws (raw_frame f) = true) fs ->
  (List.length fs <= fuel)%nat ->
  liveplot_main (parse_pynum parse_float) redraws fuel
    (stream num_repr (map raw_frame fs)) = map raw_frame fs.
Proof.
  intros Hre Hfuel. unfold stream.
  apply liveplot_main_frames.
  - apply Forall_forall. intros f Hf.
    apply in_map_iff in Hf as [m [<- _]]. unfold raw_frame.
    apply Forall_forall. intros row Hrow.
    apply in_map_iff in Hrow as [r [<- _]].
    apply Forall_forall. intros x Hx.
    apply in_map_iff in Hx as [z [<- _]]. apply int_reads_back.
  - apply Forall_forall. intros f Hf.
    apply in_map_iff in Hf as [m [<- Hm]].
    rewrite Forall_forall in Hre. now apply Hre.
  - now rewrite length_map.
Qed.

End RawStream.

Lemma raw_frames_arrive_in_order_witness :
  let fs := [[[512]]; [[512; 498]]; [[512; 498; 17]]] in
  Forall (fun f => (fun _ => true) (raw_frame f) = true) fs /\
  (List.length fs <= 3)%nat /\
  liveplot_main (parse_pynum (fun _ => None)) (fun _ => true) 3
    (stream (@num_repr Script script_env) (map raw_frame fs)) =
  map raw_frame fs.
Proof.
  intros fs.
  assert (H1 : Forall (fun f => (fun _ : list (list pynum) => true)
                                  (raw_frame f) = true) fs)
    by (repeat constructor).
  assert (H2 : (List.length fs <= 3)%nat) by (simpl; lia).
  split; [exact H1|]. split; [exact H2|].
  exact (@raw_frames_arrive_in_order Script script_env (fun _ => None)
           (fun _ => true) fs 3 H1 H2).
Defined.

(** ** The sensor types after the check *)

Lemma normalised_keys (chs : dict string) :
  dict_keys (normalised chs) = dict_keys chs.
Proof.
  unfold dict_keys, normalised. rewrite map_map. apply map_ext.
  now intros [ch sensor].
Qed.

Lemma normalised_get (chs : dict string) (ch sensor : string) :
  dict_get ch chs = Some sensor ->
  dict_get ch (normalised chs) =
  Some (if valid_sensor sensor then sensor else "RAW").
Proof.
  induction chs as [|[k v] chs IH]; [discriminate|].
  cbn [normalised map dict_get].
  destruct (String.eqb ch k); [|exact IH].
  intros H. inversion H; subst. reflexivity.
Qed.

Lemma normalised_valid (chs : dict string) :
  Forall (fun l => In l _SENSOR_TYPES) (dict_values (normalised chs)).
Proof.
  induction chs as [|[k v] chs IH]; [constructor|].
  cbn [normalised map dict_values snd]. constructor; [|exact IH].
  destruct (existsb (String.eqb v) _SENSOR_TYPES) eqn:Hv.
  - now apply existsb_eqb_In.
  - simpl. tauto.
Qed.

Section SensorTypeCheck.
Context {W : Type} {E : Env W}.

(** X15: the check of lines 190-193 returns and leaves in [channels] the
    same channel names in the same order, each with its own sensor type
    when that is EDA, ECG or RAW and with RAW otherwise; afterwards every
    sensor type of [channels] is one of the three. *)
Theorem sensor_types_after_check (s : @State W) :
  NoDup (dict_keys (l_channels (frame s))) ->
  exists s',
    check_sensor_types s = (Ret tt, s') /\
    dict_keys (l_channels (frame s')) = dict_keys (l_channels (frame s)) /\
    (forall ch sensor,
       dict_get ch (l_channels (frame s)) = Some sensor ->
       dict_get ch (l_channels (frame s')) =
       Some (if valid_sensor sensor then sensor else "RAW")) /\
    Forall (fun l => In l _SENSOR_TYPES)
           (dict_values (l_channels (frame s'))).
Proof.
  intros Hnd. eexists. split; [apply check_sensor_types_normalises, Hnd|].
  cbn [with_channels set_frame frame l_channels].
  split; [apply normalised_keys|].
  split; [intros ch sensor; apply normalised_get | apply normalised_valid].
Qed.

End SensorTypeCheck.

Lemma sensor_types_after_check_witness :
  let s := at_loop_start [("A1", "EDA"); ("A2", "EMG"); ("A3", "ecg")]
             (mkScript None [] 0) in
  NoDup (dict_keys (l_channels (frame s))) /\
  exists s',
    check_sensor_types s = (Ret tt, s') /\
    dict_keys (l_channels (frame s')) = dict_keys (l_channels (frame s)) /\
    (forall ch sensor,
       dict_get ch (l_channels (frame s)) = Some sensor ->
       dict_get ch (l_channels (frame s')) =
       Some (if valid_sensor sensor then sensor else "RAW")) /\
    Forall (fun l => In l _SENSOR_TYPES)
           (dict_values (l_channels (frame s'))).
Proof.
  intros s.
  assert (H : NoDup (dict_keys (l_channels (frame s)))).
  { simpl. repeat constructor; simpl; intuition discriminate. }
  split; [exact H|].
  exact (sensor_types_after_check s H).
Defined.

(** ** What the flags of a call allow *)

Section Flags.
Context {W : Type} {E : Env W}.
Variables plot save : bool.

Notation ok := (allowed plot save).
Notation P0 := (@any_state W).
Notation R0 := (@trace_ext W ok).

Ltac bindf :=
  apply (stable_bind P0 R0 (trace_ext_trans ok) (trace_ext_keeps ok)).

Lemma quiet_modify (f : @State W -> @State W) :
  (forall s, trace (f s) = trace s) -> stable P0 R0 (modify f).
Proof. intros H. apply stable_modify. intros s _. now apply trace_ext_same. Qed.

Lemma allowed_emit (ev : Event) : ok ev -> stable P0 R0 (emit ev).
Proof. intros Hok. apply stable_modify. intros s _. exists [ev]. auto. Qed.

Lemma connect_allowed (a : option string) (timeout : Z) (print_state : bool) :
  stable P0 R0 (connect a timeout print_state).
Proof.
  unfold connect, put_device_state. bindf.
  - apply stable_try_except; try traces.
    + bindf. { destruct a; [apply stable_ret | apply stable_lift]; traces. }
      intros mac.
      bindf; [apply stable_call; traces|]. intros _.
      bindf; [apply quiet_modify; reflexivity|]. intros _.
      bindf; [apply stable_get_device; traces|]. intros _.
      bindf; [apply stable_call; traces|]. intros _.
      bindf.
      { apply stable_if; [|apply stable_ret; traces].
        bindf; [apply stable_get_device; traces|]. intros _.
        bindf; [apply stable_call; traces|]. intros _.
        apply stable_ret; traces. }
      intros _.
      bindf; [apply quiet_modify; reflexivity|]. intros _.
      bindf; [apply quiet_modify; reflexivity|]. intros _.
      apply quiet_modify; reflexivity.
    + intros e.
      bindf; [apply quiet_modify; reflexivity|]. intros _.
      bindf; [apply quiet_modify; reflexivity|]. intros _.
      apply stable_raise; traces.
  - intros _. apply stable_get_device_state; traces.
Qed.

Lemma select_sampling_rate_allowed (rate : Z) :
  stable P0 R0 (_select_sampling_rate rate).
Proof.
  unfold _select_sampling_rate, put_device_state.
  apply stable_if; [apply quiet_modify; reflexivity|].
  bindf; [apply stable_lift; traces|]. intros _.
  bindf; [apply stable_lift; traces|]. intros r.
  apply quiet_modify; reflexivity.
Qed.

Lemma select_channels_allowed (chs : list string) :
  stable P0 R0 (_select_channels chs).
Proof.
  unfold _select_channels, put_device_state. bindf.
  - apply quiet_modify; reflexivity.
  - intros _. apply stable_for_each; try traces. intros c.
    destruct (dict_get c _ACQ_CHANNELS).
    + apply quiet_modify; reflexivity.
    + apply stable_raise; traces.
Qed.

Lemma check_sensor_types_allowed : stable P0 R0 check_sensor_types.
Proof.
  unfold check_sensor_types.
  bindf; [apply stable_get_channels; traces|]. intros chs.
  apply stable_for_each; try traces. intros [ch sensor].
  apply stable_if; [apply stable_ret; traces|].
  apply quiet_modify; reflexivity.
Qed.

Lemma launch_plot_allowed : plot = true -> stable P0 R0 launch_plot.
Proof.
  intros Hplot. unfold launch_plot.
  bindf; [apply stable_get_channels; traces|]. intros chs.
  bindf; [apply stable_get_device_state; traces|]. intros rate.
  bindf; [apply stable_call; traces|]. intros _.
  bindf; [apply allowed_emit; exact Hplot|]. intros _.
  apply quiet_modify; reflexivity.
Qed.

Lemma send_plot_update_allowed : plot = true -> stable P0 R0 send_plot_update.
Proof.
  intros Hplot. unfold send_plot_update.
  bindf; [apply stable_get_device_state; traces|]. intros rate.
  bindf; [apply stable_get_local; traces|]. intros d.
  bindf; [apply stable_lift; traces|]. intros tmp.
  bindf; [apply stable_get_local; traces|]. intros _.
  bindf; [apply stable_call; traces|]. intros _.
  apply allowed_emit; exact Hplot.
Qed.

Lemma on_session_allowed {A} (m : M Session A) : stable P0 R0 (on_session m).
Proof.
  unfold on_session. bindf.
  - apply stable_get_local; traces.
  - intros d s r s' _ H. destruct (m d) as [r' d']. inversion H; subst.
    now apply trace_ext_same.
Qed.

Lemma poll_once_allowed (p : Params) :
  show_live_plot p = plot -> stable P0 R0 (poll_once p).
Proof.
  intros Hp. unfold poll_once.
  bindf; [apply stable_get_device; traces|]. intros _.
  bindf; [apply stable_call; traces|]. intros rd.
  bindf; [apply stable_get_channels; traces|]. intros chs.
  bindf; [apply on_session_allowed|]. intros _.
  bindf.
  { apply stable_if; [|apply stable_ret; traces].
    bindf; [apply stable_get_local; traces|]. intros d.
    bindf; [apply stable_lift; traces|]. intros _. apply stable_ret; traces. }
  intros _. bindf.
  { destruct (show_live_plot p) eqn:Hshow.
    - apply send_plot_update_allowed. congruence.
    - apply stable_ret; traces. }
  intros _. apply stable_timed_out; traces.
Qed.

Lemma polling_loop_allowed (p : Params) (fuel : nat) :
  show_live_plot p = plot -> stable P0 R0 (polling_loop fuel p).
Proof.
  intros Hp. induction fuel as [|fuel IH]; cbn [polling_loop].
  - intros s r s' _ H. inversion H; subst. apply trace_ext_refl.
  - bindf; [now apply poll_once_allowed|]. intros stop.
    destruct stop; [apply stable_ret; traces | exact IH].
Qed.

Lemma try_body_allowed (fuel : nat) (p : Params) :
  show_live_plot p = plot -> stable P0 R0 (try_body fuel p).
Proof.
  intros Hp. unfold try_body.
  bindf; [apply select_sampling_rate_allowed|]. intros _.
  bindf; [apply stable_get_channels; traces|]. intros chs.
  bindf; [apply select_channels_allowed|]. intros _.
  bindf; [apply check_sensor_types_allowed|]. intros _.
  bindf; [apply stable_get_device; traces|]. intros _.
  bindf; [apply stable_get_device_state; traces|]. intros r.
  bindf; [apply stable_get_device_state; traces|]. intros sel.
  bindf; [apply stable_call; traces|]. intros _.
  bindf; [apply stable_call; traces|]. intros start.
  bindf; [apply quiet_modify; reflexivity|]. intros _.
  bindf.
  { destruct (show_live_plot p) eqn:Hshow.
    - apply launch_plot_allowed. congruence.
    - apply stable_ret; traces. }
  intros _. now apply polling_loop_allowed.
Qed.

Lemma finish_allowed (p : Params) :
  show_live_plot p = plot -> save_to_file p = save ->
  stable P0 R0 (finish p).
Proof.
  intros Hp Hs.
  unfold finish, teardown, save_session, disconnect, put_device_state.
  bindf.
  { bindf.
    { destruct (show_live_plot p) eqn:Hshow; [|apply stable_ret; traces].
      bindf; [apply stable_get_local; traces|]. intros _.
      bindf; [apply stable_call; traces|]. intros running.
      destruct running; [|apply stable_ret; traces].
      bindf; [apply stable_call; traces|]. intros _.
      apply allowed_emit. simpl. congruence. }
    intros _.
    bindf; [apply stable_call; traces|]. intros _.
    bindf; [apply stable_force_stop; traces|]. intros _.
    bindf; [apply stable_get_device; traces|]. intros _.
    bindf; [apply stable_call; traces|]. intros _.
    apply quiet_modify; reflexivity. }
  intros _.
  bindf; [apply stable_get_local; traces|]. intros sess.
  bindf; [apply stable_get_local; traces|]. intros stamp.
  bindf; [apply quiet_modify; reflexivity|]. intros _.
  bindf; [|intros _; apply stable_ret; traces].
  destruct (save_to_file p) eqn:Hsave; [|apply stable_ret; traces].
  bindf; [apply stable_lift; traces|]. intros df.
  bindf; [apply stable_get_device_state; traces|]. intros r.
  bindf; [apply stable_call; traces|]. intros _.
  apply allowed_emit. simpl. congruence.
Qed.

Lemma start_aquisition_allowed (fuel : nat) :
  forall p, show_live_plot p = plot -> save_to_file p = save ->
            stable P0 R0 (start_aquisition fuel p).
Proof.
  induction fuel as [|fuel IH]; intros p Hp Hs; cbn [start_aquisition].
  - intros s r s' _ H. inversion H; subst. apply trace_ext_refl.
  - bindf; [apply quiet_modify; reflexivity|]. intros _.
    bindf; [apply stable_get_device_state; traces|]. intros c.
    bindf.
    { apply stable_if; [|apply stable_ret; traces].
      bindf; [apply connect_allowed|]. intros _. apply stable_ret; traces. }
    intros _ s r s' _ Hrun.
    destruct (try_body fuel p s) as [[[]|e|] s1] eqn:Htry;
      pose proof (try_body_allowed fuel p Hp _ _ _ I Htry) as H1.
    + eapply trace_ext_trans; [exact H1|].
      eapply finish_allowed; [exact Hp | exact Hs | exact I | exact Hrun].
    + eapply trace_ext_trans; [exact H1|].
      destruct (is_Exception e);
        [|eapply finish_allowed; [exact Hp | exact Hs | exact I | exact Hrun]].
      destruct (String.eqb (exc_str e) CONTACTING_DEVICE);
        [eapply finish_allowed; [exact Hp | exact Hs | exact I | exact Hrun]|].
      destruct (String.eqb (exc_str e) DEVICE_NOT_IDLE);
        [|eapply finish_allowed; [exact Hp | exact Hs | exact I | exact Hrun]].
      revert Hrun.
      apply (stable_bind P0 R0 (trace_ext_trans ok) (trace_ext_keeps ok));
        [apply stable_force_stop; traces | | exact I].
      intros _. apply IH; assumption.
    + inversion Hrun; subst. exact H1.
Qed.

End Flags.

(** X16: whatever the device and the world do, and across restarts, a call
    of [start_aquisition] starts a plot process, writes to it or signals
    it only when [show_live_plot] is set, and writes a CSV file only when
    [save_to_file] is set. *)
Theorem flags_bound_the_effects {W : Type} {E : Env W} (fuel : nat)
  (p : Params) (s : @State W) :
  exists evs,
    trace (snd (start_aquisition fuel p s)) = trace s ++ evs /\
    Forall (allowed (show_live_plot p) (save_to_file p)) evs.
Proof.
  exact (start_aquisition_allowed (show_live_plot p) (save_to_file p) fuel p
           eq_refl eq_refl s _ _ I (surjective_pairing _)).
Qed.

(** ** The transfer functions on the values of the converter *)

Lemma adc_values_In (z : Z) : 0 <= z < 1024 -> In z adc_values.
Proof.
  intros Hz. unfold adc_values. apply in_map_iff.
  exists (Z.to_nat z). split; [lia|]. apply in_seq. lia.
Qed.

Lemma pairwise_nth {A} (R : A -> A -> bool) (l : list A) :
  pairwise R l = true ->
  forall i j a b, (i < j)%nat ->
    nth_error l i = Some a -> nth_error l j = Some b -> R a b = true.
Proof.
  induction l as [|x l IH]; intros Hp i j a b Hij Ha Hb.
  - destruct i; discriminate.
  - cbn [pairwise] in Hp. apply andb_prop in Hp as [Hx Hp].
    destruct j as [|j]; [lia|]. cbn [nth_error] in Hb.
    destruct i as [|i].
    + cbn [nth_error] in Ha. inversion Ha; subst a.
      rewrite forallb_forall in Hx. apply Hx.
      eapply nth_error_In; exact Hb.
    + cbn [nth_error] in Ha. apply (IH Hp i j a b); [lia | exact Ha | exact Hb].
Qed.

Lemma adc_values_nth (g : Z -> float) (z : Z) :
  0 <= z < 1024 ->
  nth_error (map g adc_values) (Z.to_nat z) = Some (g z).
Proof.
  intros Hz. unfold adc_values.
  rewrite !nth_error_map, nth_error_seq.
  destruct (Nat.ltb_spec (Z.to_nat z) 1024) as [_|Hge]; [|lia].
  cbn [option_map Nat.add]. now rewrite Z2Nat.id by lia.
Qed.

Lemma increasing_on_adc_pair (g : Z -> float) (lo hi : float) (z1 z2 : Z) :
  increasing_on_adc g lo hi = true ->
  0 <= z1 -> z1 < z2 -> z2 < 1024 ->
  PrimFloat.leb lo (g z1) = true /\ PrimFloat.ltb (g z1) (g z2) = true /\
  PrimFloat.ltb (g z2) hi = true.
Proof.
  intros Hall H0 H12 H2. unfold increasing_on_adc in Hall. cbv zeta in Hall.
  apply andb_prop in Hall as [Hin Hpair].
  rewrite forallb_forall in Hin.
  pose proof (adc_values_nth g z1 ltac:(lia)) as Hn1.
  pose proof (adc_values_nth g z2 ltac:(lia)) as Hn2.
  pose proof (Hin _ (nth_error_In _ _ Hn1)) as Hr1.
  pose proof (Hin _ (nth_error_In _ _ Hn2)) as Hr2.
  apply andb_prop in Hr1 as [Hlo _]. apply andb_prop in Hr2 as [_ Hhi].
  split; [exact Hlo|]. split; [|exact Hhi].
  apply (pairwise_nth _ _ Hpair (Z.to_nat z1) (Z.to_nat z2));
    [lia | exact Hn1 | exact Hn2].
Qed.

Lemma raw_to_ecg_mv_samples (xs : list Z) :
  _raw_to_ecg_mv (IntArr xs) = FloatArr (map ecg_of xs).
Proof.
  unfold _raw_to_ecg_mv. cbv zeta. cbn [astype_float].
  now rewrite !map_map.
Qed.

Lemma raw_to_eda_uS_samples (xs : list Z) :
  _raw_to_eda_uS (IntArr xs) = FloatArr (map eda_of xs).
Proof.
  unfold _raw_to_eda_uS. cbv zeta. cbn [astype_float].
  now rewrite !map_map.
Qed.

(** X17: on the values of the 10-bit converter, [_raw_to_ecg_mv] is
    strictly increasing and stays within the range of the sensor: for raw
    values [z1 < z2] in 0..1023 the results [y1], [y2] satisfy
    [-1.5 <= y1 < y2 < 1.5] (millivolts). *)
Theorem ecg_increasing_within_range (z1 z2 : Z) :
  0 <= z1 -> z1 < z2 -> z2 < 1024 ->
  exists y1 y2,
    _raw_to_ecg_mv (IntArr [z1; z2]) = FloatArr [y1; y2] /\
    PrimFloat.leb (-1.5)%float y1 = true /\ PrimFloat.ltb y1 y2 = true /\
    PrimFloat.ltb y2 1.5%float = true.
Proof.
  intros H0 H12 H2. exists (ecg_of z1), (ecg_of z2).
  split; [apply raw_to_ecg_mv_samples|].
  apply increasing_on_adc_pair; [vm_compute; reflexivity | lia | lia | lia].
Qed.

(** X18: on the values of the 10-bit converter, [_raw_to_eda_uS] is
    strictly increasing from zero and stays below 25: for raw values
    [z1 < z2] in 0..1023 the results [y1], [y2] satisfy
    [0 <= y1 < y2 < 25] (microsiemens). *)
Theorem eda_increasing_within_range (z1 z2 : Z) :
  0 <= z1 -> z1 < z2 -> z2 < 1024 ->
  exists y1 y2,
    _raw_to_eda_uS (IntArr [z1; z2]) = FloatArr [y1; y2] /\
    PrimFloat.leb 0%float y1 = true /\ PrimFloat.ltb y1 y2 = true /\
    PrimFloat.ltb y2 25%float = true.
Proof.
  intros H0 H12 H2. exists (eda_of z1), (eda_of z2).
  split; [apply raw_to_eda_uS_samples|].
  apply increasing_on_adc_pair; [vm_compute; reflexivity | lia | lia | lia].
Qed.

Lemma ecg_increasing_within_range_witness :
  0 <= 0 /\ 0 < 1023 /\ 1023 < 1024 /\
  exists y1 y2,
    _raw_to_ecg_mv (IntArr [0; 1023]) = FloatArr [y1; y2] /\
    PrimFloat.leb (-1.5)%float y1 = true /\ PrimFloat.ltb y1 y2 = true /\
    PrimFloat.ltb y2 1.5%float = true.
Proof.
  assert (H1 : 0 <= 0) by lia.
  assert (H2 : 0 < 1023) by lia.
  assert (H3 : 1023 < 1024) by lia.
  split; [exact H1|]. split; [exact H2|]. split; [exact H3|].
  exact (ecg_increasing_within_range 0 1023 H1 H2 H3).
Defined.

Lemma eda_increasing_within_range_witness :
  0 <= 511 /\ 511 < 512 /\ 512 < 1024 /\
  exists y1 y2,
    _raw_to_eda_uS (IntArr [511; 512]) = FloatArr [y1; y2] /\
    PrimFloat.leb 0%float y1 = true /\ PrimFloat.ltb y1 y2 = true /\
    PrimFloat.ltb y2 25%float = true.
Proof.
  assert (H1 : 0 <= 511) by lia.
  assert (H2 : 511 < 512) by lia.
  assert (H3 : 512 < 1024) by lia.
  split; [exact H1|]. split; [exact H2|]. split; [exact H3|].
  exact (eda_increasing_within_range 511 512 H1 H2 H3).
Defined.

(** ** The rows of a frame and the axes of the plot *)

Lemma plot_frame_rows (rate : Z) (d : Session) (tmp : list (list pynum)) :
  plot_frame rate d = Ret tmp -> List.length tmp = List.length (dict_keys d).
Proof.
  unfold plot_frame, np_array. cbv zeta.
  assert (List.length (dict_keys d) = List.length (dict_values d)) as ->
    by (unfold dict_keys, dict_values; now rewrite !length_map).
  destruct (dict_values d) as [|v vs]; [discriminate|].
  destruct (forallb _ vs); [|discriminate].
  destruct (forallb is_IntArr (v :: vs)); cbn [columns_from tolist];
    intros H; inversion H; subst; cbn [map List.length];
    now rewrite !length_map.
Qed.

Lemma convert_store_loop_within (labels : list string) (rd : IntMatrix)
  (items : list (nat * (string * string))) :
  Forall (fun x => In (snd (snd x)) labels) items ->
  forall d r d',
  NoDup (dict_keys d) -> incl (dict_keys d) labels ->
  for_each items (fun '(i, (ch, sensor)) =>
    _sensor_data <- convert sensor rd i ;; store sensor _sensor_data) d =
  (r, d') ->
  NoDup (dict_keys d') /\ incl (dict_keys d') labels.
Proof.
  induction 1 as [|[i [ch sensor]] items Hx _ IH]; intros d r d' Hnd Hin Hrun.
  - cbn in Hrun. inversion Hrun; subst. auto.
  - cbn [for_each] in Hrun. unfold bind at 1 in Hrun.
    unfold bind at 1 in Hrun. rewrite convert_spec in Hrun.
    destruct (column rd (COLUMN_OFFSET + i)) as [raw| |];
      try (inversion Hrun; subst; auto; fail).
    rewrite store_result in Hrun.
    apply (IH _ _ _ (dict_keys_set_NoDup _ _ _ Hnd)) in Hrun; [exact Hrun|].
    intros k Hk. apply dict_keys_set_incl in Hk.
    apply in_app_or in Hk as [Hk|[<-|[]]]; [now apply Hin | exact Hx].
Qed.

Lemma convert_and_store_within (chs : dict string) (rd : IntMatrix)
  (d d' : Session) (r : Outcome unit) :
  NoDup (dict_keys d) -> incl (dict_keys d) (dict_values chs) ->
  convert_and_store chs rd d = (r, d') ->
  NoDup (dict_keys d') /\ incl (dict_keys d') (dict_values chs).
Proof.
  unfold convert_and_store, enumerate.
  apply convert_store_loop_within.
  apply Forall_forall. intros x Hx.
  rewrite <- (enumerate_labels_from chs 0).
  apply in_map_iff. exists x. auto.
Qed.

Section Axes.
Context {W : Type} {E : Env W}.
Variable chs : dict string.

Notation P := (@session_within W chs).
Notation R := (@within_kept W E chs).

Lemma within_kept_refl (s : @State W) : R s s.
Proof. split; [auto | apply trace_ext_refl]. Qed.

Lemma within_kept_trans (a b c : @State W) : R a b -> R b c -> R a c.
Proof.
  intros [H1 T1] [H2 T2]. split; [auto | eapply trace_ext_trans; eauto].
Qed.

Lemma within_kept_keeps (s s' : @State W) : P s -> R s s' -> P s'.
Proof. intros HP [H _]. auto. Qed.

Lemma within_kept_world (s : @State W) (w : W) :
  R s (mkState (mgr s) (frame s) (trace s) w).
Proof. split; [auto | apply trace_ext_world]. Qed.

Ltac within :=
  first [ exact within_kept_refl | exact within_kept_trans
        | exact within_kept_keeps | exact within_kept_world ].

Ltac bindw := apply (stable_bind P R within_kept_trans within_kept_keeps).

Lemma on_session_within (rd : IntMatrix) :
  stable P R (on_session (convert_and_store chs rd)).
Proof.
  intros s r s' [Hch Hd] Hrun.
  unfold on_session, get_session, get_local, bind, get, ret, raise in Hrun.
  destruct (collected_data_in_this_session (frame s)) as [d|] eqn:Hsess;
    [|injection Hrun as <- <-; apply within_kept_refl].
  destruct (convert_and_store chs rd d) as [r' d'] eqn:Hcs.
  injection Hrun as <- <-. split; [|now apply trace_ext_same].
  intros _. split; [exact Hch|].
  cbn [set_frame frame set_session collected_data_in_this_session].
  intros d0 Hd0. injection Hd0 as <-.
  destruct (Hd d eq_refl) as [Hnd Hin].
  eapply convert_and_store_within; eauto.
Qed.

Lemma send_plot_update_within : stable P R send_plot_update.
Proof.
  intros s r s' [Hch Hd] Hrun.
  unfold send_plot_update, get_device_state, get_session, get_p, get_local,
    bind, get, ret, raise, lift_outcome, getattr, device_state_class, call,
    emit, modify in Hrun.
  destruct (collected_data_in_this_session (frame s)) as [d|] eqn:Hsess;
    [|injection Hrun as <- <-; apply within_kept_refl].
  destruct (plot_frame _ d) as [tmp| |] eqn:Hpf;
    try (injection Hrun as <- <-; apply within_kept_refl).
  destruct (l_p (frame s));
    [|injection Hrun as <- <-; apply within_kept_refl].
  destruct (stdin_write _ (world s)) as [[[]| |] w];
    try (injection Hrun as <- <-; apply within_kept_world).
  injection Hrun as <- <-. split.
  - intros _. split; [exact Hch|]. cbn [frame]. rewrite Hsess. exact Hd.
  - eexists [_]. split; [reflexivity|]. constructor; [|constructor].
    exists tmp. split; [reflexivity|].
    rewrite (plot_frame_rows _ _ _ Hpf).
    destruct (Hd d eq_refl) as [Hnd Hin].
    apply NoDup_incl_length; assumption.
Qed.

Lemma poll_once_within (p : Params) : stable P R (poll_once p).
Proof.
  unfold poll_once.
  bindw; [apply stable_get_device; within|]. intros _.
  bindw; [apply stable_call; within|]. intros rd.
  intros s r s' HP Hrun. revert Hrun.
  unfold bind at 1, get_channels at 1. cbn [bind get ret].
  rewrite (proj1 HP). revert s r s' HP.
  change (stable P R
    (on_session (convert_and_store chs rd) ;;
     (if print_sample_log p
      then d <- get_session ;;
           _ <- lift_outcome (np_array (dict_values d)) ;;
           ret tt
      else ret tt) ;;
     (if show_live_plot p then send_plot_update else ret tt) ;;
     timed_out p)).
  bindw; [apply on_session_within|]. intros _.
  bindw.
  { apply stable_if; [|apply stable_ret; within].
    bindw; [apply stable_get_local; within|]. intros d.
    bindw; [apply stable_lift; within|]. intros _. apply stable_ret; within. }
  intros _. bindw.
  { apply stable_if;
      [apply send_plot_update_within | apply stable_ret; within]. }
  intros _. apply stable_timed_out; within.
Qed.

Lemma polling_loop_within (p : Params) (fuel : nat) :
  stable P R (polling_loop fuel p).
Proof.
  induction fuel as [|fuel IH]; cbn [polling_loop].
  - intros s r s' _ H. inversion H; subst. apply within_kept_refl.
  - bindw; [apply poll_once_within|]. intros stop.
    destruct stop; [apply stable_ret; within | exact IH].
Qed.

End Axes.

(** X19: from the start of the polling loop (the session dictionary is
    empty), every line the loop writes to the plot process is a frame with
    at most as many rows as [channels] has entries, that is, as the plot
    has axes: a frame has one row per distinct sensor label. *)
Theorem frames_fit_the_axes {W : Type} {E : Env W} (fuel : nat)
  (p : Params) (s : @State W) :
  collected_data_in_this_session (frame s) = Some [] ->
  exists evs,
    trace (snd (polling_loop fuel p s)) = trace s ++ evs /\
    forall line, In line (stdin_writes evs) ->
      exists tmp : list (list pynum),
        line = frame_line num_repr tmp /\
        (List.length tmp <=
         List.length (dict_values (l_channels (frame s))))%nat.
Proof.
  intros Hsess.
  assert (session_within (l_channels (frame s)) s) as HP.
  { split; [reflexivity|]. intros d Hd. rewrite Hsess in Hd.
    inversion Hd; subst. split; [constructor | intros k []]. }
  destruct (polling_loop_within (l_channels (frame s)) p fuel s _ _ HP
              (surjective_pairing _)) as [_ [evs [Ht Hok]]].
  exists evs. split; [exact Ht|].
  intros line Hin. unfold stdin_writes in Hin.
  apply in_flat_map in Hin as [ev [Hev Hline]].
  rewrite Forall_forall in Hok. specialize (Hok ev Hev).
  destruct ev; cbn in Hline; try contradiction.
  destruct Hline as [<-|[]]. exact Hok.
Qed.

Lemma frames_fit_the_axes_witness :
  let p := mkParams 0 [("A1", "RAW"); ("A2", "RAW")] 100 1 true
             (Some "00:21:08:35:14:75") false "BITALINO" false in
  let s := mkState
             (mkManager true
                (mkDeviceState "00:21:08:35:14:75" [0; 1] 100 true) 0 [])
             (mkFrame [("A1", "RAW"); ("A2", "RAW")] (Some 0%float)
                (Some "01-01-2024-000000") (Some []) true)
             [] (mkScript None [Ret (batch [[0; 0; 0; 0; 0; 512; 498]])] 0) in
  collected_data_in_this_session (frame s) = Some [] /\
  stdin_writes (trace (snd (polling_loop 3 p s))) =
    [frame_line num_repr [[PyInt 512; PyInt 498]]] /\
  exists evs,
    trace (snd (polling_loop 3 p s)) = trace s ++ evs /\
    forall line, In line (stdin_writes evs) ->
      exists tmp : list (list pynum),
        line = frame_line num_repr tmp /\
        (List.length tmp <=
         List.length (dict_values (l_channels (frame s))))%nat.
Proof.
  intros p s.
  assert (H : collected_data_in_this_session (frame s) = Some [])
    by reflexivity.
  split; [exact H|]. split; [vm_compute; reflexivity|].
  exact (frames_fit_the_axes 3 p s H).
Defined.
